(** * PaddleOCR web service: a shallow embedding of [app.py]

    The service is a validation-and-glue layer around an OCR engine.  This
    development embeds the pure helpers ([validate_file], the item collection
    loop of [process_image_ocr], [convert_to_table]) as functions, and the
    HTTP handlers as computations in a small state-and-exception monad over a
    model of the upload directory.

    Python [str] values are sequences of Unicode code points: a character is
    a code point in [N] and a string is a list of them. *)

From Stdlib Require Import ZArith NArith Lia Bool Ascii String Floats DecimalString.
From stdpp Require Import base option list gmap sets.

Local Open Scope N_scope.

Abbreviation char := N (only parsing).
Abbreviation str := (list N) (only parsing).

(** ASCII literals of the source, as code-point sequences. *)
Definition py (s : string) : str :=
  map N_of_ascii (list_ascii_of_string s).

(** ** Python string primitives *)

Definition TAB : char := 9.
Definition LF : char := 10.
Definition CR : char := 13.
Definition DQUOTE : char := 34.
Definition COMMA : char := 44.
Definition DOT : char := 46.
Definition SLASH : char := 47.

(** [str.isspace] on one code point, which is also the class [\s] of [re]
    for [str] patterns. *)
Definition isspace (c : char) : bool :=
  ((9 <=? c) && (c <=? 13)) || ((28 <=? c) && (c <=? 32))
  || (c =? 133) || (c =? 160) || (c =? 5760)
  || ((8192 <=? c) && (c <=? 8202))
  || (c =? 8232) || (c =? 8233) || (c =? 8239) || (c =? 8287) || (c =? 12288).

Fixpoint lstrip (s : str) : str :=
  match s with
  | c :: s' => if isspace c then lstrip s' else s
  | [] => []
  end.

Definition rstrip (s : str) : str := rev (lstrip (rev s)).

(** [s.strip()] *)
Definition strip (s : str) : str := rstrip (lstrip s).

(** [s.count(c)] for a one-character needle. *)
Definition count_char (c : char) (s : str) : nat :=
  length (filter (λ x, x = c) s).

(** [s.startswith(p)] *)
Fixpoint startswith (p s : str) : bool :=
  match p, s with
  | [], _ => true
  | a :: p', b :: s' => (a =? b) && startswith p' s'
  | _ :: _, [] => false
  end.

(** [p in s] for strings. *)
Fixpoint contains (p s : str) : bool :=
  startswith p s || match s with [] => false | _ :: s' => contains p s' end.

(** The scan of [s.split(sep)] for a non-empty [sep]: occurrences are taken
    left to right and do not overlap; [skip] counts the characters of an
    occurrence that remain to be passed over, [cur] is the piece being
    collected. *)
Fixpoint split_scan (sep : str) (skip : nat) (cur : str) (s : str) : list str :=
  match s with
  | [] => [cur]
  | c :: s' =>
      match skip with
      | S k => split_scan sep k cur s'
      | O =>
          if startswith sep s
          then cur :: split_scan sep (length sep - 1) [] s'
          else split_scan sep 0 (cur ++ [c]) s'
      end
  end.

(** [s.split(sep)]; an empty separator raises [ValueError], rendered [None]. *)
Definition split (sep : str) (s : str) : option (list str) :=
  match sep with
  | [] => None
  | _ => Some (split_scan sep 0 [] s)
  end.

(** [sep.join(parts)] *)
Fixpoint join (sep : str) (parts : list str) : str :=
  match parts with
  | [] => []
  | [p] => p
  | p :: rest => p ++ sep ++ join sep rest
  end.

(** [re.split(r'\s{2,}', s)]: the separators are the maximal runs of at least
    two whitespace characters; a lone whitespace character stays in its cell.
    [in_run] tells that a separator run is being passed over. *)
Fixpoint re_split_ws2 (in_run : bool) (cur : str) (s : str) : list str :=
  match s with
  | [] => [cur]
  | c :: s' =>
      if isspace c then
        if in_run then re_split_ws2 true cur s'
        else
          match s' with
          | c2 :: _ =>
              if isspace c2 then cur :: re_split_ws2 true [] s'
              else re_split_ws2 false (cur ++ [c]) s'
          | [] => re_split_ws2 false (cur ++ [c]) s'
          end
      else re_split_ws2 false (cur ++ [c]) s'
  end.

(** [len(re.findall(r'\s{2,}', s))] *)
Fixpoint re_count_ws2 (in_run : bool) (s : str) : nat :=
  match s with
  | [] => O
  | c :: s' =>
      if isspace c then
        if in_run then re_count_ws2 true s'
        else
          match s' with
          | c2 :: _ =>
              if isspace c2 then S (re_count_ws2 true s')
              else re_count_ws2 false s'
          | [] => O
          end
      else re_count_ws2 false s'
  end.

(** ** pathlib *)

(** [Path(p).name] on a POSIX host: the last component that is neither
    empty nor a single dot. *)
Definition path_name (p : str) : str :=
  default [] (last (filter (λ x, x ≠ [] ∧ x ≠ [DOT])
                           (split_scan [SLASH] 0 [] p))).

(** [name.rfind('.')], counted from [i]. *)
Fixpoint rfind_from (c : char) (i : nat) (s : str) : option nat :=
  match s with
  | [] => None
  | x :: s' =>
      match rfind_from c (S i) s' with
      | Some j => Some j
      | None => if x =? c then Some i else None
      end
  end.

(** [PurePath.suffix]: from the last dot of the name, unless that dot is
    the first or the last character. *)
Definition suffix (p : str) : str :=
  let name := path_name p in
  match rfind_from DOT 0 name with
  | Some i =>
      if ((0 <? i) && (i <? length name - 1))%nat then drop i name else []
  | None => []
  end.

(** ** Exceptions *)

(** The exceptions the service raises or catches: FastAPI's [HTTPException]
    and any other [Exception], of which only [str(e)] is ever used. *)
Inductive Exn :=
| HTTPException (status_code : Z) (detail : str)
| PyError (message : str).

Inductive outcome (A : Type) :=
| Raised (e : Exn)
| Returned (a : A).
Arguments Raised {A} e.
Arguments Returned {A} a.

(** ** The environment of the service

    What [app.py] takes from outside: Unicode case folding, the iteration
    order of a [set] of strings, the two engines and their loading, the
    rasteriser, the disk, the id generator, the clock, and what the web
    framework does before and after a handler. *)

Inductive Geometry :=
| NdArray (rows : list (list float))
| PySeq (rows : list (list float)).

(** The shapes [ocr.predict] may return, as [process_image_ocr] tells them
    apart. *)
Inductive EngineResult :=
| RecAttrs (rec_texts : list str) (rec_scores : option (list float))
           (dt_polys : option (list Geometry))
| TextAttr (text : str + list str) (score : option float) (box : option Geometry)
| RecDict (rec_texts : list str) (rec_scores : option (list float))
          (dt_polys : option (list Geometry))
| TextDict (text : str) (score : option float) (box : option Geometry)
| Unrecognised.

(** A recognition item: the dict with keys [text], [confidence], [bbox]. *)
Record Item := mkItem {
  item_text : str;
  item_confidence : float;
  item_bbox : list (list float)
}.

(** What [open(temp_path, 'wb')] and [f.write(content)] can do. *)
Inductive WriteOutcome :=
| Written
| NotCreated (e : str)
| Partial (kept : list Byte.byte) (e : str).

(** ** JSON bodies *)

#[local] Set Warnings "-register-all".
Inductive json :=
| JNull
| JBool (b : bool)
| JInt (z : Z)
| JFloat (f : float)
| JStr (s : str)
| JArr (l : list json)
| JObj (fields : list (str * json)).

(** [d[key]] on a JSON object. *)
Fixpoint lookup_field (key : str) (fields : list (str * json)) : option json :=
  match fields with
  | [] => None
  | (k, v) :: rest => if decide (k = key) then Some v else lookup_field key rest
  end.

Definition get (key : str) (j : json) : option json :=
  match j with
  | JObj fields => lookup_field key fields
  | _ => None
  end.

(** ** Lazy model loader

    The two module-level slots [_ocr_engine] and [_structure_engine].  An
    engine is named by the number of the load attempt that built it. *)

Inductive StructureLoad :=
| Constructed
| NoModule
| ConstructFailed (e : Exn).

Record LoadEnv := mkLoadEnv {
  (** the [n]-th attempt to import and build [PaddleOCR]: what it raises,
      if anything *)
  ocr_load : nat -> option Exn;
  (** the [n]-th attempt to import and build [PPStructureV3]: built, an
      [ImportError], or another exception *)
  structure_load : nat -> StructureLoad
}.

Record Loader := mkLoader {
  (** [_ocr_engine]: [None] or the engine *)
  ocr_slot : option nat;
  (** [_structure_engine]: [None], [False] (rendered [Some None]) or the
      engine *)
  structure_slot : option (option nat);
  ocr_attempts : nat;
  structure_attempts : nat
}.

Definition fresh_loader : Loader := mkLoader None None 0 0.

Definition get_ocr_engine (lenv : LoadEnv) (l : Loader) : outcome nat * Loader :=
  match ocr_slot l with
  | Some engine => (Returned engine, l)
  | None =>
      let n := ocr_attempts l in
      match ocr_load lenv n with
      | None =>
          (Returned n,
           mkLoader (Some n) (structure_slot l) (S n) (structure_attempts l))
      | Some e =>
          (Raised e, mkLoader None (structure_slot l) (S n) (structure_attempts l))
      end
  end.

(** The value returned is [None] for [False]. *)
Definition get_structure_engine (lenv : LoadEnv) (l : Loader)
    : outcome (option nat) * Loader :=
  match structure_slot l with
  | Some engine => (Returned engine, l)
  | None =>
      let n := structure_attempts l in
      match structure_load lenv n with
      | Constructed =>
          (Returned (Some n),
           mkLoader (ocr_slot l) (Some (Some n)) (ocr_attempts l) (S n))
      | NoModule =>
          (Returned None,
           mkLoader (ocr_slot l) (Some None) (ocr_attempts l) (S n))
      | ConstructFailed e =>
          (Raised e, mkLoader (ocr_slot l) None (ocr_attempts l) (S n))
      end
  end.

(** Running any of the two getters, in the order of [calls] ([true] for the
    OCR engine). *)
Fixpoint run_getters (lenv : LoadEnv) (calls : list bool) (l : Loader) : Loader :=
  match calls with
  | [] => l
  | true :: rest => run_getters lenv rest (get_ocr_engine lenv l).2
  | false :: rest => run_getters lenv rest (get_structure_engine lenv l).2
  end.

(** "PDF 處理需要安裝 pdf2image 和 poppler-utils" *)
Definition MSG_PDF_DEPENDENCY : str :=
  [80; 68; 70; 32; 34389; 29702; 38656; 35201; 23433; 35037; 32; 112; 100;
   102; 50; 105; 109; 97; 103; 101; 32; 21644; 32; 112; 111; 112; 112; 108;
   101; 114; 45; 117; 116; 105; 108; 115].

Record PdfEnv := mkPdfEnv {
  (** [structure.predict] on the bytes of the file: for each result its
      [text_contents], when it has that attribute *)
  structure_predict : list Byte.byte -> outcome (list (option (list str)));
  (** [import pdf2image] and [convert_from_path]: the pages, as the bytes
      [img.save] writes *)
  rasterize : list Byte.byte -> outcome (list (list Byte.byte));
  (** whether an exception is an [ImportError] *)
  is_import_error : Exn -> bool;
  (** the name of the [n]-th [NamedTemporaryFile] *)
  tmp_name : nat -> str
}.

(** Whether the route declares a [response_model]. *)
Inductive Serializer := ByModel | Plain.

(** What becomes of the value a handler returned when the framework
    serialises it, after the handler is left: the body that is sent, or
    [str(exc)] of the exception the serialisation raised. *)
Inductive Rendered :=
  | Sent (body : json)
  | Unsendable (reason : str).

Record Env := mkEnv {
  (** [str.lower] *)
  py_lower : str -> str;
  (** the order in which [ALLOWED_EXTENSIONS] is iterated *)
  set_order : list str;
  (** [predict] of the OCR engine on the bytes of the input file *)
  ocr_predict : list Byte.byte -> outcome (list EngineResult);
  (** writing [content] to a path of the upload directory *)
  disk_write : str -> list Byte.byte -> WriteOutcome;
  (** the [n]-th value of [str(uuid.uuid4())] *)
  uuid4 : nat -> str;
  (** [datetime.now().isoformat()] at the [n]-th reading of the clock *)
  isoformat : nat -> str;
  (** [(b - a).total_seconds()] for the readings [a] and [b] *)
  total_seconds : nat -> nat -> float;
  (** what loading the two engines gives *)
  load_env : LoadEnv;
  (** the structure engine and the rasteriser *)
  pdf_env : PdfEnv;
  (** the body of the framework's 422 answer for a required field of the
      request that is missing *)
  missing_field : str -> json;
  (** what the framework makes of the value a handler returned, on a route
      with or without a response model *)
  render : Serializer -> json -> Rendered
}.

(** ** File validator *)

Definition ALLOWED_IMAGE_EXTENSIONS : gset str :=
  {[ py ".png"; py ".jpg"; py ".jpeg"; py ".bmp"; py ".gif"; py ".webp";
     py ".tiff"; py ".tif" ]}.
Definition ALLOWED_PDF_EXTENSIONS : gset str := {[ py ".pdf" ]}.
Definition ALLOWED_EXTENSIONS : gset str :=
  ALLOWED_IMAGE_EXTENSIONS ∪ ALLOWED_PDF_EXTENSIONS.

(** "未提供檔案名稱" *)
Definition MSG_NO_FILENAME : str :=
  [26410; 25552; 20379; 27284; 26696; 21517; 31281].
(** "不支援的檔案格式: " *)
Definition MSG_UNSUPPORTED : str :=
  [19981; 25903; 25588; 30340; 27284; 26696; 26684; 24335; 58; 32].
(** "。支援格式: " *)
Definition MSG_SUPPORTED : str :=
  [12290; 25903; 25588; 26684; 24335; 58; 32].

Definition validate_file (env : Env) (filename : str) : bool * str :=
  match filename with
  | [] => (false, MSG_NO_FILENAME)
  | _ =>
      let ext := py_lower env (suffix filename) in
      if decide (ext ∈ ALLOWED_EXTENSIONS) then (true, ext)
      else (false, MSG_UNSUPPORTED ++ ext ++ MSG_SUPPORTED
                     ++ join (py ", ") (set_order env))
  end.

(** ** Image OCR adapter *)

(** Truth value of a float: anything but zero. *)
Definition float_truthy (f : float) : bool := negb (PrimFloat.eqb f 0%float).

(** [bbox.tolist() if hasattr(bbox, 'tolist') else (list(bbox) if bbox else [])] *)
Definition bbox_of (g : Geometry) : list (list float) :=
  match g with
  | NdArray rows => rows
  | PySeq rows => match rows with [] => [] | _ => rows end
  end.

(** Lines 213-219: the item built for a non-empty [text] at index [i]. *)
Definition item_at (scores : list float) (boxes : list Geometry) (i : nat)
    (text : str) : Item :=
  let score := default 1%float (scores !! i) in
  let bbox := default (PySeq []) (boxes !! i) in
  {| item_text := text;
     item_confidence := if float_truthy score then score else 1%float;
     item_bbox := bbox_of bbox |}.

(** The loop [for i, text in enumerate(texts)], from index [i] on. *)
Fixpoint collect_from (i : nat) (texts : list str) (scores : list float)
    (boxes : list Geometry) : list Item :=
  match texts with
  | [] => []
  | text :: rest =>
      match text with
      | [] => []
      | _ => [item_at scores boxes i text]
      end ++ collect_from (S i) rest scores boxes
  end.

Definition collect_items (texts : list str) (scores : list float)
    (boxes : list Geometry) : list Item :=
  collect_from 0 texts scores boxes.

(** The parallel arrays taken from one engine result, [None] when no shape
    applies: the [json()] branch only logs, and the [__dict__] branch finds
    [rec_texts] only on objects that the first branch has already taken. *)
Definition extract (res : EngineResult)
    : option (list str * list float * list Geometry) :=
  match res with
  | RecAttrs texts scores boxes | RecDict texts scores boxes =>
      Some (texts,
            default (replicate (length texts) 1%float) scores,
            default (replicate (length texts) (PySeq [])) boxes)
  | TextAttr t score box =>
      Some (match t with inl s => [s] | inr l => l end,
            [default 1%float score], [default (PySeq []) box])
  | TextDict t score box =>
      Some ([t], [default 1%float score], [default (PySeq []) box])
  | Unrecognised => None
  end.

Definition normalize (result : list EngineResult) : list Item :=
  mjoin (map (λ res,
    match extract res with
    | Some (texts, scores, boxes) => collect_items texts scores boxes
    | None => []
    end) result).

(** ** The adapters on bytes

    The state the adapters share: the engine slots and the temporary
    directory. *)

Record PdfWorld := mkPdfWorld {
  loader : Loader;
  (** the files of the temporary directory, by name *)
  tmp_files : gmap str (list Byte.byte);
  tmp_drawn : nat;
  (** how many times the OCR engine was run *)
  page_runs : nat
}.

(** An item of the PDF adapter: the dict, with its [page] key if any. *)
Record PdfItem := mkPdfItem {
  pdf_item : Item;
  pdf_page : option nat
}.

(** [process_image_ocr] on the bytes of the file it is given: the engine
    is fetched, then run. *)
Definition process_image_ocr_full (env : Env) (lenv : LoadEnv)
    (image : list Byte.byte) (pw : PdfWorld)
    : outcome (list Item) * PdfWorld :=
  match get_ocr_engine lenv (loader pw) with
  | (Raised e, l') =>
      (Raised e, mkPdfWorld l' (tmp_files pw) (tmp_drawn pw) (page_runs pw))
  | (Returned _, l') =>
      let pw' := mkPdfWorld l' (tmp_files pw) (tmp_drawn pw) (S (page_runs pw)) in
      match ocr_predict env image with
      | Returned result => (Returned (normalize result), pw')
      | Raised e => (Raised e, pw')
      end
  end.

(** The loop over the pages, from page index [i] on. *)
Fixpoint ocr_pages (env : Env) (lenv : LoadEnv) (penv : PdfEnv) (i : nat)
    (images : list (list Byte.byte)) (all_results : list PdfItem)
    (pw : PdfWorld) : outcome (list PdfItem) * PdfWorld :=
  match images with
  | [] => (Returned all_results, pw)
  | img :: rest =>
      let name := tmp_name penv (tmp_drawn pw) in
      let saved := <[name := img]> (tmp_files pw) in
      match process_image_ocr_full env lenv (default [] (saved !! name))
              (mkPdfWorld (loader pw) saved (S (tmp_drawn pw)) (page_runs pw)) with
      | (Raised e, pw') => (Raised e, pw')
      | (Returned page, pw') =>
          let page_results := map (λ r, mkPdfItem r (Some (i + 1)%nat)) page in
          ocr_pages env lenv penv (S i) rest (all_results ++ page_results)
            (mkPdfWorld (loader pw') (delete name (tmp_files pw'))
                        (tmp_drawn pw') (page_runs pw'))
      end
  end.

(** The [except ImportError] clause of the fallback. *)
Definition import_guard (penv : PdfEnv) (e : Exn) : Exn :=
  if is_import_error penv e then HTTPException 500 MSG_PDF_DEPENDENCY else e.

Definition structure_items (result : list (option (list str))) : list PdfItem :=
  mjoin (map (λ res,
    match res with
    | Some text_contents =>
        map (λ text, mkPdfItem (mkItem text 1%float []) None) text_contents
    | None => []
    end) result).

(** [process_pdf_ocr] on the bytes of the file. *)
Definition process_pdf_ocr_full (env : Env) (lenv : LoadEnv) (penv : PdfEnv)
    (pdf : list Byte.byte) (pw : PdfWorld) : outcome (list PdfItem) * PdfWorld :=
  match get_structure_engine lenv (loader pw) with
  | (Raised e, l') =>
      (Raised e, mkPdfWorld l' (tmp_files pw) (tmp_drawn pw) (page_runs pw))
  | (Returned (Some _), l') =>
      let pw' := mkPdfWorld l' (tmp_files pw) (tmp_drawn pw) (page_runs pw) in
      match structure_predict penv pdf with
      | Raised e => (Raised e, pw')
      | Returned result => (Returned (structure_items result), pw')
      end
  | (Returned None, l') =>
      let pw' := mkPdfWorld l' (tmp_files pw) (tmp_drawn pw) (page_runs pw) in
      match rasterize penv pdf with
      | Raised e => (Raised (import_guard penv e), pw')
      | Returned images =>
          match ocr_pages env lenv penv 0 images [] pw' with
          | (Raised e, pw'') => (Raised (import_guard penv e), pw'')
          | (Returned all_results, pw'') => (Returned all_results, pw'')
          end
      end
  end.

(** The items of page [i] (counted from 0) when the engine returned
    [result] for it. *)
Definition page_items (i : nat) (result : list EngineResult) : list PdfItem :=
  map (λ r, mkPdfItem r (Some (S i))) (normalize result).

(** The items of consecutive pages, the first of which has index [i]. *)
Fixpoint pages_items (i : nat) (results : list (list EngineResult))
    : list PdfItem :=
  match results with
  | [] => []
  | result :: rest => page_items i result ++ pages_items (S i) rest
  end.

(** ** csv: the writer and a reader for the [excel] dialect

    Comma as delimiter, the double quote as quote character and doubled
    inside quoted fields, minimal quoting, line terminator CR LF. *)

(** The characters that force a field to be quoted. *)
Definition csv_special (c : char) : bool :=
  (c =? COMMA) || (c =? DQUOTE) || (c =? CR) || (c =? LF).

Definition csv_escape (f : str) : str :=
  mjoin (map (λ c, if c =? DQUOTE then [DQUOTE; DQUOTE] else [c]) f).

Definition csv_quoted (f : str) : str := [DQUOTE] ++ csv_escape f ++ [DQUOTE].

Definition csv_field (f : str) : str :=
  if existsb csv_special f then csv_quoted f else f.

(** [writer.writerow(row)]: a record that would come out empty although it
    has a field (one empty field) is written as a quoted empty field. *)
Definition writerow (row : list str) : str :=
  let rec := join [COMMA] (map csv_field row) in
  match row, rec with
  | _ :: _, [] => csv_quoted [] ++ [CR; LF]
  | _, _ => rec ++ [CR; LF]
  end.

(** [writer.writerows(rows)] into an empty [StringIO], then [getvalue()]. *)
Definition writerows (rows : list (list str)) : str :=
  mjoin (map writerow rows).

(** The reader is the character automaton of [csv.reader]. *)
Inductive CsvState :=
| StartRecord | StartField | InField | InQuoted | QuoteInQuoted | EatCR.

Record CsvReader := mkReader {
  rd_state : CsvState;
  rd_field : str;
  rd_row : list str;
  rd_out : list (list str)
}.

Definition rd_init : CsvReader := mkReader StartRecord [] [] [].

Definition rd_add (r : CsvReader) (st : CsvState) (c : char) : CsvReader :=
  mkReader st (rd_field r ++ [c]) (rd_row r) (rd_out r).

Definition rd_save_field (r : CsvReader) : CsvReader :=
  mkReader StartField [] (rd_row r ++ [rd_field r]) (rd_out r).

Definition rd_end_record (r : CsvReader) (st : CsvState) : CsvReader :=
  mkReader st [] [] (rd_out r ++ [rd_row r ++ [rd_field r]]).

(** A field begins with [c]. *)
Definition rd_start_field (r : CsvReader) (c : char) : CsvReader :=
  if c =? LF then rd_end_record r StartRecord
  else if c =? CR then rd_end_record r EatCR
  else if c =? DQUOTE then mkReader InQuoted (rd_field r) (rd_row r) (rd_out r)
  else if c =? COMMA then rd_save_field r
  else rd_add r InField c.

(** A record begins with [c]; a blank line is an empty record. *)
Definition rd_start_record (r : CsvReader) (c : char) : CsvReader :=
  if c =? LF then mkReader StartRecord [] [] (rd_out r ++ [[]])
  else if c =? CR then mkReader EatCR [] [] (rd_out r ++ [[]])
  else rd_start_field r c.

Definition rd_step (r : CsvReader) (c : char) : CsvReader :=
  match rd_state r with
  | StartRecord => rd_start_record r c
  | EatCR =>
      if c =? LF then mkReader StartRecord [] [] (rd_out r)
      else rd_start_record r c
  | StartField => rd_start_field r c
  | InField =>
      if c =? LF then rd_end_record r StartRecord
      else if c =? CR then rd_end_record r EatCR
      else if c =? COMMA then rd_save_field r
      else rd_add r InField c
  | InQuoted =>
      if c =? DQUOTE then mkReader QuoteInQuoted (rd_field r) (rd_row r) (rd_out r)
      else rd_add r InQuoted c
  | QuoteInQuoted =>
      if c =? DQUOTE then rd_add r InQuoted c
      else if c =? COMMA then rd_save_field r
      else if c =? LF then rd_end_record r StartRecord
      else if c =? CR then rd_end_record r EatCR
      else rd_add r InField c
  end.

(** End of input: a record in progress is closed. *)
Definition rd_finish (r : CsvReader) : list (list str) :=
  match rd_state r with
  | StartRecord | EatCR => rd_out r
  | _ => rd_out r ++ [rd_row r ++ [rd_field r]]
  end.

Definition rd_run (r : CsvReader) (s : str) : CsvReader := fold_left rd_step s r.

(** [list(csv.reader(...))] over the whole text. *)
Definition csv_parse (s : str) : list (list str) := rd_finish (rd_run rd_init s).

(** The states in which a field begins. *)
Definition field_start (st : CsvState) : Prop := st = StartRecord ∨ st = StartField.

(** ** Table reconstruction heuristic *)

Definition AUTO : str := py "auto".
Definition SPACE : str := py "space".

(** Lines 497-511: the delimiter in force after auto-detection. *)
Definition detect_delimiter (delimiter : str) (lines : list str) : str :=
  if decide (delimiter = AUTO) then
    let tab_count := sum_list (map (count_char TAB) lines) in
    let comma_count := sum_list (map (count_char COMMA) lines) in
    let space_count := sum_list (map (re_count_ws2 false) lines) in
    if (length lines <? 2 * tab_count)%nat then [TAB]
    else if (length lines <? 2 * comma_count)%nat then [COMMA]
    else if (3 * length lines <? 10 * space_count)%nat then SPACE
    else SPACE
  else delimiter.

(** Lines 518-526: the cells of one line before trimming. *)
Definition split_line (delimiter : str) (line : str) : option (list str) :=
  if decide (delimiter = SPACE) then Some (re_split_ws2 false [] (strip line))
  else if decide (delimiter = py "tab") then split [TAB] line
  else if decide (delimiter = py "comma") then split [COMMA] line
  else split delimiter line.

(** [[c.strip() for c in cells if c.strip()]] *)
Definition clean_cells (cells : list str) : list str :=
  filter (λ c, c ≠ []) (map strip cells).

(** The loop of lines 517-531, with its two accumulators. *)
Fixpoint parse_rows (delimiter : str) (lines : list str)
    (table_data : list (list str)) (max_cols : nat)
    : option (list (list str) * nat) :=
  match lines with
  | [] => Some (table_data, max_cols)
  | line :: rest =>
      match split_line delimiter line with
      | None => None
      | Some cells =>
          match clean_cells cells with
          | [] => parse_rows delimiter rest table_data max_cols
          | cells' =>
              parse_rows delimiter rest (table_data ++ [cells'])
                         (max max_cols (length cells'))
          end
      end
  end.

(** Lines 537-539. *)
Definition pad_rows (max_cols : nat) (table_data : list (list str))
    : list (list str) :=
  map (λ row, row ++ replicate (max_cols - length row) []) table_data.

Definition md_row (row : list str) : str :=
  py "| " ++ join (py " | ") row ++ py " |".

(** Lines 548-557. *)
Definition markdown_of (max_cols : nat) (table_data : list (list str)) : str :=
  join [LF]
    match table_data with
    | [] => []
    | header :: rows =>
        md_row header :: md_row (replicate max_cols (py "---")) :: map md_row rows
    end.

(** Lines 536-559: what is returned for a non-empty [table_data]. *)
Definition emit_table (max_cols : nat) (table_data : list (list str))
    : str * str * nat * nat :=
  let grid := pad_rows max_cols table_data in
  (writerows grid, markdown_of max_cols grid, length grid, max_cols).

(** [[r['text'] for r in ocr_results if r.get('text')]] *)
Definition text_lines (ocr_results : list Item) : list str :=
  filter (λ t, t ≠ []) (map item_text ocr_results).

Definition convert_to_table (ocr_results : list Item) (delimiter : str)
    : outcome (str * str * nat * nat) :=
  match ocr_results with
  | [] => Returned ([], [], O, O)
  | _ =>
      match text_lines ocr_results with
      | [] => Returned ([], [], O, O)
      | lines =>
          match parse_rows (detect_delimiter delimiter lines) lines [] O with
          | None => Raised (PyError (py "empty separator"))
          | Some ([], _) => Returned ([], [], O, O)
          | Some (table_data, max_cols) => Returned (emit_table max_cols table_data)
          end
      end
  end.

(** The trimmed non-empty cells of one line; none when the split raises. *)
Definition line_cells (delimiter line : str) : list str :=
  match split_line delimiter line with
  | Some cells => clean_cells cells
  | None => []
  end.

(** Line 531 over all rows: the width the loop has tracked at its end,
    starting from [max_cols]. *)
Definition track_width (max_cols : nat) (table_data : list (list str)) : nat :=
  fold_left (λ m cells, max m (length cells)) table_data max_cols.

(** ** The handler monad

    A handler runs against the upload directory, the id generator, the clock
    and the engines; it returns a value or raises. *)

Record World := mkWorld {
  (** the files of [UPLOAD_DIR], by name *)
  uploads : gmap str (list Byte.byte);
  (** how many ids were generated *)
  ids_drawn : nat;
  (** how many times the clock was read *)
  clock : nat;
  (** the engine slots and the temporary directory *)
  runtime : PdfWorld
}.

(** How many times the OCR engine was run. *)
Definition engine_calls (w : World) : nat := page_runs (runtime w).

Definition M (A : Type) : Type := World -> outcome A * World.

#[global] Instance M_ret : MRet M := λ A a w, (Returned a, w).
#[global] Instance M_bind : MBind M := λ A B k m w,
  match m w with
  | (Returned a, w') => k a w'
  | (Raised e, w') => (Raised e, w')
  end.

Definition raise {A} (e : Exn) : M A := λ w, (Raised e, w).

(** [try: m  except Exception as e: h e] *)
Definition try_except {A} (m : M A) (h : Exn -> M A) : M A := λ w,
  match m w with
  | (Returned a, w') => (Returned a, w')
  | (Raised e, w') => h e w'
  end.

(** [try: m  finally: c] *)
Definition try_finally {A} (m : M A) (c : M unit) : M A := λ w,
  match m w with
  | (r, w') =>
      match c w' with
      | (Returned _, w'') => (r, w'')
      | (Raised e, w'') => (Raised e, w'')
      end
  end.

Definition with_uploads (f : gmap str (list Byte.byte) -> gmap str (list Byte.byte))
    (w : World) : World :=
  mkWorld (f (uploads w)) (ids_drawn w) (clock w) (runtime w).

Definition with_runtime (pw : PdfWorld) (w : World) : World :=
  mkWorld (uploads w) (ids_drawn w) (clock w) pw.

(** [datetime.now()] *)
Definition now : M nat := λ w,
  (Returned (clock w),
   mkWorld (uploads w) (ids_drawn w) (S (clock w)) (runtime w)).

(** [str(uuid.uuid4())] *)
Definition new_uuid (env : Env) : M str := λ w,
  (Returned (uuid4 env (ids_drawn w)),
   mkWorld (uploads w) (S (ids_drawn w)) (clock w) (runtime w)).

(** [with open(path, 'wb') as f: f.write(content)] *)
Definition write_file (env : Env) (path : str) (content : list Byte.byte)
    : M unit := λ w,
  match disk_write env path content with
  | Written => (Returned tt, with_uploads (insert path content) w)
  | NotCreated e => (Raised (PyError e), w)
  | Partial kept e => (Raised (PyError e), with_uploads (insert path kept) w)
  end.

(** [path.exists()] *)
Definition path_exists (path : str) : M bool := λ w,
  (Returned (bool_decide (is_Some (uploads w !! path))), w).

(** [path.unlink()] *)
Definition unlink (path : str) : M unit := λ w,
  (Returned tt, with_uploads (delete path) w).

(** [process_image_ocr(path)]: the engine reads the file at [path]. *)
Definition process_image_ocr (env : Env) (path : str) : M (list Item) := λ w,
  match process_image_ocr_full env (load_env env) (default [] (uploads w !! path))
          (runtime w) with
  | (r, pw') => (r, with_runtime pw' w)
  end.

(** [process_pdf_ocr(path)]; the handlers read [text], [confidence] and
    [bbox] of its items only. *)
Definition process_pdf_ocr (env : Env) (path : str) : M (list Item) := λ w,
  match process_pdf_ocr_full env (load_env env) (pdf_env env)
          (default [] (uploads w !! path)) (runtime w) with
  | (Returned items, pw') => (Returned (map pdf_item items), with_runtime pw' w)
  | (Raised e, pw') => (Raised e, with_runtime pw' w)
  end.

(** Decimal numerals, for [str(e)] of an [HTTPException]. *)
Definition str_of_Z (z : Z) : str := py (NilZero.string_of_int (Z.to_int z)).

(** [str(e)] *)
Definition str_exn (e : Exn) : str :=
  match e with
  | HTTPException status_code detail => str_of_Z status_code ++ py ": " ++ detail
  | PyError message => message
  end.

Record UploadFile := mkUpload {
  filename : str;
  content : list Byte.byte
}.

Record OCRResponse := mkOCRResponse {
  ocr_success : bool;
  ocr_filename : str;
  ocr_file_type : str;
  ocr_results : list Item;
  ocr_full_text : str;
  ocr_processing_time : float;
  ocr_timestamp : str
}.

Record TableResponse := mkTableResponse {
  tbl_success : bool;
  csv_content : str;
  markdown_table : str;
  row_count : nat;
  col_count : nat
}.

Definition json_of_bbox (bbox : list (list float)) : json :=
  JArr (map (λ point, JArr (map JFloat point)) bbox).

Definition json_of_item (r : Item) : json :=
  JObj [ (py "text", JStr (item_text r));
         (py "confidence", JFloat (item_confidence r));
         (py "bbox", json_of_bbox (item_bbox r)) ].

(** [result.dict()] *)
Definition json_of_ocr (r : OCRResponse) : json :=
  JObj [ (py "success", JBool (ocr_success r));
         (py "filename", JStr (ocr_filename r));
         (py "file_type", JStr (ocr_file_type r));
         (py "results", JArr (map json_of_item (ocr_results r)));
         (py "full_text", JStr (ocr_full_text r));
         (py "processing_time", JFloat (ocr_processing_time r));
         (py "timestamp", JStr (ocr_timestamp r)) ].

Definition json_of_table (r : TableResponse) : json :=
  JObj [ (py "success", JBool (tbl_success r));
         (py "csv_content", JStr (csv_content r));
         (py "markdown_table", JStr (markdown_table r));
         (py "row_count", JInt (Z.of_nat (row_count r)));
         (py "col_count", JInt (Z.of_nat (col_count r))) ].

(** ** API routes *)

(** "OCR 處理失敗: " *)
Definition MSG_OCR_FAILED : str :=
  [79; 67; 82; 32; 34389; 29702; 22833; 25943; 58; 32].
(** "表格轉換失敗: " *)
Definition MSG_TABLE_FAILED : str :=
  [34920; 26684; 36681; 25563; 22833; 25943; 58; 32].
(** "轉換失敗: " *)
Definition MSG_CONVERT_FAILED : str := [36681; 25563; 22833; 25943; 58; 32].
(** "內部伺服器錯誤" *)
Definition MSG_INTERNAL : str :=
  [20839; 37096; 20282; 26381; 22120; 37679; 35492].

(** The cleanup of the [finally] blocks. *)
Definition cleanup (temp_path : str) : M unit :=
  present ← path_exists temp_path;
  if present : bool then unlink temp_path else mret tt.

(** The name of the scratch file of a request that starts in [w]. *)
Definition scratch_path (env : Env) (w : World) (file_ext : str) : str :=
  uuid4 env (ids_drawn w) ++ file_ext.

Definition run_ocr (env : Env) (file_ext temp_path : str) : M (list Item * str) :=
  if decide (file_ext ∈ ALLOWED_PDF_EXTENSIONS) then
    ocr_results ← process_pdf_ocr env temp_path;
    mret (ocr_results, py "pdf")
  else
    ocr_results ← process_image_ocr env temp_path;
    mret (ocr_results, py "image").

(** The [try] block of [ocr_recognize]. *)
Definition recognize_try (env : Env) (file : UploadFile) (start_time : nat)
    (file_ext temp_path : str) : M OCRResponse :=
  write_file env temp_path (content file);;
  '(ocr_results, file_type) ← run_ocr env file_ext temp_path;
  let full_text := join [LF] (map item_text ocr_results) in
  end_time ← now;
  stamp ← now;
  mret (mkOCRResponse true (filename file) file_type ocr_results
          full_text (total_seconds env start_time end_time)
          (isoformat env stamp)).

(** [POST /api/ocr] *)
Definition ocr_recognize (env : Env) (file : UploadFile) : M OCRResponse :=
  start_time ← now;
  match validate_file env (filename file) with
  | (false, result) => raise (HTTPException 400 result)
  | (true, file_ext) =>
      file_id ← new_uuid env;
      let temp_path := file_id ++ file_ext in
      try_finally
        (try_except
           (recognize_try env file start_time file_ext temp_path)
           (λ e, raise (HTTPException 500 (MSG_OCR_FAILED ++ str_exn e))))
        (cleanup temp_path)
  end.

Definition batch_entry (file : UploadFile) (r : outcome OCRResponse) : json :=
  match r with
  | Returned result =>
      JObj [ (py "filename", JStr (filename file));
             (py "success", JBool true);
             (py "data", json_of_ocr result) ]
  | Raised (HTTPException _ detail) =>
      JObj [ (py "filename", JStr (filename file));
             (py "success", JBool false);
             (py "error", JStr detail) ]
  | Raised e =>
      JObj [ (py "filename", JStr (filename file));
             (py "success", JBool false);
             (py "error", JStr (str_exn e)) ]
  end.

(** The loop of [ocr_batch], with the list it appends to. *)
Fixpoint batch_loop (env : Env) (files : list UploadFile) (results : list json)
    : M (list json) :=
  match files with
  | [] => mret results
  | file :: rest => λ w,
      match ocr_recognize env file w with
      | (r, w') => batch_loop env rest (results ++ [batch_entry file r]) w'
      end
  end.

(** [r["success"]] *)
Definition entry_success (r : json) : bool :=
  match get (py "success") r with
  | Some (JBool true) => true
  | _ => false
  end.

(** [POST /api/ocr/batch] *)
Definition ocr_batch (env : Env) (files : list UploadFile) : M json :=
  results ← batch_loop env files [];
  stamp ← now;
  mret (JObj [ (py "success", JBool true);
               (py "total", JInt (Z.of_nat (length files)));
               (py "processed",
                JInt (Z.of_nat (length (filter (λ r, entry_success r = true) results))));
               (py "results", JArr results);
               (py "timestamp", JStr (isoformat env stamp)) ]).

(** The [try] block of [ocr_to_table]. *)
Definition table_try (env : Env) (file : UploadFile) (file_ext temp_path : str)
    : M TableResponse :=
  write_file env temp_path (content file);;
  '(ocr_results, _) ← run_ocr env file_ext temp_path;
  match convert_to_table ocr_results AUTO with
  | Returned (csv, md, rows, cols) => mret (mkTableResponse true csv md rows cols)
  | Raised e => raise e
  end.

(** [POST /api/ocr/table] *)
Definition ocr_to_table (env : Env) (file : UploadFile) : M TableResponse :=
  start_time ← now;
  match validate_file env (filename file) with
  | (false, result) => raise (HTTPException 400 result)
  | (true, file_ext) =>
      file_id ← new_uuid env;
      let temp_path := file_id ++ file_ext in
      try_finally
        (try_except
           (table_try env file file_ext temp_path)
           (λ e, raise (HTTPException 500 (MSG_TABLE_FAILED ++ str_exn e))))
        (cleanup temp_path)
  end.

(** [POST /api/convert/table] *)
Definition convert_text_to_table (text delimiter : str) : M TableResponse :=
  try_except
    (let lines := split_scan [LF] 0 [] (strip text) in
     let ocr_results :=
       map (λ line, mkItem line 1%float [])
           (filter (λ line, strip line ≠ []) lines) in
     match convert_to_table ocr_results delimiter with
     | Returned (csv, md, rows, cols) =>
         mret (mkTableResponse true csv md rows cols)
     | Raised e => raise e
     end)
    (λ e, raise (HTTPException 500 (MSG_CONVERT_FAILED ++ str_exn e))).

(** ** Error handlers and responses *)

Record Response := mkResponse {
  status : Z;
  body : json
}.

Definition http_exception_handler (status_code : Z) (detail : str) : Response :=
  mkResponse status_code
    (JObj [ (py "success", JBool false);
            (py "error", JStr detail);
            (py "status_code", JInt status_code) ]).

Definition general_exception_handler (e : Exn) : Response :=
  mkResponse 500
    (JObj [ (py "success", JBool false);
            (py "error", JStr MSG_INTERNAL);
            (py "detail", JStr (str_exn e)) ]).

(** *** What the framework does around a handler *)

(** What the framework sends for the value a handler returned.  The value
    is serialised after the handler is left, outside its [try]: an
    exception raised there reaches the catch-all handler. *)
Definition send (env : Env) (how : Serializer) (value : json) : Response :=
  match render env how value with
  | Sent body => mkResponse 200 body
  | Unsendable reason => general_exception_handler (PyError reason)
  end.

(** What the framework sends for a handler that was run: its value, or the
    response of the matching exception handler. *)
Definition respond {A} (env : Env) (how : Serializer) (encode : A -> json)
    (m : M A) (w : World) : Response * World :=
  match m w with
  | (Returned a, w') => (send env how (encode a), w')
  | (Raised (HTTPException status_code detail), w') =>
      (http_exception_handler status_code detail, w')
  | (Raised e, w') => (general_exception_handler e, w')
  end.

(** The answer to a request in which the required field [field] is
    missing: the handler is not run. *)
Definition unprocessable (env : Env) (field : str) : Response :=
  mkResponse 422 (missing_field env field).

(** [POST /api/ocr]; [file] is the [file] part of the request, if it has
    one.  The route declares [response_model=OCRResponse]. *)
Definition post_api_ocr (env : Env) (file : option UploadFile) (w : World)
    : Response * World :=
  match file with
  | None => (unprocessable env (py "file"), w)
  | Some file => respond env ByModel json_of_ocr (ocr_recognize env file) w
  end.

(** [POST /api/ocr/table]; the route declares no response model. *)
Definition post_api_ocr_table (env : Env) (file : option UploadFile) (w : World)
    : Response * World :=
  match file with
  | None => (unprocessable env (py "file"), w)
  | Some file => respond env Plain json_of_table (ocr_to_table env file) w
  end.

(** [POST /api/ocr/batch] with the [files] parts of the request: the field
    is required, and a request without such a part lacks it. *)
Definition post_api_ocr_batch (env : Env) (files : list UploadFile) (w : World)
    : Response * World :=
  match files with
  | [] => (unprocessable env (py "files"), w)
  | _ => respond env Plain id (ocr_batch env files) w
  end.

(** [POST /api/convert/table] with the form values [text] and [delimiter],
    an absent field being the empty string.  Both are declared with
    [Form]: an empty value counts as missing, so that [text], which is
    required, is then rejected, and [delimiter] takes its default. *)
Definition post_api_convert_table (env : Env) (text delimiter : str) (w : World)
    : Response * World :=
  match text with
  | [] => (unprocessable env (py "text"), w)
  | _ =>
      let delimiter := match delimiter with [] => AUTO | _ => delimiter end in
      respond env Plain json_of_table (convert_text_to_table text delimiter) w
  end.

(** ** Health check *)

Record HealthResponse := mkHealth {
  health_status : str;
  health_version : str;
  ocr_ready : bool;
  health_timestamp : str
}.

(** [GET /api/health], the clock being read for the [n]-th time. *)
Definition health_check (env : Env) (lenv : LoadEnv) (n : nat) (l : Loader)
    : HealthResponse * Loader :=
  match get_ocr_engine lenv l with
  | (Returned _, l') =>
      (mkHealth (py "healthy") (py "1.0.0") true (isoformat env n), l')
  | (Raised _, l') =>
      (mkHealth (py "healthy") (py "1.0.0") false (isoformat env n), l')
  end.

(** ** Notions used to state the properties of the handlers *)

(** [m] leaves every file of the upload directory other than [path] as it
    was. *)
Definition keeps_but (path : str) {A} (m : M A) : Prop :=
  ∀ w, delete path (uploads (m w).2) = delete path (uploads w).

(** [m] never raises anything but an [HTTPException] with status 500. *)
Definition fails_with_500 {A} (m : M A) : Prop :=
  ∀ w, match (m w).1 with
       | Returned _ => True
       | Raised (HTTPException 500 _) => True
       | Raised _ => False
       end.

(** The world after the single-file handler has run on each of [files]. *)
Fixpoint world_after (env : Env) (files : list UploadFile) (w : World) : World :=
  match files with
  | [] => w
  | file :: rest => world_after env rest (ocr_recognize env file w).2
  end.

(** The entries of the batch for [files], from the world [w] on. *)
Fixpoint batch_entries (env : Env) (files : list UploadFile) (w : World)
    : list json :=
  match files with
  | [] => []
  | file :: rest =>
      batch_entry file (ocr_recognize env file w).1
        :: batch_entries env rest (ocr_recognize env file w).2
  end.

(** The world after one reading of the clock. *)
Definition tick (w : World) : World :=
  mkWorld (uploads w) (ids_drawn w) (S (clock w)) (runtime w).

(** The world in which the [try] block of a request that started in [w]
    begins: the clock was read and an id was drawn. *)
Definition admitted (w : World) : World :=
  mkWorld (uploads w) (S (ids_drawn w)) (S (clock w)) (runtime w).

(** What the adapters give for the bytes of an upload whose extension is
    [file_ext], with the file type the handler reports. *)
Definition adapter_outcome (env : Env) (file_ext : str)
    (content : list Byte.byte) (pw : PdfWorld)
    : outcome (list Item * str) * PdfWorld :=
  if decide (file_ext ∈ ALLOWED_PDF_EXTENSIONS) then
    match process_pdf_ocr_full env (load_env env) (pdf_env env) content pw with
    | (Returned items, pw') => (Returned (map pdf_item items, py "pdf"), pw')
    | (Raised e, pw') => (Raised e, pw')
    end
  else
    match process_image_ocr_full env (load_env env) content pw with
    | (Returned items, pw') => (Returned (items, py "image"), pw')
    | (Raised e, pw') => (Raised e, pw')
    end.

(** The world a request that started in [w] leaves when its [try] block
    read the clock [reads] times and left the adapters' state [pw]. *)
Definition settled (env : Env) (w : World) (file_ext : str) (reads : nat)
    (pw : PdfWorld) : World :=
  mkWorld (delete (scratch_path env w file_ext) (uploads w))
          (S (ids_drawn w)) (S (clock w) + reads) pw.

(** ** A concrete environment

    An ASCII-only [lower]; an engine that reads the bytes of its input as
    text, one recognised line per LF, and rejects an empty file; a disk that
    refuses files of more than 64 bytes after creating them. *)

Definition ascii_lower (s : str) : str :=
  map (λ c, if (65 <=? c) && (c <=? 90) then c + 32 else c) s.

Definition bytes_text (b : list Byte.byte) : str := map Byte.to_N b.
Definition text_bytes (s : str) : list Byte.byte :=
  omap Byte.of_N s.

Definition demo_predict (b : list Byte.byte) : outcome (list EngineResult) :=
  match b with
  | [] => Raised (PyError (py "cannot identify image file"))
  | _ => Returned [RecAttrs (split_scan [LF] 0 [] (bytes_text b)) None None]
  end.

Definition demo_disk (path : str) (b : list Byte.byte) : WriteOutcome :=
  if (64 <? length b)%nat then Partial (take 64 b) (py "No space left on device")
  else Written.

(** The structure module is missing; the OCR engine loads. *)
Definition demo_engines : LoadEnv :=
  mkLoadEnv (λ n, None) (λ n, NoModule).

(** A rasteriser that is missing for a file without bytes, and that gives
    one page per line otherwise. *)
Definition demo_rasterize (b : list Byte.byte) : outcome (list (list Byte.byte)) :=
  match b with
  | [] => Raised (PyError (py "No module named 'pdf2image'"))
  | _ => Returned (map text_bytes (split_scan [LF] 0 [] (bytes_text b)))
  end.

Definition demo_import_error (e : Exn) : bool :=
  match e with
  | PyError m => startswith (py "No module") m
  | _ => false
  end.

Definition demo_tmp_name (n : nat) : str :=
  py "tmp" ++ str_of_Z (Z.of_nat n) ++ py ".png".

(** A code point that UTF-8 cannot encode. *)
Definition is_surrogate (c : char) : bool := (55296 <=? c) && (c <=? 57343).

Definition nonfinite (f : float) : bool :=
  PrimFloat.is_nan f || PrimFloat.is_infinity f.

(** Whether some string of a body holds a surrogate. *)
Fixpoint has_surrogate (j : json) : bool :=
  match j with
  | JStr s => existsb is_surrogate s
  | JArr l => existsb has_surrogate l
  | JObj fields =>
      existsb (λ kv, existsb is_surrogate kv.1 || has_surrogate kv.2) fields
  | _ => false
  end.

(** Whether some number of a body is NaN or infinite. *)
Fixpoint has_nonfinite (j : json) : bool :=
  match j with
  | JFloat f => nonfinite f
  | JArr l => existsb has_nonfinite l
  | JObj fields => existsb (λ kv, has_nonfinite kv.2) fields
  | _ => false
  end.

Fixpoint null_nonfinite (j : json) : json :=
  match j with
  | JFloat f => if nonfinite f then JNull else JFloat f
  | JArr l => JArr (map null_nonfinite l)
  | JObj fields => JObj (map (λ kv, (kv.1, null_nonfinite kv.2)) fields)
  | _ => j
  end.

(** A serialiser for the examples: a response model turns NaN and the
    infinities into [null]; a body with a surrogate in a string, or with a
    number that is still not finite, cannot be sent. *)
Definition demo_render (how : Serializer) (value : json) : Rendered :=
  let body :=
    match how with
    | ByModel => null_nonfinite value
    | Plain => value
    end in
  if has_surrogate body then Unsendable (py "surrogates not allowed")
  else if has_nonfinite body
       then Unsendable (py "Out of range float values are not JSON compliant")
       else Sent body.

Definition demo_missing (field : str) : json :=
  JObj [ (py "detail",
          JArr [ JObj [ (py "type", JStr (py "missing"));
                        (py "loc", JArr [JStr (py "body"); JStr field]);
                        (py "msg", JStr (py "Field required")) ] ]) ].

Definition demo_env : Env :=
  mkEnv ascii_lower
        [py ".png"; py ".jpg"; py ".jpeg"; py ".bmp"; py ".gif"; py ".webp";
         py ".tiff"; py ".tif"; py ".pdf"]
        demo_predict demo_disk
        (λ n, py "upload-" ++ str_of_Z (Z.of_nat n))
        (λ n, py "t" ++ str_of_Z (Z.of_nat n))
        (λ a b, 0%float)
        demo_engines
        (mkPdfEnv (λ b, Returned []) demo_rasterize demo_import_error
                  demo_tmp_name)
        demo_missing demo_render.

(** The same environment with an engine that reads one text, a lone
    surrogate, with a score that is not a number. *)
Definition demo_odd_env : Env :=
  mkEnv (py_lower demo_env) (set_order demo_env)
        (λ b, Returned [RecAttrs [[55296]] (Some [PrimFloat.nan]) None])
        (disk_write demo_env) (uuid4 demo_env) (isoformat demo_env)
        (total_seconds demo_env) (load_env demo_env) (pdf_env demo_env)
        (missing_field demo_env) (render demo_env).

(** Three recognised lines, the second of which holds only blank cells. *)
Definition demo_items : list Item :=
  map (λ t, mkItem t 1%float []) [[97; 9; 98]; [32; 9; 32]; [99]].

(** Two recognised lines of tab-separated cells, one cell to be quoted. *)
Definition demo_tab_items : list Item :=
  map (λ t, mkItem t 1%float []) [[97; 44; 98; 9; 32; 99]; [100]].

(** Three uploads, the second of which the engine cannot read. *)
Definition demo_batch : list UploadFile :=
  [ mkUpload (py "one.png") (text_bytes (py "first"));
    mkUpload (py "two.png") [];
    mkUpload (py "three.JPG") (text_bytes (py "third")) ].

(** An upload the disk takes and one it cannot hold. *)
Definition demo_scan : UploadFile :=
  mkUpload (py "scan.png") (text_bytes (py "hi")).
Definition demo_large : UploadFile :=
  mkUpload (py "large.pdf") (replicate 70 Byte.x41).
Definition demo_exe : UploadFile := mkUpload (py "photo.exe") (text_bytes (py "MZ")).
Definition demo_nameless : UploadFile := mkUpload [] (text_bytes (py "hi")).

(** A concrete loader environment: the OCR engine fails to load once and
    then loads; the structure module is missing at first and would be
    there later. *)
Definition demo_load_env : LoadEnv :=
  mkLoadEnv (λ n, match n with
                  | O => Some (PyError (py "out of memory"))
                  | _ => None
                  end)
            (λ n, match n with O => NoModule | _ => Constructed end).

Definition demo_pdf_env : PdfEnv :=
  mkPdfEnv (λ b, Returned [Some [py "Title"; []]; None; Some [py "Body"]])
           (λ b, Returned [text_bytes (py "p1"); []; text_bytes (py "p3")])
           demo_import_error demo_tmp_name.

Definition fresh_pdf_world : PdfWorld := mkPdfWorld fresh_loader ∅ 0 0.

Definition empty_world : World := mkWorld ∅ 0 0 fresh_pdf_world.

(** * Properties *)

(** ** File validator *)

Lemma startswith_app (p s : str) : startswith p (p ++ s) = true.
Proof.
  induction p as [|a p IH]; simpl; [done|].
  by rewrite N.eqb_refl, IH.
Qed.

Lemma contains_startswith (p s : str) :
  startswith p s = true → contains p s = true.
Proof. intros H. destruct s; simpl; by rewrite H. Qed.

Lemma contains_app (p a b : str) : contains p (a ++ p ++ b) = true.
Proof.
  induction a as [|x a IH]; simpl.
  - apply contains_startswith, startswith_app.
  - rewrite IH. apply orb_true_r.
Qed.

Lemma allowed_extensions_list (e : str) :
  e ∈ ALLOWED_EXTENSIONS ↔
  e ∈ [py ".png"; py ".jpg"; py ".jpeg"; py ".bmp"; py ".gif"; py ".webp";
       py ".tiff"; py ".tif"; py ".pdf"].
Proof.
  unfold ALLOWED_EXTENSIONS, ALLOWED_IMAGE_EXTENSIONS, ALLOWED_PDF_EXTENSIONS.
  rewrite !elem_of_union, !elem_of_singleton, !elem_of_cons, elem_of_nil.
  tauto.
Qed.

(** C2. An empty name is rejected; a name whose lower-cased suffix is one of
    the nine allowed extensions is accepted and that suffix is returned; any
    other name is rejected, and the reason, returned as a value, contains
    the rejected suffix. *)
Theorem validate_file_spec (env : Env) :
  validate_file env [] = (false, MSG_NO_FILENAME) ∧
  (∀ e, e ∈ ALLOWED_EXTENSIONS ↔
        e ∈ [py ".png"; py ".jpg"; py ".jpeg"; py ".bmp"; py ".gif";
             py ".webp"; py ".tiff"; py ".tif"; py ".pdf"]) ∧
  ∀ filename, filename ≠ [] →
    let ext := py_lower env (suffix filename) in
    (ext ∈ ALLOWED_EXTENSIONS → validate_file env filename = (true, ext)) ∧
    (ext ∉ ALLOWED_EXTENSIONS →
       ∃ reason, validate_file env filename = (false, reason) ∧
                 startswith MSG_UNSUPPORTED reason = true ∧
                 contains ext reason = true).
Proof.
  split; [done|]. split; [apply allowed_extensions_list|].
  intros filename Hne ext. unfold validate_file.
  destruct filename as [|c rest]; [done|]. fold ext.
  split; intros Hext.
  - by rewrite decide_True.
  - rewrite decide_False by done. eexists. split; [done|]. split.
    + apply startswith_app.
    + apply contains_app.
Qed.

Lemma validate_file_spec_witness :
  validate_file demo_env (py "scans/page.PNG") = (true, py ".png") ∧
  ∃ reason, validate_file demo_env (py "photo.exe") = (false, reason) ∧
            startswith MSG_UNSUPPORTED reason = true ∧
            contains (py ".exe") reason = true.
Proof.
  destruct (validate_file_spec demo_env) as (_ & _ & H). split.
  - destruct (H (py "scans/page.PNG")) as [Hok _]; [discriminate|].
    apply Hok. apply (bool_decide_unpack _). vm_compute. exact I.
  - destruct (H (py "photo.exe")) as [_ Hbad]; [discriminate|].
    apply Hbad. apply (bool_decide_unpack _). vm_compute. exact I.
Defined.

(** ** Image OCR adapter *)

Section Adapter.
Variables (scores : list float) (boxes : list Geometry).

Lemma collect_from_cons k t texts :
  collect_from k (t :: texts) scores boxes =
  (if decide (t = []) then [] else [item_at scores boxes k t])
    ++ collect_from (S k) texts scores boxes.
Proof. destruct t; reflexivity. Qed.

Lemma collect_from_texts k texts :
  map item_text (collect_from k texts scores boxes)
  = filter (λ t, t ≠ []) texts.
Proof.
  revert k. induction texts as [|t texts IH]; intros k; [done|].
  rewrite collect_from_cons, map_app, IH.
  destruct (decide (t = [])) as [->|Hne].
  - done.
  - by rewrite filter_cons_True.
Qed.

Lemma collect_from_lookup k texts i t :
  texts !! i = Some t → t ≠ [] →
  collect_from k texts scores boxes
    !! length (filter (λ t, t ≠ []) (take i texts))
  = Some (item_at scores boxes (k + i) t).
Proof.
  revert k i. induction texts as [|t0 texts IH]; intros k i Hi Hne; [done|].
  rewrite collect_from_cons. destruct i as [|i]; simpl in Hi.
  - injection Hi as ->. rewrite decide_False by done.
    by rewrite Nat.add_0_r.
  - rewrite firstn_cons. specialize (IH (S k) i Hi Hne).
    replace (k + S i)%nat with (S k + i)%nat by lia.
    destruct (decide (t0 = [])) as [->|H0].
    + by rewrite filter_cons_False by (intros ?; done).
    + rewrite filter_cons_True by done. exact IH.
Qed.
End Adapter.

(** The loop of lines 210-219 as it is written.  Empty texts give no item
    and the others keep their order.  The item for a non-empty text at
    index [i] has confidence 1.0 when the score array stops before [i];
    when there is a score at [i], the guard of line 217 keeps it only if it
    is not zero.  Its bbox is empty when the geometry array stops before
    [i], and the geometry at [i] otherwise. *)
Lemma collect_items_spec (texts : list str) (scores : list float)
    (boxes : list Geometry) :
  map item_text (collect_items texts scores boxes) = filter (λ t, t ≠ []) texts ∧
  ∀ i t, texts !! i = Some t → t ≠ [] →
    ∃ item,
      collect_items texts scores boxes
        !! length (filter (λ t, t ≠ []) (take i texts)) = Some item ∧
      item_text item = t ∧
      ((length scores ≤ i)%nat → item_confidence item = 1%float) ∧
      (∀ s, scores !! i = Some s →
            item_confidence item = if float_truthy s then s else 1%float) ∧
      ((length boxes ≤ i)%nat → item_bbox item = []) ∧
      (∀ g, boxes !! i = Some g → item_bbox item = bbox_of g).
Proof.
  split; [apply collect_from_texts|].
  intros i t Hi Hne. exists (item_at scores boxes i t).
  split; [exact (collect_from_lookup scores boxes 0 texts i t Hi Hne)|].
  unfold item_at; simpl. repeat split.
  - intros Hlen. by rewrite (lookup_ge_None_2 scores i Hlen).
  - intros s Hs. by rewrite Hs.
  - intros Hlen. by rewrite (lookup_ge_None_2 boxes i Hlen).
  - intros g Hg. by rewrite Hg.
Qed.

(** C4.  The adapter on an engine result with the one text [a] and the
    score 0.0 for it.  The score array is as long as the text array, so
    that no score is missing and the confidence of the item should be the
    score; the item has confidence 1.0.  Line 213 has already supplied the
    default for a missing score; line 217 then tests the truth value of the
    score, and a score of zero is taken for a missing one. *)
Theorem zero_score_is_replaced :
  let items := normalize [RecAttrs [py "a"] (Some [0%float]) None] in
  items = [mkItem (py "a") 1%float []] ∧
  collect_items [py "a"] [0%float] [] = items ∧
  Forall (λ item, PrimFloat.eqb (item_confidence item) 0 = false) items.
Proof.
  cbn zeta. split; [reflexivity|]. split; [reflexivity|].
  repeat constructor.
Qed.

(** ** csv: reading back what the writer wrote *)

Lemma rd_run_cons r c s : rd_run r (c :: s) = rd_run (rd_step r c) s.
Proof. reflexivity. Qed.

Lemma rd_run_app r s1 s2 : rd_run r (s1 ++ s2) = rd_run (rd_run r s1) s2.
Proof. apply fold_left_app. Qed.

Lemma csv_special_false c :
  csv_special c = false →
  (c =? COMMA) = false ∧ (c =? DQUOTE) = false ∧ (c =? CR) = false
  ∧ (c =? LF) = false.
Proof.
  unfold csv_special. intros H.
  repeat (apply orb_false_elim in H; destruct H as [H ?]). done.
Qed.

(** An unquoted field is read character by character. *)
Lemma rd_run_plain f fld row out :
  existsb csv_special f = false →
  rd_run (mkReader InField fld row out) f = mkReader InField (fld ++ f) row out.
Proof.
  revert fld. induction f as [|c f IH]; intros fld H; simpl in H.
  - by rewrite app_nil_r.
  - apply orb_false_elim in H as [Hc Hf].
    apply csv_special_false in Hc as (Hcomma & Hquote & Hcr & Hlf).
    rewrite rd_run_cons. unfold rd_step; simpl.
    rewrite Hlf, Hcr, Hcomma. unfold rd_add; simpl.
    rewrite IH by done. by rewrite <- app_assoc.
Qed.

Lemma csv_escape_cons c f :
  csv_escape (c :: f)
  = (if c =? DQUOTE then [DQUOTE; DQUOTE] else [c]) ++ csv_escape f.
Proof. reflexivity. Qed.

(** Inside quotes every character is kept and a doubled quote is one quote. *)
Lemma rd_run_escaped f fld row out :
  rd_run (mkReader InQuoted fld row out) (csv_escape f)
  = mkReader InQuoted (fld ++ f) row out.
Proof.
  revert fld. induction f as [|c f IH]; intros fld.
  - by rewrite app_nil_r.
  - rewrite csv_escape_cons, rd_run_app.
    assert (rd_run (mkReader InQuoted fld row out)
                   (if c =? DQUOTE then [DQUOTE; DQUOTE] else [c])
            = mkReader InQuoted (fld ++ [c]) row out) as ->.
    { destruct (c =? DQUOTE) eqn:Hq.
      - apply N.eqb_eq in Hq as ->. reflexivity.
      - unfold rd_run, rd_step; simpl. by rewrite Hq. }
    rewrite IH. by rewrite <- app_assoc.
Qed.

Lemma rd_step_first st c row out :
  field_start st → csv_special c = false →
  rd_step (mkReader st [] row out) c = mkReader InField [c] row out.
Proof.
  intros Hst Hc. apply csv_special_false in Hc as (Hcomma & Hquote & Hcr & Hlf).
  destruct Hst as [-> | ->]; unfold rd_step, rd_start_record, rd_start_field;
    simpl; by rewrite Hlf, Hcr, Hquote, Hcomma.
Qed.

Lemma rd_run_quoted st f row out :
  field_start st →
  rd_run (mkReader st [] row out) (csv_quoted f)
  = mkReader QuoteInQuoted f row out.
Proof.
  intros Hst. unfold csv_quoted. rewrite rd_run_app.
  assert (rd_run (mkReader st [] row out) [DQUOTE] = mkReader InQuoted [] row out)
    as -> by (by destruct Hst as [-> | ->]).
  rewrite rd_run_app, rd_run_escaped. reflexivity.
Qed.

(** A field followed by a comma. *)
Lemma rd_run_field_comma st f row out :
  field_start st →
  rd_run (mkReader st [] row out) (csv_field f ++ [COMMA])
  = mkReader StartField [] (row ++ [f]) out.
Proof.
  intros Hst. rewrite rd_run_app. unfold csv_field.
  destruct (existsb csv_special f) eqn:Hsp.
  - by rewrite rd_run_quoted.
  - destruct f as [|c f].
    + by destruct Hst as [-> | ->].
    + simpl in Hsp. apply orb_false_elim in Hsp as [Hc Hf].
      rewrite (rd_run_cons _ c f), rd_step_first, rd_run_plain by done.
      reflexivity.
Qed.

(** A field followed by the line terminator. *)
Lemma rd_run_field_end st f row out :
  field_start st → (st = StartRecord → csv_field f ≠ []) →
  rd_run (mkReader st [] row out) (csv_field f ++ [CR; LF])
  = mkReader StartRecord [] [] (out ++ [row ++ [f]]).
Proof.
  intros Hst Hne. rewrite rd_run_app. revert Hne. unfold csv_field.
  destruct (existsb csv_special f) eqn:Hsp; intros Hne.
  - by rewrite rd_run_quoted.
  - destruct f as [|c f].
    + destruct Hst as [-> | ->]; [by destruct Hne | done].
    + simpl in Hsp. apply orb_false_elim in Hsp as [Hc Hf].
      rewrite (rd_run_cons _ c f), rd_step_first, rd_run_plain by done.
      reflexivity.
Qed.

Lemma join_cons2 (sep p q : str) rest :
  join sep (p :: q :: rest) = p ++ sep ++ join sep (q :: rest).
Proof. reflexivity. Qed.

Lemma rd_run_fields fs : ∀ f st row out,
  field_start st →
  (st = StartRecord → join [COMMA] (map csv_field (f :: fs)) ≠ []) →
  rd_run (mkReader st [] row out)
         (join [COMMA] (map csv_field (f :: fs)) ++ [CR; LF])
  = mkReader StartRecord [] [] (out ++ [row ++ f :: fs]).
Proof.
  induction fs as [|g fs IH]; intros f st row out Hst Hne.
  - simpl. by apply rd_run_field_end.
  - rewrite map_cons, map_cons, join_cons2, <- map_cons.
    rewrite <- !app_assoc, (app_assoc (csv_field f)), rd_run_app.
    rewrite rd_run_field_comma by done.
    rewrite IH; [| by right | done].
    by rewrite <- app_assoc.
Qed.

Lemma rd_run_writerow row out :
  rd_run (mkReader StartRecord [] [] out) (writerow row)
  = mkReader StartRecord [] [] (out ++ [row]).
Proof.
  unfold writerow. destruct row as [|f fs]; [reflexivity|].
  destruct (join [COMMA] (map csv_field (f :: fs))) eqn:E.
  - destruct fs as [|g fs].
    + simpl in E. unfold csv_field in E.
      destruct (existsb csv_special f); [done|]. subst f.
      rewrite rd_run_app, rd_run_quoted by (by left). reflexivity.
    + rewrite map_cons, map_cons, join_cons2 in E.
      by destruct (csv_field f).
  - rewrite <- E. rewrite rd_run_fields; [done | by left |].
    intros _. by rewrite E.
Qed.

Lemma rd_run_writerows rows out :
  rd_run (mkReader StartRecord [] [] out) (writerows rows)
  = mkReader StartRecord [] [] (out ++ rows).
Proof.
  revert out. induction rows as [|row rows IH]; intros out.
  - by rewrite app_nil_r.
  - unfold writerows; simpl. fold (writerows rows).
    rewrite rd_run_app, rd_run_writerow, IH. by rewrite <- app_assoc.
Qed.

(** Reading what [writerows] wrote gives the rows back. *)
Lemma csv_parse_writerows rows : csv_parse (writerows rows) = rows.
Proof. unfold csv_parse, rd_init. by rewrite rd_run_writerows. Qed.

(** ** Table reconstruction heuristic *)

Lemma split_line_tab line :
  split_line [TAB] line = Some (split_scan [TAB] 0 [] line).
Proof. reflexivity. Qed.

Lemma split_line_comma line :
  split_line [COMMA] line = Some (split_scan [COMMA] 0 [] line).
Proof. reflexivity. Qed.

Lemma split_line_space line :
  split_line SPACE line = Some (re_split_ws2 false [] (strip line)).
Proof. reflexivity. Qed.

Lemma sum_list_ge_length (f : str → nat) lines :
  Forall (λ l, 1 ≤ f l)%nat lines → (length lines ≤ sum_list (map f lines))%nat.
Proof. induction 1; simpl; lia. Qed.

Lemma sum_list_zero (f : str → nat) lines :
  Forall (λ l, f l = 0)%nat lines → sum_list (map f lines) = 0%nat.
Proof. induction 1; simpl; lia. Qed.

(** C1. With the hint [auto] and at least one line: more tabs than half the
    number of lines selects splitting on the tab; otherwise more commas than
    half the number of lines selects splitting on the comma; otherwise lines
    are split on runs of two or more whitespace characters.  Lines that each
    hold a tab are split on tabs, and lines without tabs whose commas exceed
    half their number are split on commas. *)
Theorem auto_detect_spec (lines : list str) :
  lines ≠ [] →
  let n := length lines in
  let tabs := sum_list (map (count_char TAB) lines) in
  let commas := sum_list (map (count_char COMMA) lines) in
  let chosen := detect_delimiter AUTO lines in
  ((n < 2 * tabs)%nat →
     ∀ line, split_line chosen line = Some (split_scan [TAB] 0 [] line)) ∧
  ((2 * tabs ≤ n)%nat → (n < 2 * commas)%nat →
     ∀ line, split_line chosen line = Some (split_scan [COMMA] 0 [] line)) ∧
  ((2 * tabs ≤ n)%nat → (2 * commas ≤ n)%nat →
     ∀ line, split_line chosen line = Some (re_split_ws2 false [] (strip line))) ∧
  (Forall (λ l, (1 ≤ count_char TAB l)%nat ∧ count_char COMMA l = 0%nat) lines →
     ∀ line, split_line chosen line = Some (split_scan [TAB] 0 [] line)) ∧
  (Forall (λ l, count_char TAB l = 0%nat) lines → (n < 2 * commas)%nat →
     ∀ line, split_line chosen line = Some (split_scan [COMMA] 0 [] line)).
Proof.
  intros Hne n tabs commas chosen.
  assert (Htab : (n < 2 * tabs)%nat →
            ∀ line, split_line chosen line = Some (split_scan [TAB] 0 [] line)).
  { intros H line. unfold chosen, detect_delimiter. rewrite decide_True by done.
    fold tabs n. apply Nat.ltb_lt in H. rewrite H. apply split_line_tab. }
  assert (Hcomma : (2 * tabs ≤ n)%nat → (n < 2 * commas)%nat →
            ∀ line, split_line chosen line = Some (split_scan [COMMA] 0 [] line)).
  { intros H1 H2 line. unfold chosen, detect_delimiter.
    rewrite decide_True by done. fold tabs commas n.
    apply Nat.ltb_ge in H1. apply Nat.ltb_lt in H2. rewrite H1, H2.
    apply split_line_comma. }
  repeat split; try assumption.
  - intros H1 H2 line. unfold chosen, detect_delimiter.
    rewrite decide_True by done. fold tabs commas n.
    apply Nat.ltb_ge in H1. apply Nat.ltb_ge in H2. rewrite H1, H2.
    destruct (3 * n <? _)%nat; apply split_line_space.
  - intros Hall. apply Htab.
    assert (n ≤ tabs)%nat.
    { apply sum_list_ge_length. eapply Forall_impl; [exact Hall|].
      by intros l [? _]. }
    assert (0 < n)%nat by (subst n; destruct lines; [done | simpl; lia]).
    lia.
  - intros Hall. apply Hcomma.
    assert (tabs = 0)%nat as -> by (by apply sum_list_zero). lia.
Qed.

Lemma auto_detect_spec_witness :
  split_line (detect_delimiter AUTO [[97; 9; 98]; [99; 9; 100]]) [97; 9; 98]
    = Some [[97]; [98]] ∧
  split_line (detect_delimiter AUTO [py "a,b"; py "c,d"; py "e"]) (py "a,b")
    = Some [[97]; [98]] ∧
  split_line (detect_delimiter AUTO [py "a  b"; py "c,d"]) (py "a  b")
    = Some [[97]; [98]].
Proof.
  split; [|split].
  - destruct (auto_detect_spec [[97; 9; 98]; [99; 9; 100]]) as (H & _);
      [discriminate|].
    apply (H ltac:(vm_compute; lia)).
  - destruct (auto_detect_spec [py "a,b"; py "c,d"; py "e"]) as (_ & H & _);
      [discriminate|].
    apply (H ltac:(vm_compute; lia) ltac:(vm_compute; lia)).
  - destruct (auto_detect_spec [py "a  b"; py "c,d"]) as (_ & _ & H & _);
      [discriminate|].
    apply (H ltac:(vm_compute; lia) ltac:(vm_compute; lia)).
Defined.

(** The loop appends, in order, the cells of the lines that have some, and
    tracks their greatest width. *)
Lemma parse_rows_inv d lines : ∀ acc m table_data max_cols,
  parse_rows d lines acc m = Some (table_data, max_cols) →
  let rows := filter (λ r, r ≠ []) (map (line_cells d) lines) in
  table_data = acc ++ rows ∧ max_cols = track_width m rows.
Proof.
  induction lines as [|line lines IH]; intros acc m td mc H; simpl in H.
  - injection H as <- <-. simpl. by rewrite app_nil_r.
  - simpl. destruct (split_line d line) as [cells|] eqn:Es; [|done].
    assert (Hlc : line_cells d line = clean_cells cells)
      by (unfold line_cells; by rewrite Es).
    destruct (clean_cells cells) as [|c cs] eqn:E.
    + rewrite filter_cons_False by (rewrite Hlc; intros ?; done). by apply IH.
    + rewrite filter_cons_True by (by rewrite Hlc). rewrite Hlc.
      apply IH in H as [-> ->]. by rewrite <- app_assoc.
Qed.

Lemma parse_rows_total d lines : ∀ acc m,
  (∀ line, line ∈ lines → is_Some (split_line d line)) →
  is_Some (parse_rows d lines acc m).
Proof.
  induction lines as [|line lines IH]; intros acc m Hall; simpl; [done|].
  destruct (Hall line) as [cells ->]; [left|].
  destruct (clean_cells cells); apply IH; intros x Hx; apply Hall; by right.
Qed.

Lemma split_line_total d line : d ≠ [] → is_Some (split_line d line).
Proof.
  intros Hd. unfold split_line. repeat case_decide; try done.
  destruct d; done.
Qed.

Lemma clean_cells_nonblank cells :
  Forall (λ c, c ≠ []) (clean_cells cells).
Proof. unfold clean_cells. apply Forall_forall. intros c Hc.
  by apply list_elem_of_filter in Hc as [? _]. Qed.

Lemma line_cells_nonblank d line : Forall (λ c, c ≠ []) (line_cells d line).
Proof.
  unfold line_cells. destruct (split_line d line); [|done].
  apply clean_cells_nonblank.
Qed.

Lemma length_rows_lines d (lines : list str) :
  length (filter (λ r, r ≠ []) (map (line_cells d) lines))
  = length (filter (λ line, line_cells d line ≠ []) lines).
Proof.
  induction lines as [|l ls IH]; [done|]. simpl.
  destruct (decide (line_cells d l = [])) as [E|E].
  - rewrite !filter_cons_False; [done | by intros ? | by intros ?].
  - rewrite !filter_cons_True by done. simpl. by rewrite IH.
Qed.

(** [convert_to_table] in terms of the rows of the loop. *)
Lemma convert_to_table_rows ocr_results delimiter :
  let lines := text_lines ocr_results in
  convert_to_table ocr_results delimiter =
  match parse_rows (detect_delimiter delimiter lines) lines [] 0 with
  | None => Raised (PyError (py "empty separator"))
  | Some ([], _) => Returned ([], [], 0%nat, 0%nat)
  | Some (table_data, max_cols) => Returned (emit_table max_cols table_data)
  end.
Proof.
  intros lines. unfold convert_to_table. fold lines.
  destruct ocr_results as [|r rs]; [done|].
  destruct lines; done.
Qed.

(** C7. The conversion returns two empty strings and two zero counts when
    there is no recognition result, when no result has a non-empty text, and
    on the text endpoint when the text is empty or blank. *)
Theorem convert_to_table_empty (delimiter : str) :
  convert_to_table [] delimiter = Returned ([], [], 0%nat, 0%nat) ∧
  (∀ ocr_results, text_lines ocr_results = [] →
     convert_to_table ocr_results delimiter = Returned ([], [], 0%nat, 0%nat)) ∧
  (∀ text w, strip text = [] →
     convert_text_to_table text delimiter w
     = (Returned (mkTableResponse true [] [] 0 0), w)).
Proof.
  split; [done|]. split.
  - intros rs H. unfold convert_to_table. rewrite H. by destruct rs.
  - intros text w H. unfold convert_text_to_table, try_except. by rewrite H.
Qed.

Lemma convert_to_table_empty_witness :
  convert_to_table [mkItem [] 1%float []] AUTO = Returned ([], [], 0%nat, 0%nat) ∧
  convert_text_to_table [] AUTO empty_world
  = (Returned (mkTableResponse true [] [] 0 0), empty_world) ∧
  convert_text_to_table (py "  ") (py "tab") empty_world
  = (Returned (mkTableResponse true [] [] 0 0), empty_world).
Proof.
  split; [|split].
  - destruct (convert_to_table_empty AUTO) as (_ & H & _).
    apply H. reflexivity.
  - destruct (convert_to_table_empty AUTO) as (_ & _ & H).
    apply H. reflexivity.
  - destruct (convert_to_table_empty (py "tab")) as (_ & _ & H).
    apply H. reflexivity.
Defined.

(** C10. Whenever the conversion returns, the rows of the table are, in
    order, the trimmed non-empty cells of exactly those lines that have at
    least one such cell: a line whose cells are all blank gives no row.  So
    the row count is the number of those lines, at most the number of
    lines, and every row has a cell and no empty cell before padding. *)
Theorem rows_are_lines_with_cells (ocr_results : list Item) (delimiter : str)
    (csv md : str) (rows cols : nat) :
  convert_to_table ocr_results delimiter = Returned (csv, md, rows, cols) →
  let lines := text_lines ocr_results in
  let d := detect_delimiter delimiter lines in
  ∃ table_data,
    parse_rows d lines [] 0 = Some (table_data, cols) ∧
    table_data = filter (λ r, r ≠ []) (map (line_cells d) lines) ∧
    rows = length (filter (λ line, line_cells d line ≠ []) lines) ∧
    rows = length table_data ∧
    (rows ≤ length lines)%nat ∧
    Forall (λ row, row ≠ [] ∧ Forall (λ c, c ≠ []) row) table_data ∧
    csv = writerows (pad_rows cols table_data).
Proof.
  intros H lines d. rewrite convert_to_table_rows in H. fold lines d in H.
  destruct (parse_rows d lines [] 0) as [[td mc]|] eqn:E; [|done].
  pose proof (parse_rows_inv d lines [] 0 td mc E) as [Htd Hmc].
  simpl in Htd.
  assert (Hlen : length td = length (filter (λ line, line_cells d line ≠ []) lines)).
  { rewrite Htd. apply length_rows_lines. }
  assert (Hall : Forall (λ row, row ≠ [] ∧ Forall (λ c, c ≠ []) row) td).
  { rewrite Htd. apply Forall_forall. intros row Hrow.
    apply list_elem_of_filter in Hrow as [Hne Hin]. split; [done|].
    apply list_elem_of_fmap in Hin as (line & -> & _).
    apply line_cells_nonblank. }
  assert (Hle : (length td ≤ length lines)%nat).
  { rewrite Hlen. apply length_filter. }
  destruct td as [|row td'].
  - injection H as <- <- <- <-. exists [].
    rewrite <- Htd in Hmc. simpl in Hmc. subst mc.
    simpl in Hlen. split_and!; try done; lia.
  - unfold emit_table in H. injection H as <- <- <- <-.
    exists (row :: td'). unfold pad_rows. rewrite length_map.
    split_and!; done.
Qed.

Lemma rows_are_lines_with_cells_witness :
  ∃ table_data,
    parse_rows (py "tab") (text_lines demo_items) [] 0 = Some (table_data, 2%nat) ∧
    2%nat = length table_data ∧ length (text_lines demo_items) = 3%nat.
Proof.
  edestruct (rows_are_lines_with_cells demo_items (py "tab"))
    as (td & Hparse & _ & _ & Hlen & _).
  { vm_compute. reflexivity. }
  exists td. split; [exact Hparse|]. split; [exact Hlen | reflexivity].
Defined.

(** *** Padding and Markdown *)

Lemma track_width_cons m row rows :
  track_width m (row :: rows) = track_width (max m (length row)) rows.
Proof. reflexivity. Qed.

Lemma track_width_ge m rows : (m ≤ track_width m rows)%nat.
Proof.
  revert m. induction rows as [|row rows IH]; intros m; [done|].
  rewrite track_width_cons. specialize (IH (max m (length row))). lia.
Qed.

Lemma track_width_bound m rows :
  Forall (λ row, length row ≤ track_width m rows)%nat rows.
Proof.
  revert m. induction rows as [|row rows IH]; intros m; [done|].
  rewrite track_width_cons. constructor; [|apply IH].
  pose proof (track_width_ge (max m (length row)) rows). lia.
Qed.

Lemma track_width_uniform k m rows :
  (m ≤ k)%nat → Forall (λ row, length row = k) rows → rows ≠ [] →
  track_width m rows = k.
Proof.
  revert m. induction rows as [|row rows IH]; intros m Hm Hall Hne; [done|].
  apply Forall_cons in Hall as [Hrow Hall]. rewrite track_width_cons.
  destruct rows as [|row' rows].
  - change (max m (length row) = k). lia.
  - apply IH; [lia | done | done].
Qed.

Lemma pad_rows_length k rows :
  Forall (λ row, length row ≤ k)%nat rows →
  Forall (λ row, length row = k) (pad_rows k rows).
Proof.
  intros H. unfold pad_rows. apply Forall_fmap. eapply Forall_impl; [exact H|].
  intros row Hrow. simpl in *. rewrite length_app, length_replicate. lia.
Qed.

Lemma pad_rows_id k rows :
  Forall (λ row, length row = k) rows → pad_rows k rows = rows.
Proof.
  induction 1 as [|row rows Hrow _ IH]; [done|].
  unfold pad_rows in *. simpl. rewrite IH, Hrow, Nat.sub_diag. simpl.
  by rewrite app_nil_r.
Qed.

(** *** CSV *)

Lemma split_scan_nonempty sep s : ∀ skip cur, split_scan sep skip cur s ≠ [].
Proof.
  induction s as [|c s IH]; intros skip cur; simpl; [done|].
  destruct skip; [|apply IH]. destruct (startswith sep (c :: s)); [done|apply IH].
Qed.

Lemma clean_cells_all cells :
  Forall (λ c, strip c ≠ []) cells → clean_cells cells = map strip cells.
Proof.
  unfold clean_cells. induction 1 as [|c cells Hc _ IH]; [done|].
  simpl. by rewrite filter_cons_True, IH.
Qed.

(** C3. With the hint [tab], when no cell of any line is blank, the table
    holds for each line its tab-separated cells, trimmed, and reading the
    CSV text back gives exactly that table padded to its width. *)
Theorem csv_round_trip_tab (ocr_results : list Item) :
  let lines := text_lines ocr_results in
  (∀ line, line ∈ lines →
           Forall (λ c, strip c ≠ []) (split_scan [TAB] 0 [] line)) →
  ∃ csv md rows cols,
    convert_to_table ocr_results (py "tab") = Returned (csv, md, rows, cols) ∧
    let table_data := map (λ line, map strip (split_scan [TAB] 0 [] line)) lines in
    parse_rows (py "tab") lines [] 0 = Some (table_data, cols) ∧
    csv_parse csv = pad_rows cols table_data ∧
    length (pad_rows cols table_data) = rows.
Proof.
  intros lines Hcells.
  assert (Hd : detect_delimiter (py "tab") lines = py "tab") by reflexivity.
  destruct (parse_rows_total (py "tab") lines [] 0) as [[td mc] Hparse].
  { intros line _. by eexists. }
  pose proof (parse_rows_inv _ _ _ _ _ _ Hparse) as [Htd Hmc]. simpl in Htd.
  assert (Hrows : td = map (λ line, map strip (split_scan [TAB] 0 [] line)) lines).
  { rewrite Htd. clear Htd Hmc Hparse Hd.
    generalize dependent lines. intros lines.
    induction lines as [|line ls IH]; intros Hcells; [done|]. simpl.
    assert (Hline : line_cells (py "tab") line
                    = map strip (split_scan [TAB] 0 [] line)).
    { unfold line_cells. change (split_line (py "tab") line)
        with (Some (split_scan [TAB] 0 [] line)).
      apply clean_cells_all, Hcells. by left. }
    rewrite filter_cons_True.
    - rewrite Hline, IH; [done|]. intros l Hl. apply Hcells. by right.
    - rewrite Hline. intros E. apply fmap_nil_inv in E.
      by apply split_scan_nonempty in E. }
  rewrite <- Htd in Hmc.
  rewrite convert_to_table_rows. fold lines. rewrite Hd, Hparse.
  assert (Hres : match td with
                 | [] => Returned ([], [], 0%nat, 0%nat)
                 | _ => Returned (emit_table mc td)
                 end = Returned (emit_table mc td)).
  { destruct td; [|done]. simpl in Hmc. by subst mc. }
  rewrite Hres. unfold emit_table.
  eexists _, _, _, _. split; [reflexivity|]. simpl. rewrite <- Hrows.
  split_and!; [done | apply csv_parse_writerows | done].
Qed.

Lemma csv_round_trip_tab_witness :
  ∃ csv md,
    convert_to_table demo_tab_items (py "tab") = Returned (csv, md, 2%nat, 2%nat) ∧
    csv_parse csv = [[py "a,b"; py "c"]; [py "d"; []]].
Proof.
  destruct (csv_round_trip_tab demo_tab_items)
    as (csv & md & rows & cols & Hret & Hparse & Hback & Hlen).
  { intros line Hin. vm_compute in Hin.
    apply elem_of_cons in Hin as [-> | Hin].
    - repeat constructor; discriminate.
    - apply elem_of_cons in Hin as [-> | Hin].
      + repeat constructor; discriminate.
      + by apply elem_of_nil in Hin. }
  exists csv, md.
  assert (cols = 2%nat) as -> by (vm_compute in Hparse; congruence).
  assert (rows = 2%nat) as -> by (by rewrite <- Hlen).
  split; [exact Hret | exact Hback].
Defined.

(** ** The handlers *)

(** Runs the prologue of a handler (clock, validation, id) under the
    validation result [H]. *)
Ltac run_prologue H :=
  unfold ocr_recognize, ocr_to_table, mbind, M_bind, now; by rewrite H.

Lemma ocr_recognize_invalid env file w reason :
  validate_file env (filename file) = (false, reason) →
  ocr_recognize env file w = (Raised (HTTPException 400 reason), tick w).
Proof. intros H. run_prologue H. Qed.

Lemma ocr_to_table_invalid env file w reason :
  validate_file env (filename file) = (false, reason) →
  ocr_to_table env file w = (Raised (HTTPException 400 reason), tick w).
Proof. intros H. run_prologue H. Qed.

Lemma ocr_recognize_valid env file w file_ext :
  validate_file env (filename file) = (true, file_ext) →
  ocr_recognize env file w =
  try_finally
    (try_except
       (recognize_try env file (clock w) file_ext (scratch_path env w file_ext))
       (λ e, raise (HTTPException 500 (MSG_OCR_FAILED ++ str_exn e))))
    (cleanup (scratch_path env w file_ext)) (admitted w).
Proof. intros H. run_prologue H. Qed.

Lemma ocr_to_table_valid env file w file_ext :
  validate_file env (filename file) = (true, file_ext) →
  ocr_to_table env file w =
  try_finally
    (try_except
       (table_try env file file_ext (scratch_path env w file_ext))
       (λ e, raise (HTTPException 500 (MSG_TABLE_FAILED ++ str_exn e))))
    (cleanup (scratch_path env w file_ext)) (admitted w).
Proof. intros H. run_prologue H. Qed.

(** *** What a computation does to the upload directory *)

Section Frame.
Context (path : str).

Lemma keeps_ret {A} (a : A) : keeps_but path (mret a : M A).
Proof. by intros w. Qed.

Lemma keeps_raise {A} e : keeps_but path (raise e : M A).
Proof. by intros w. Qed.

Lemma keeps_now : keeps_but path now.
Proof. by intros w. Qed.

Lemma keeps_bind {A B} (m : M A) (k : A → M B) :
  keeps_but path m → (∀ a, keeps_but path (k a)) → keeps_but path (m ≫= k).
Proof.
  intros Hm Hk w. unfold mbind, M_bind. specialize (Hm w).
  destruct (m w) as [[e|a] w']; simpl in *; [done|].
  by rewrite Hk.
Qed.

Lemma keeps_try_except {A} (m : M A) (h : Exn → M A) :
  keeps_but path m → (∀ e, keeps_but path (h e)) →
  keeps_but path (try_except m h).
Proof.
  intros Hm Hh w. unfold try_except. specialize (Hm w).
  destruct (m w) as [[e|a] w']; simpl in *; [|done].
  by rewrite Hh.
Qed.

Lemma keeps_write_file env content : keeps_but path (write_file env path content).
Proof.
  intros w. unfold write_file.
  destruct (disk_write env path content); simpl; [|done|];
    apply delete_insert_eq.
Qed.

Lemma keeps_run_ocr env file_ext p : keeps_but path (run_ocr env file_ext p).
Proof.
  unfold run_ocr. case_decide; apply keeps_bind.
  - intros w. unfold process_pdf_ocr.
    by destruct (process_pdf_ocr_full _ _ _ _ _) as [[e|items] pw'].
  - intros a. apply keeps_ret.
  - intros w. unfold process_image_ocr.
    by destruct (process_image_ocr_full _ _ _ _) as [r pw'].
  - intros a. apply keeps_ret.
Qed.

Lemma keeps_recognize_try env file start_time file_ext :
  keeps_but path (recognize_try env file start_time file_ext path).
Proof.
  unfold recognize_try. apply keeps_bind; [apply keeps_write_file|].
  intros _. apply keeps_bind; [apply keeps_run_ocr|]. intros [items ty].
  apply keeps_bind; [apply keeps_now|]. intros t1.
  apply keeps_bind; [apply keeps_now|]. intros t2. apply keeps_ret.
Qed.

Lemma keeps_table_try env file file_ext :
  keeps_but path (table_try env file file_ext path).
Proof.
  unfold table_try. apply keeps_bind; [apply keeps_write_file|].
  intros _. apply keeps_bind; [apply keeps_run_ocr|]. intros [items ty].
  destruct (convert_to_table items AUTO) as [e|[[[csv md] rows] cols]].
  - apply keeps_raise.
  - apply keeps_ret.
Qed.

(** The [finally] block removes the scratch file whatever [m] did. *)
Lemma try_finally_cleanup {A} (m : M A) w :
  (try_finally m (cleanup path) w).1 = (m w).1 ∧
  uploads (try_finally m (cleanup path) w).2 = delete path (uploads (m w).2).
Proof.
  unfold try_finally, cleanup, mbind, M_bind, path_exists.
  destruct (m w) as [r w']; simpl.
  case_bool_decide as Hp; simpl.
  - done.
  - split; [done|]. symmetry. apply delete_id.
    by apply eq_None_not_Some.
Qed.
End Frame.

Lemma guarded_500 {A} (m : M A) (prefix : str) :
  fails_with_500 (try_except m (λ e, raise (HTTPException 500 (prefix ++ str_exn e)))).
Proof.
  intros w. unfold try_except, raise. by destruct (m w) as [[e|a] w'].
Qed.

Lemma guarded_request_uploads {A} path (m : M A) (prefix : str) w :
  keeps_but path m →
  uploads (try_finally
             (try_except m (λ e, raise (HTTPException 500 (prefix ++ str_exn e))))
             (cleanup path) (admitted w)).2
  = delete path (uploads w).
Proof.
  intros Hm.
  destruct (try_finally_cleanup path
    (try_except m (λ e, raise (HTTPException 500 (prefix ++ str_exn e))))
    (admitted w)) as [_ ->].
  change (uploads w) with (uploads (admitted w)).
  apply (keeps_try_except path m _ Hm). intros e. apply keeps_raise.
Qed.

Lemma guarded_request_outcome {A} path (m : M A) (prefix : str) w :
  match (try_finally
           (try_except m (λ e, raise (HTTPException 500 (prefix ++ str_exn e))))
           (cleanup path) w).1 with
  | Returned _ | Raised (HTTPException 500 _) => True
  | Raised _ => False
  end.
Proof.
  destruct (try_finally_cleanup path
    (try_except m (λ e, raise (HTTPException 500 (prefix ++ str_exn e)))) w)
    as [-> _].
  apply guarded_500.
Qed.

Lemma ocr_recognize_uploads env file w :
  uploads (ocr_recognize env file w).2 ⊆ uploads w.
Proof.
  destruct (validate_file env (filename file)) as [[|] x] eqn:E.
  - rewrite (ocr_recognize_valid _ _ _ _ E), guarded_request_uploads.
    + apply delete_subseteq.
    + apply keeps_recognize_try.
  - by rewrite (ocr_recognize_invalid _ _ _ _ E).
Qed.

(** C6. A request that passes validation writes its upload under the name
    made of a fresh id and the extension.  When either handler finishes,
    whether it returns or raises (it then raises an [HTTPException] with
    status 500), no file of that name exists and every other file of the
    upload directory is as before; after a batch the upload directory
    holds no file it did not hold before. *)
Theorem scratch_file_removed (env : Env) (file : UploadFile) (w : World)
    (file_ext : str) :
  validate_file env (filename file) = (true, file_ext) →
  let path := scratch_path env w file_ext in
  let ocr := ocr_recognize env file w in
  let table := ocr_to_table env file w in
  (uploads ocr.2 !! path = None ∧
   ∀ p, p ≠ path → uploads ocr.2 !! p = uploads w !! p) ∧
  (uploads table.2 !! path = None ∧
   ∀ p, p ≠ path → uploads table.2 !! p = uploads w !! p) ∧
  match ocr.1 with
  | Returned _ | Raised (HTTPException 500 _) => True
  | Raised _ => False
  end ∧
  match table.1 with
  | Returned _ | Raised (HTTPException 500 _) => True
  | Raised _ => False
  end ∧
  ∀ files, uploads (world_after env files w) ⊆ uploads w.
Proof.
  intros Hvalid path ocr table.
  assert (Hocr : uploads ocr.2 = delete path (uploads w)).
  { unfold ocr. rewrite (ocr_recognize_valid _ _ _ _ Hvalid).
    apply guarded_request_uploads, keeps_recognize_try. }
  assert (Htable : uploads table.2 = delete path (uploads w)).
  { unfold table. rewrite (ocr_to_table_valid _ _ _ _ Hvalid).
    apply guarded_request_uploads, keeps_table_try. }
  split_and!.
  - rewrite Hocr. apply lookup_delete_eq.
  - intros p Hp. rewrite Hocr. by apply lookup_delete_ne.
  - rewrite Htable. apply lookup_delete_eq.
  - intros p Hp. rewrite Htable. by apply lookup_delete_ne.
  - unfold ocr. rewrite (ocr_recognize_valid _ _ _ _ Hvalid).
    apply guarded_request_outcome.
  - unfold table. rewrite (ocr_to_table_valid _ _ _ _ Hvalid).
    apply guarded_request_outcome.
  - intros files. clear. revert w.
    induction files as [|f fs IH]; intros w; simpl; [done|].
    etrans; [apply IH | apply ocr_recognize_uploads].
Qed.

Lemma scratch_file_removed_witness :
  uploads (ocr_recognize demo_env demo_scan empty_world).2
    !! py "upload-0.png" = None ∧
  uploads (ocr_to_table demo_env demo_large empty_world).2
    !! py "upload-0.pdf" = None ∧
  (ocr_to_table demo_env demo_large empty_world).1
  = Raised (HTTPException 500 (MSG_TABLE_FAILED ++ py "No space left on device")).
Proof.
  split; [|split].
  - destruct (scratch_file_removed demo_env demo_scan empty_world (py ".png"))
      as ((H & _) & _); [vm_compute; reflexivity|].
    exact H.
  - destruct (scratch_file_removed demo_env demo_large empty_world (py ".pdf"))
      as (_ & (H & _) & _); [vm_compute; reflexivity|].
    exact H.
  - vm_compute. reflexivity.
Defined.

(** *** The batch endpoint *)

Lemma batch_loop_spec env files : ∀ results w,
  batch_loop env files results w
  = (Returned (results ++ batch_entries env files w), world_after env files w).
Proof.
  induction files as [|file rest IH]; intros results w; simpl.
  - by rewrite app_nil_r.
  - destruct (ocr_recognize env file w) as [r w'] eqn:E. simpl.
    rewrite IH. by rewrite <- app_assoc.
Qed.

Lemma ocr_batch_unfold env files w :
  ocr_batch env files w =
  (Returned
     (JObj [ (py "success", JBool true);
             (py "total", JInt (Z.of_nat (length files)));
             (py "processed",
              JInt (Z.of_nat (length (filter (λ r, entry_success r = true)
                                             (batch_entries env files w)))));
             (py "results", JArr (batch_entries env files w));
             (py "timestamp",
              JStr (isoformat env (clock (world_after env files w)))) ]),
   tick (world_after env files w)).
Proof.
  unfold ocr_batch, mbind, M_bind. by rewrite batch_loop_spec.
Qed.

Lemma batch_entries_length env files : ∀ w,
  length (batch_entries env files w) = length files.
Proof. induction files as [|f fs IH]; intros w; simpl; [done|]. by rewrite IH. Qed.

Lemma batch_entries_lookup env files : ∀ w i file,
  files !! i = Some file →
  batch_entries env files w !! i
  = Some (batch_entry file
            (ocr_recognize env file (world_after env (take i files) w)).1).
Proof.
  induction files as [|f fs IH]; intros w i file Hi; [done|].
  destruct i as [|i]; simpl in *.
  - by injection Hi as ->.
  - by apply IH.
Qed.

(** C5. The batch endpoint always returns.  Its result counts all the
    files as [total]; it holds one entry per file, in order, made from what
    the single-file handler did for that file in the world the earlier
    files left: the full payload under [data] with [success] true when the
    handler returned, an error string under [error] with [success] false
    when it raised; [processed] counts the entries whose [success] is
    true. *)
Theorem ocr_batch_spec (env : Env) (files : list UploadFile) (w : World) :
  ∃ results w',
    ocr_batch env files w =
    (Returned
       (JObj [ (py "success", JBool true);
               (py "total", JInt (Z.of_nat (length files)));
               (py "processed",
                JInt (Z.of_nat (length (filter (λ r, entry_success r = true)
                                               results))));
               (py "results", JArr results);
               (py "timestamp", JStr (isoformat env (clock (world_after env files w)))) ]),
     w') ∧
    length results = length files ∧
    ∀ i file, files !! i = Some file →
      ∃ entry, results !! i = Some entry ∧
        match (ocr_recognize env file (world_after env (take i files) w)).1 with
        | Returned result =>
            entry = JObj [ (py "filename", JStr (filename file));
                           (py "success", JBool true);
                           (py "data", json_of_ocr result) ] ∧
            entry_success entry = true
        | Raised e =>
            (∃ error, entry = JObj [ (py "filename", JStr (filename file));
                                     (py "success", JBool false);
                                     (py "error", JStr error) ]) ∧
            entry_success entry = false
        end.
Proof.
  exists (batch_entries env files w), (tick (world_after env files w)).
  split; [apply ocr_batch_unfold|]. split; [apply batch_entries_length|].
  intros i file Hi. eexists. split; [by apply batch_entries_lookup|].
  destruct (ocr_recognize env file _).1 as [[status detail|message]|result];
    simpl; (split; [|done]); by eexists.
Qed.

Lemma ocr_batch_spec_witness :
  ∃ results entry w',
    ocr_batch demo_env demo_batch empty_world =
    (Returned
       (JObj [ (py "success", JBool true);
               (py "total", JInt 3);
               (py "processed",
                JInt (Z.of_nat (length (filter (λ r, entry_success r = true)
                                               results))));
               (py "results", JArr results);
               (py "timestamp", JStr (py "t7")) ]), w') ∧
    length results = 3%nat ∧
    results !! 1%nat = Some entry ∧
    (∃ error, entry = JObj [ (py "filename", JStr (py "two.png"));
                             (py "success", JBool false);
                             (py "error", JStr error) ]) ∧
    entry_success entry = false.
Proof.
  destruct (ocr_batch_spec demo_env demo_batch empty_world)
    as (results & w' & Hret & Hlen & Hentries).
  destruct (Hentries 1%nat (mkUpload (py "two.png") []) eq_refl)
    as (entry & Hat & Hentry).
  vm_compute in Hentry. destruct Hentry as [Hshape Hfail].
  exists results, entry, w'. split_and!.
  - exact Hret.
  - exact Hlen.
  - exact Hat.
  - exact Hshape.
  - exact Hfail.
Defined.

(** Three files of which the second cannot be read: three entries, two
    processed, the second one failed. *)
Example batch_of_three :
  ∃ first second third w',
    ocr_batch demo_env demo_batch empty_world =
    (Returned
       (JObj [ (py "success", JBool true);
               (py "total", JInt 3);
               (py "processed", JInt 2);
               (py "results", JArr [first; second; third]);
               (py "timestamp", JStr (py "t7")) ]), w') ∧
    entry_success first = true ∧ entry_success third = true ∧
    second = JObj [ (py "filename", JStr (py "two.png"));
                    (py "success", JBool false);
                    (py "error",
                     JStr (MSG_OCR_FAILED ++ py "cannot identify image file")) ] ∧
    uploads w' = ∅.
Proof.
  eexists _, _, _, _. split; [vm_compute; reflexivity|].
  split_and!; reflexivity.
Qed.

(** *** Rejected uploads *)

(** What the framework sends for a returned value has status 200 or, when
    the value cannot be serialised, the status 500 of the catch-all
    handler. *)
Lemma send_status env how value :
  status (send env how value) = 200%Z ∨ status (send env how value) = 500%Z.
Proof. unfold send. destruct (render env how value); [by left | by right]. Qed.

Lemma send_sent env how value sent :
  render env how value = Sent sent → send env how value = mkResponse 200 sent.
Proof. unfold send. by intros ->. Qed.

(** C9, as the code has it.  When the validator rejects the filename with
    [reason], the two single-file endpoints answer with status 400 and the
    body [{success: false, error: reason, status_code: 400}]; nothing was
    written, no id was drawn, no engine was loaded or run.  The reason
    cites the unsupported format and the extension when the filename is not
    empty; it is the no-filename message when it is empty.  The batch
    endpoint does not answer 400: its handler returns a body that records
    the item as failed with that reason, and the answer is what the
    framework makes of that body, status 200 with the body it serialised
    or, when it cannot serialise it, the 500 of the catch-all handler. *)
Theorem invalid_upload_rejected (env : Env) (file : UploadFile) (w : World)
    (reason : str) :
  validate_file env (filename file) = (false, reason) →
  let envelope :=
    mkResponse 400 (JObj [ (py "success", JBool false);
                           (py "error", JStr reason);
                           (py "status_code", JInt 400) ]) in
  post_api_ocr env (Some file) w = (envelope, tick w) ∧
  post_api_ocr_table env (Some file) w = (envelope, tick w) ∧
  (uploads (tick w) = uploads w ∧ ids_drawn (tick w) = ids_drawn w ∧
   engine_calls (tick w) = engine_calls w ∧ runtime (tick w) = runtime w) ∧
  (filename file ≠ [] →
     startswith MSG_UNSUPPORTED reason = true ∧
     contains (py_lower env (suffix (filename file))) reason = true) ∧
  (filename file = [] → reason = MSG_NO_FILENAME) ∧
  ∀ files i, files !! i = Some file →
    ∃ fields results w',
      post_api_ocr_batch env files w = (send env Plain (JObj fields), w') ∧
      (∀ sent, render env Plain (JObj fields) = Sent sent →
         post_api_ocr_batch env files w = (mkResponse 200 sent, w')) ∧
      status (post_api_ocr_batch env files w).1 ≠ 400%Z ∧
      lookup_field (py "results") fields = Some (JArr results) ∧
      results !! i = Some (JObj [ (py "filename", JStr (filename file));
                                  (py "success", JBool false);
                                  (py "error", JStr reason) ]).
Proof.
  intros Hbad envelope. split_and!.
  - unfold post_api_ocr, respond. by rewrite (ocr_recognize_invalid _ _ _ _ Hbad).
  - unfold post_api_ocr_table, respond.
    by rewrite (ocr_to_table_invalid _ _ _ _ Hbad).
  - done.
  - done.
  - done.
  - done.
  - intros Hname. unfold validate_file in Hbad.
    destruct (filename file) as [|c rest] eqn:E; [done|].
    case_decide; [done|]. apply (f_equal snd) in Hbad. cbn [snd] in Hbad.
    rewrite <- Hbad. split; [apply startswith_app | apply contains_app].
  - intros Hname. unfold validate_file in Hbad. rewrite Hname in Hbad.
    by injection Hbad as <-.
  - intros files i Hi.
    assert (Hfiles : post_api_ocr_batch env files w
                     = respond env Plain id (ocr_batch env files) w).
    { by destruct files. }
    rewrite Hfiles. unfold respond. rewrite ocr_batch_unfold.
    eexists _, _, _. split; [reflexivity|]. cbn [fst id].
    split; [intros sent Hsent; by rewrite (send_sent _ _ _ _ Hsent)|].
    split; [by destruct (send_status env Plain
                 (JObj [ (py "success", JBool true);
                         (py "total", JInt (Z.of_nat (length files)));
                         (py "processed",
                          JInt (Z.of_nat (length (filter (λ r, entry_success r = true)
                                                         (batch_entries env files w)))));
                         (py "results", JArr (batch_entries env files w));
                         (py "timestamp",
                          JStr (isoformat env (clock (world_after env files w)))) ]))
                 as [-> | ->]|].
    split; [reflexivity|].
    rewrite (batch_entries_lookup _ _ _ _ _ Hi).
    by rewrite (ocr_recognize_invalid _ _ _ _ Hbad).
Qed.

Lemma invalid_upload_rejected_witness :
  ∃ reason,
    post_api_ocr demo_env (Some demo_exe) empty_world
    = (mkResponse 400 (JObj [ (py "success", JBool false);
                              (py "error", JStr reason);
                              (py "status_code", JInt 400) ]),
       tick empty_world) ∧
    startswith MSG_UNSUPPORTED reason = true ∧
    contains (py ".exe") reason = true.
Proof.
  edestruct (invalid_upload_rejected demo_env demo_exe empty_world)
    as (Hocr & _ & _ & Hcite & _); [vm_compute; reflexivity|].
  eexists. split; [exact Hocr|]. apply Hcite. discriminate.
Defined.

(** C9 as written fails twice: a missing filename is rejected with a reason
    that does not cite an unsupported format, and the batch endpoint answers
    a rejected file with status 200. *)
Lemma invalid_upload_counterexample :
  (validate_file demo_env (filename demo_nameless)).1 = false ∧
  (∃ reason,
     get (py "error")
         (body (post_api_ocr demo_env (Some demo_nameless) empty_world).1)
       = Some (JStr reason) ∧
     contains MSG_UNSUPPORTED reason = false) ∧
  (validate_file demo_env (filename demo_exe)).1 = false ∧
  status (post_api_ocr_batch demo_env [demo_exe] empty_world).1 = 200%Z ∧
  get (py "success") (body (post_api_ocr_batch demo_env [demo_exe] empty_world).1)
    = Some (JBool true).
Proof.
  split_and!; try (vm_compute; reflexivity).
  eexists. split; vm_compute; reflexivity.
Qed.

(** The answer of the batch endpoint is made after its handler has
    returned.  With an engine that reads a text no body can hold, the
    handler returns its body, the rejected file recorded in it, and the
    request is answered by the catch-all handler. *)
Example batch_not_serialised :
  (∃ body w', ocr_batch demo_odd_env [demo_exe; demo_scan] empty_world
              = (Returned body, w')) ∧
  (post_api_ocr_batch demo_odd_env [demo_exe; demo_scan] empty_world).1
  = mkResponse 500
      (JObj [ (py "success", JBool false);
              (py "error", JStr MSG_INTERNAL);
              (py "detail", JStr (py "surrogates not allowed")) ]).
Proof. split; [by eexists _, _ | vm_compute; reflexivity]. Qed.

(** * Further properties *)

(** ** Table reconstruction: failure, shape and delimiters *)

Lemma detect_delimiter_cases d lines :
  (d ≠ AUTO ∧ detect_delimiter d lines = d) ∨
  (d = AUTO ∧ (detect_delimiter d lines = [TAB]
               ∨ detect_delimiter d lines = [COMMA]
               ∨ detect_delimiter d lines = SPACE)).
Proof.
  unfold detect_delimiter. case_decide; [right | by left].
  split; [done|].
  destruct (_ <? _)%nat; [by left|].
  destruct (_ <? _)%nat; [by right; left|].
  destruct (_ <? _)%nat; by right; right.
Qed.

Lemma detect_delimiter_nonempty d lines :
  d ≠ [] → detect_delimiter d lines ≠ [].
Proof.
  intros Hd. destruct (detect_delimiter_cases d lines)
    as [[_ ->] | [_ [-> | [-> | ->]]]]; done.
Qed.

Lemma parse_rows_ext d1 d2 lines : ∀ acc m,
  (∀ line, split_line d1 line = split_line d2 line) →
  parse_rows d1 lines acc m = parse_rows d2 lines acc m.
Proof.
  induction lines as [|line lines IH]; intros acc m H; simpl; [done|].
  rewrite H. destruct (split_line d2 line) as [cells|]; [|done].
  destruct (clean_cells cells); by apply IH.
Qed.

Lemma convert_to_table_returns ocr_results delimiter :
  delimiter ≠ [] → ∃ q, convert_to_table ocr_results delimiter = Returned q.
Proof.
  intros Hd. rewrite convert_to_table_rows.
  destruct (parse_rows_total
              (detect_delimiter delimiter (text_lines ocr_results))
              (text_lines ocr_results) [] 0) as [[td mc] ->].
  { intros line _. by apply split_line_total, detect_delimiter_nonempty. }
  destruct td; by eexists.
Qed.

Lemma convert_to_table_raises ocr_results :
  text_lines ocr_results ≠ [] →
  convert_to_table ocr_results [] = Raised (PyError (py "empty separator")).
Proof.
  intros Hlines. unfold convert_to_table.
  destruct ocr_results as [|r rs]; [done|].
  destruct (text_lines (r :: rs)) as [|line lines]; [done|].
  reflexivity.
Qed.

(** X1. The conversion raises in one case only, the empty string given as
    literal delimiter while some result has a text; every other delimiter
    gives a result. *)
Theorem convert_to_table_failure (ocr_results : list Item) (delimiter : str) :
  (delimiter ≠ [] → ∃ q, convert_to_table ocr_results delimiter = Returned q) ∧
  (text_lines ocr_results ≠ [] →
     convert_to_table ocr_results [] = Raised (PyError (py "empty separator"))) ∧
  (text_lines ocr_results = [] →
     convert_to_table ocr_results [] = Returned ([], [], 0%nat, 0%nat)).
Proof.
  split_and!.
  - apply convert_to_table_returns.
  - apply convert_to_table_raises.
  - intros Hlines. unfold convert_to_table. rewrite Hlines.
    by destruct ocr_results.
Qed.

Lemma convert_to_table_failure_witness :
  (∃ q, convert_to_table demo_items (py ";") = Returned q) ∧
  convert_to_table demo_items [] = Raised (PyError (py "empty separator")) ∧
  convert_to_table [mkItem [] 1%float []] [] = Returned ([], [], 0%nat, 0%nat).
Proof.
  destruct (convert_to_table_failure demo_items (py ";")) as (H1 & H2 & _).
  destruct (convert_to_table_failure [mkItem [] 1%float []] []) as (_ & _ & H3).
  split_and!.
  - apply H1. discriminate.
  - apply H2. discriminate.
  - apply H3. reflexivity.
Defined.

Lemma pad_rows_count k (rows : list (list str)) :
  length (pad_rows k rows) = length rows.
Proof. unfold pad_rows. apply length_map. Qed.

Lemma convert_to_table_grid ocr_results delimiter csv md rows cols :
  convert_to_table ocr_results delimiter = Returned (csv, md, rows, cols) →
  ∃ table_data,
    Forall (λ row, row ≠ [] ∧ Forall (λ c, c ≠ []) row) table_data ∧
    Forall (λ row, ∃ line cells,
              split_line (detect_delimiter delimiter (text_lines ocr_results))
                         line = Some cells ∧
              row = clean_cells cells) table_data ∧
    cols = track_width 0 table_data ∧
    rows = length table_data ∧
    csv = writerows (pad_rows cols table_data) ∧
    md = markdown_of cols (pad_rows cols table_data).
Proof.
  intros H. rewrite convert_to_table_rows in H.
  set (lines := text_lines ocr_results) in *.
  set (d := detect_delimiter delimiter lines) in *.
  destruct (parse_rows d lines [] 0) as [[td mc]|] eqn:E; [|done].
  pose proof (parse_rows_inv d lines [] 0 td mc E) as [Htd Hmc].
  simpl in Htd. rewrite <- Htd in Hmc.
  assert (Hall : Forall (λ row, row ≠ [] ∧ Forall (λ c, c ≠ []) row) td).
  { rewrite Htd. apply Forall_forall. intros row Hrow.
    apply list_elem_of_filter in Hrow as [Hne Hin]. split; [done|].
    apply list_elem_of_fmap in Hin as (line & -> & _).
    apply line_cells_nonblank. }
  assert (Hsrc : Forall (λ row, ∃ line cells,
                   split_line d line = Some cells ∧ row = clean_cells cells) td).
  { rewrite Htd. apply Forall_forall. intros row Hrow.
    apply list_elem_of_filter in Hrow as [Hne Hin].
    apply list_elem_of_fmap in Hin as (line & -> & _).
    unfold line_cells in *. destruct (split_line d line) as [cells|] eqn:Es;
      [|done]. by exists line, cells. }
  exists td. destruct td as [|row td'].
  - injection H as <- <- <- <-. simpl in Hmc. by subst mc.
  - unfold emit_table in H. injection H as <- <- <- <-.
    rewrite pad_rows_count. by split_and!.
Qed.

(** X2. Whatever the delimiter, the CSV text that is returned reads back as
    a rectangular grid: exactly [row_count] records of exactly [col_count]
    fields each. *)
Theorem csv_is_rectangular (ocr_results : list Item) (delimiter : str)
    (csv md : str) (rows cols : nat) :
  convert_to_table ocr_results delimiter = Returned (csv, md, rows, cols) →
  length (csv_parse csv) = rows ∧
  Forall (λ record, length record = cols) (csv_parse csv).
Proof.
  intros H. apply convert_to_table_grid in H
    as (td & _ & _ & Hcols & Hrows & -> & _).
  rewrite csv_parse_writerows. split.
  - by rewrite pad_rows_count.
  - apply pad_rows_length. rewrite Hcols. apply track_width_bound.
Qed.

Lemma csv_is_rectangular_witness :
  ∃ csv, length (csv_parse csv) = 2%nat ∧
         Forall (λ record, length record = 2%nat) (csv_parse csv) ∧
         csv = py "a,b" ++ [CR; LF] ++ py "c," ++ [CR; LF].
Proof.
  eexists. 
  destruct (csv_is_rectangular demo_items AUTO _ _ _ _ eq_refl) as [H1 H2].
  split; [exact H1|]. split; [exact H2 | reflexivity].
Defined.

Lemma writerow_nonempty row : writerow row ≠ [].
Proof.
  unfold writerow. destruct row as [|f fs].
  - done.
  - destruct (join [COMMA] (map csv_field (f :: fs))) as [|c rest]; done.
Qed.

(** X3. A returned table has no row exactly when it has no column, exactly
    when its CSV text is empty and exactly when its Markdown text is empty;
    every record of the CSV text starts with a non-empty field. *)
Theorem table_empty_iff (ocr_results : list Item) (delimiter : str)
    (csv md : str) (rows cols : nat) :
  convert_to_table ocr_results delimiter = Returned (csv, md, rows, cols) →
  (rows = 0%nat ↔ cols = 0%nat) ∧
  (rows = 0%nat ↔ csv = []) ∧
  (rows = 0%nat ↔ md = []) ∧
  Forall (λ record, ∃ first rest, record = first :: rest ∧ first ≠ [])
         (csv_parse csv).
Proof.
  intros H. apply convert_to_table_grid in H
    as (td & Hall & _ & Hcols & Hrows & -> & ->).
  rewrite csv_parse_writerows.
  destruct td as [|row td'].
  - simpl in *. subst. by split_and!.
  - apply Forall_cons in Hall as [[Hrow Hcells] Hall'].
    assert (1 ≤ cols)%nat.
    { pose proof (track_width_bound 0 (row :: td')) as Hb.
      apply Forall_cons in Hb as [Hb _]. rewrite <- Hcols in Hb.
      destruct row; [done|]. simpl in Hb. lia. }
    subst rows. split_and!.
    + split; intros E; [done | lia].
    + split; intros E; [done|]. exfalso.
      unfold pad_rows, writerows in E. simpl in E.
      apply app_eq_nil in E as [E _]. by apply writerow_nonempty in E.
    + split; intros E; [done|]. exfalso.
      unfold markdown_of, pad_rows in E. simpl in E.
      destruct (map _ td'); discriminate.
    + apply Forall_forall. intros record Hin. unfold pad_rows in Hin.
      apply list_elem_of_fmap in Hin as (r & -> & Hr).
      assert (Hr' : r ≠ [] ∧ Forall (λ c, c ≠ []) r).
      { apply elem_of_cons in Hr as [-> | Hr]; [done|].
        by apply (proj1 (Forall_forall _ _) Hall'). }
      destruct Hr' as [Hne Hc]. destruct r as [|c r']; [done|].
      apply Forall_cons in Hc as [Hc _]. by eexists c, _.
Qed.

Lemma table_empty_iff_witness :
  ∃ csv md, convert_to_table demo_items (py "tab") = Returned (csv, md, 2%nat, 2%nat) ∧
            csv ≠ [] ∧ md ≠ [].
Proof.
  eexists _, _. split; [reflexivity|].
  destruct (table_empty_iff demo_items (py "tab") _ _ _ _ eq_refl)
    as (_ & [_ Hcsv] & [_ Hmd] & _).
  split; intros E; [apply Hcsv in E | apply Hmd in E]; discriminate.
Defined.

Lemma delimiter_aliases_eq (ocr_results : list Item) :
  convert_to_table ocr_results (py "tab") = convert_to_table ocr_results [TAB] ∧
  convert_to_table ocr_results (py "comma") = convert_to_table ocr_results [COMMA].
Proof.
  rewrite !convert_to_table_rows. split.
  - change (detect_delimiter (py "tab") (text_lines ocr_results)) with (py "tab").
    change (detect_delimiter [TAB] (text_lines ocr_results)) with [TAB].
    by rewrite (parse_rows_ext (py "tab") [TAB]).
  - change (detect_delimiter (py "comma") (text_lines ocr_results))
      with (py "comma").
    change (detect_delimiter [COMMA] (text_lines ocr_results)) with [COMMA].
    by rewrite (parse_rows_ext (py "comma") [COMMA]).
Qed.

(** X4. The hint [tab] gives what the literal tab gives, and the hint
    [comma] what the literal comma gives, for the whole conversion and on
    the text endpoint. *)
Theorem delimiter_aliases (env : Env) (ocr_results : list Item) (text : str)
    (w : World) :
  convert_to_table ocr_results (py "tab") = convert_to_table ocr_results [TAB] ∧
  convert_to_table ocr_results (py "comma") = convert_to_table ocr_results [COMMA] ∧
  post_api_convert_table env text (py "tab") w
  = post_api_convert_table env text [TAB] w ∧
  post_api_convert_table env text (py "comma") w
  = post_api_convert_table env text [COMMA] w.
Proof.
  split_and!; try apply delimiter_aliases_eq.
  - unfold post_api_convert_table, convert_text_to_table.
    destruct text; [done|]. cbn iota.
    by rewrite (proj1 (delimiter_aliases_eq _)).
  - unfold post_api_convert_table, convert_text_to_table.
    destruct text; [done|]. cbn iota.
    by rewrite (proj2 (delimiter_aliases_eq _)).
Qed.

(** X5. Auto-detection adds no strategy of its own: the result under the
    hint [auto] is the result under the literal tab, under the literal
    comma or under the hint [space]. *)
Theorem auto_is_explicit (ocr_results : list Item) :
  convert_to_table ocr_results AUTO = convert_to_table ocr_results [TAB] ∨
  convert_to_table ocr_results AUTO = convert_to_table ocr_results [COMMA] ∨
  convert_to_table ocr_results AUTO = convert_to_table ocr_results SPACE.
Proof.
  rewrite !convert_to_table_rows.
  change (detect_delimiter [TAB] (text_lines ocr_results)) with [TAB].
  change (detect_delimiter [COMMA] (text_lines ocr_results)) with [COMMA].
  change (detect_delimiter SPACE (text_lines ocr_results)) with SPACE.
  destruct (detect_delimiter_cases AUTO (text_lines ocr_results))
    as [[Hne _] | [_ [-> | [-> | ->]]]]; [done | | |].
  - by left.
  - by right; left.
  - by right; right.
Qed.

(** *** Trimmed cells *)

Lemma lstrip_head s :
  match lstrip s with
  | c :: _ => isspace c = false
  | [] => True
  end.
Proof.
  induction s as [|c s IH]; simpl; [done|].
  destruct (isspace c) eqn:E; [exact IH | exact E].
Qed.

Lemma lstrip_fixed s :
  match s with c :: _ => isspace c = false | [] => True end → lstrip s = s.
Proof. destruct s as [|c s]; simpl; [done|]. by intros ->. Qed.

Lemma lstrip_app_nonspace x c :
  isspace c = false → lstrip (x ++ [c]) = lstrip x ++ [c].
Proof.
  intros Hc. induction x as [|a x IH]; simpl.
  - by rewrite Hc.
  - destruct (isspace a); [exact IH | done].
Qed.

Lemma rstrip_cons_nonspace c s :
  isspace c = false → rstrip (c :: s) = c :: rstrip s.
Proof.
  intros Hc. unfold rstrip. simpl.
  rewrite lstrip_app_nonspace by done. by rewrite rev_app_distr.
Qed.

Lemma rstrip_idem s : rstrip (rstrip s) = rstrip s.
Proof.
  unfold rstrip. rewrite rev_involutive.
  rewrite (lstrip_fixed (lstrip (rev s))); [done | apply lstrip_head].
Qed.

Lemma strip_idem s : strip (strip s) = strip s.
Proof.
  unfold strip.
  assert (H : lstrip (rstrip (lstrip s)) = rstrip (lstrip s)).
  { pose proof (lstrip_head s) as Hh. destruct (lstrip s) as [|c t]; [done|].
    rewrite rstrip_cons_nonspace by done. simpl. by rewrite Hh. }
  rewrite H. apply rstrip_idem.
Qed.

(** X6. Whatever the delimiter, every field of the returned CSV text is
    trimmed: stripping it again changes nothing. *)
Theorem cells_are_trimmed (ocr_results : list Item) (delimiter : str)
    (csv md : str) (rows cols : nat) :
  convert_to_table ocr_results delimiter = Returned (csv, md, rows, cols) →
  Forall (Forall (λ field, strip field = field)) (csv_parse csv).
Proof.
  intros H. apply convert_to_table_grid in H
    as (td & _ & Hsrc & _ & _ & -> & _).
  rewrite csv_parse_writerows. unfold pad_rows. apply Forall_fmap.
  eapply Forall_impl; [exact Hsrc|].
  intros row (line & cells & _ & ->). simpl. apply Forall_app. split.
  - unfold clean_cells. apply Forall_forall. intros c Hc.
    apply list_elem_of_filter in Hc as [_ Hc].
    apply list_elem_of_fmap in Hc as (c' & -> & _). apply strip_idem.
  - apply Forall_forall. intros c Hc. by apply elem_of_replicate in Hc as [-> _].
Qed.

Lemma cells_are_trimmed_witness :
  ∃ csv, Forall (Forall (λ field, strip field = field)) (csv_parse csv) ∧
         csv_parse csv = [[py "a b"; py "c"]].
Proof.
  eexists. split.
  - exact (cells_are_trimmed [mkItem (py " a b ,  c ") 1%float []] (py "comma")
             _ _ _ _ eq_refl).
  - reflexivity.
Defined.

(** *** One-character delimiters *)

Lemma split_scan_excludes ch s : ∀ cur,
  ch ∉ cur → Forall (λ piece, ch ∉ piece) (split_scan [ch] 0 cur s).
Proof.
  induction s as [|x s IH]; intros cur Hcur; simpl.
  - by constructor.
  - destruct (ch =? x) eqn:E; simpl.
    + constructor; [done|]. apply IH. apply not_elem_of_nil.
    + apply IH. apply N.eqb_neq in E.
      rewrite elem_of_app, list_elem_of_singleton. intros [?|?]; done.
Qed.

Lemma lstrip_subset s x : x ∈ lstrip s → x ∈ s.
Proof.
  induction s as [|c s IH]; simpl; [done|].
  destruct (isspace c); [|done]. intros H. right. by apply IH.
Qed.

Lemma elem_of_rev (s : str) x : x ∈ rev s ↔ x ∈ s.
Proof. rewrite !list_elem_of_In. symmetry. apply in_rev. Qed.

Lemma strip_subset s x : x ∈ strip s → x ∈ s.
Proof.
  unfold strip, rstrip. intros H. apply (proj1 (elem_of_rev _ _)) in H.
  apply lstrip_subset in H. apply (proj1 (elem_of_rev _ _)) in H.
  by apply lstrip_subset in H.
Qed.

Lemma split_line_one_char ch line :
  split_line [ch] line = Some (split_scan [ch] 0 [] line).
Proof. unfold split_line. repeat case_decide; done. Qed.

(** X7. With a one-character delimiter, given literally or through the
    hints [tab] and [comma], no field of the returned CSV text contains
    that character. *)
Theorem cells_exclude_delimiter (ocr_results : list Item) (delimiter : str)
    (ch : char) (csv md : str) (rows cols : nat) :
  delimiter = [ch] ∨ (delimiter = py "tab" ∧ ch = TAB)
  ∨ (delimiter = py "comma" ∧ ch = COMMA) →
  convert_to_table ocr_results delimiter = Returned (csv, md, rows, cols) →
  Forall (Forall (λ field, ch ∉ field)) (csv_parse csv).
Proof.
  intros Hd H.
  assert (H' : convert_to_table ocr_results [ch] = Returned (csv, md, rows, cols)).
  { destruct Hd as [-> | [[-> ->] | [-> ->]]]; [done | |].
    - by rewrite <- (proj1 (delimiter_aliases_eq ocr_results)).
    - by rewrite <- (proj2 (delimiter_aliases_eq ocr_results)). }
  clear H Hd. apply convert_to_table_grid in H'
    as (td & _ & Hsrc & _ & _ & -> & _).
  rewrite csv_parse_writerows. unfold pad_rows. apply Forall_fmap.
  eapply Forall_impl; [exact Hsrc|].
  assert (Hdet : detect_delimiter [ch] (text_lines ocr_results) = [ch]).
  { unfold detect_delimiter. by case_decide. }
  rewrite Hdet. intros row (line & cells & Hsplit & ->). simpl.
  rewrite split_line_one_char in Hsplit. injection Hsplit as <-.
  apply Forall_app. split.
  - unfold clean_cells. apply Forall_forall. intros c Hc.
    apply list_elem_of_filter in Hc as [_ Hc].
    apply list_elem_of_fmap in Hc as (piece & -> & Hpiece).
    intros Hin. apply strip_subset in Hin.
    pose proof (split_scan_excludes ch line [] (not_elem_of_nil ch)) as Hall.
    by apply (proj1 (Forall_forall _ _) Hall piece Hpiece).
  - apply Forall_forall. intros c Hc. apply elem_of_replicate in Hc as [-> _].
    apply not_elem_of_nil.
Qed.

Lemma cells_exclude_delimiter_witness :
  ∃ csv, Forall (Forall (λ field, 59 ∉ field)) (csv_parse csv) ∧
         csv_parse csv = [[py "a"; py "b c"]].
Proof.
  eexists. split.
  - apply (cells_exclude_delimiter [mkItem (py "a;b c;") 1%float []] (py ";")
             59 _ _ _ _ (or_introl eq_refl) eq_refl).
  - reflexivity.
Defined.

(** ** Image OCR adapter: what every item satisfies *)

Lemma collect_from_elem scores boxes texts : ∀ k item,
  item ∈ collect_from k texts scores boxes →
  ∃ i t, texts !! i = Some t ∧ t ≠ [] ∧ item = item_at scores boxes (k + i) t.
Proof.
  induction texts as [|t texts IH]; intros k item Hin; [by apply elem_of_nil in Hin|].
  rewrite collect_from_cons in Hin. apply elem_of_app in Hin as [Hin | Hin].
  - destruct (decide (t = [])) as [->|Hne]; [by apply elem_of_nil in Hin|].
    apply list_elem_of_singleton in Hin as ->.
    exists 0%nat, t. by rewrite Nat.add_0_r.
  - apply IH in Hin as (i & t' & Hi & Hne & ->).
    exists (S i), t'. split_and!; [done | done |]. f_equal. lia.
Qed.

Lemma normalize_elem result item :
  item ∈ normalize result →
  ∃ res texts scores boxes i t,
    res ∈ result ∧ extract res = Some (texts, scores, boxes) ∧
    texts !! i = Some t ∧ t ≠ [] ∧ item = item_at scores boxes i t.
Proof.
  unfold normalize. intros Hin. apply list_elem_of_join in Hin as (l & Hin & Hl).
  apply list_elem_of_fmap in Hl as (res & -> & Hres).
  destruct (extract res) as [[[texts scores] boxes]|] eqn:E;
    [|by apply elem_of_nil in Hin].
  apply collect_from_elem in Hin as (i & t & Hi & Hne & ->).
  by exists res, texts, scores, boxes, i, t.
Qed.

(** X8. Whatever the engine returned, no item of the adapter has an empty
    text and none has a confidence of zero. *)
Theorem items_are_filled (result : list EngineResult) :
  Forall (λ item, item_text item ≠ [] ∧
                  float_truthy (item_confidence item) = true)
         (normalize result).
Proof.
  apply Forall_forall. intros item Hin.
  apply normalize_elem in Hin
    as (res & texts & scores & boxes & i & t & _ & _ & _ & Hne & ->).
  split; [done|]. unfold item_at; simpl.
  destruct (float_truthy (default 1%float (scores !! i))) eqn:E; [exact E|].
  reflexivity.
Qed.

(** X9. A result that comes with its texts only, by attribute or as a
    dictionary, gives items that all have confidence 1.0 and an empty
    bbox. *)
Theorem texts_only_defaults (texts : list str) :
  Forall (λ item, item_confidence item = 1%float ∧ item_bbox item = [])
         (normalize [RecAttrs texts None None]) ∧
  normalize [RecDict texts None None] = normalize [RecAttrs texts None None].
Proof.
  split; [|done]. apply Forall_forall. intros item Hin.
  apply normalize_elem in Hin
    as (res & ts & scores & boxes & i & t & Hres & Hex & Hi & _ & ->).
  apply list_elem_of_singleton in Hres as ->. injection Hex as <- <- <-.
  apply lookup_lt_Some in Hi. unfold item_at.
  rewrite !lookup_replicate_2 by done. done.
Qed.

Lemma collect_from_beyond scores boxes texts : ∀ k,
  (length scores ≤ k)%nat → (length boxes ≤ k)%nat →
  Forall (λ item, item_confidence item = 1%float ∧ item_bbox item = [])
         (collect_from k texts scores boxes).
Proof.
  intros k Hs Hb. apply Forall_forall. intros item Hin.
  apply collect_from_elem in Hin as (i & t & _ & _ & ->). unfold item_at.
  rewrite (lookup_ge_None_2 scores), (lookup_ge_None_2 boxes) by lia. done.
Qed.

(** X10. When a result carries a single score and box but a list of texts,
    only the first text can receive them: the items of all the later texts
    have confidence 1.0 and an empty bbox. *)
Theorem singular_shape_later_texts (first : str) (later : list str)
    (score : option float) (box : option Geometry) :
  ∃ head tail,
    normalize [TextAttr (inr (first :: later)) score box] = head ++ tail ∧
    (length head ≤ 1)%nat ∧
    map item_text tail = filter (λ t, t ≠ []) later ∧
    Forall (λ item, item_confidence item = 1%float ∧ item_bbox item = []) tail.
Proof.
  set (scores := [default 1%float score]).
  set (boxes := [default (PySeq []) box]).
  exists (if decide (first = []) then [] else [item_at scores boxes 0 first]),
         (collect_from 1 later scores boxes).
  split_and!.
  - unfold normalize. simpl. rewrite app_nil_r.
    unfold collect_items. by rewrite collect_from_cons.
  - case_decide; simpl; lia.
  - apply collect_from_texts.
  - by apply collect_from_beyond.
Qed.

(** ** The single-file handlers, path by path *)

Lemma try_finally_cleanup_world {A} path (m : M A) w :
  try_finally m (cleanup path) w
  = ((m w).1, with_uploads (delete path) (m w).2).
Proof.
  unfold try_finally, cleanup, mbind, M_bind, path_exists.
  destruct (m w) as [r w']; simpl.
  case_bool_decide as Hp; simpl; [done|].
  f_equal. destruct w' as [u i c e]. unfold with_uploads; simpl. f_equal.
  symmetry. apply delete_id. by apply eq_None_not_Some.
Qed.

Lemma run_ocr_reads env file_ext path w content :
  uploads w !! path = Some content →
  run_ocr env file_ext path w
  = ((adapter_outcome env file_ext content (runtime w)).1,
     with_runtime (adapter_outcome env file_ext content (runtime w)).2 w).
Proof.
  intros H. unfold run_ocr, adapter_outcome, mbind, M_bind,
    process_pdf_ocr, process_image_ocr.
  case_decide; rewrite H; simpl.
  - by destruct (process_pdf_ocr_full _ _ _ _ _) as [[e|items] pw'].
  - by destruct (process_image_ocr_full _ _ _ _) as [[e|items] pw'].
Qed.

Lemma settled_written env w file_ext content reads pw :
  with_uploads (delete (scratch_path env w file_ext))
    (mkWorld (<[scratch_path env w file_ext := content]> (uploads w))
             (S (ids_drawn w)) (S (clock w) + reads) pw)
  = settled env w file_ext reads pw.
Proof. unfold with_uploads, settled; simpl. by rewrite delete_insert_eq. Qed.

(** The handler after a successful write. *)
Lemma ocr_recognize_written env file w file_ext :
  validate_file env (filename file) = (true, file_ext) →
  disk_write env (scratch_path env w file_ext) (content file) = Written →
  ocr_recognize env file w =
  match adapter_outcome env file_ext (content file) (runtime w) with
  | (Returned (items, file_type), pw') =>
      (Returned (mkOCRResponse true (filename file) file_type items
                   (join [LF] (map item_text items))
                   (total_seconds env (clock w) (S (clock w)))
                   (isoformat env (S (S (clock w))))),
       settled env w file_ext 2 pw')
  | (Raised e, pw') =>
      (Raised (HTTPException 500 (MSG_OCR_FAILED ++ str_exn e)),
       settled env w file_ext 0 pw')
  end.
Proof.
  intros Hvalid Hdisk.
  rewrite (ocr_recognize_valid _ _ _ _ Hvalid), try_finally_cleanup_world.
  unfold try_except, recognize_try, mbind, M_bind, write_file.
  rewrite Hdisk. simpl.
  rewrite (run_ocr_reads _ _ _ _ (content file)) by apply lookup_insert_eq.
  simpl.
  destruct (adapter_outcome env file_ext (content file) (runtime w))
    as [[e|[items ty]] pw'];
    simpl; f_equal; rewrite <- settled_written with (content := content file);
    unfold with_uploads, with_runtime; simpl; repeat f_equal; lia.
Qed.

(** The handler after a failed write. *)
Lemma ocr_recognize_unwritten env file w file_ext e :
  validate_file env (filename file) = (true, file_ext) →
  disk_write env (scratch_path env w file_ext) (content file) = NotCreated e
  ∨ (∃ kept, disk_write env (scratch_path env w file_ext) (content file)
             = Partial kept e) →
  ocr_recognize env file w =
  (Raised (HTTPException 500 (MSG_OCR_FAILED ++ e)),
   settled env w file_ext 0 (runtime w)).
Proof.
  intros Hvalid Hdisk.
  rewrite (ocr_recognize_valid _ _ _ _ Hvalid), try_finally_cleanup_world.
  unfold try_except, recognize_try, mbind, M_bind, write_file.
  destruct Hdisk as [-> | [kept ->]]; simpl; f_equal;
    unfold with_uploads, settled; simpl; f_equal; try lia.
  apply delete_insert_eq.
Qed.

Lemma ocr_to_table_written env file w file_ext :
  validate_file env (filename file) = (true, file_ext) →
  disk_write env (scratch_path env w file_ext) (content file) = Written →
  ocr_to_table env file w =
  match adapter_outcome env file_ext (content file) (runtime w) with
  | (Returned (items, _), pw') =>
      match convert_to_table items AUTO with
      | Returned (csv, md, rows, cols) =>
          (Returned (mkTableResponse true csv md rows cols),
           settled env w file_ext 0 pw')
      | Raised e =>
          (Raised (HTTPException 500 (MSG_TABLE_FAILED ++ str_exn e)),
           settled env w file_ext 0 pw')
      end
  | (Raised e, pw') =>
      (Raised (HTTPException 500 (MSG_TABLE_FAILED ++ str_exn e)),
       settled env w file_ext 0 pw')
  end.
Proof.
  intros Hvalid Hdisk.
  rewrite (ocr_to_table_valid _ _ _ _ Hvalid), try_finally_cleanup_world.
  unfold try_except, table_try, mbind, M_bind, write_file.
  rewrite Hdisk. simpl.
  rewrite (run_ocr_reads _ _ _ _ (content file)) by apply lookup_insert_eq.
  simpl.
  destruct (adapter_outcome env file_ext (content file) (runtime w))
    as [[e|[items ty]] pw']; simpl.
  - f_equal. rewrite <- settled_written with (content := content file).
    unfold with_uploads, with_runtime; simpl. repeat f_equal; lia.
  - destruct (convert_to_table items AUTO) as [e|[[[csv md] rows] cols]];
      simpl; f_equal; rewrite <- settled_written with (content := content file);
      unfold with_uploads, with_runtime; simpl; repeat f_equal; lia.
Qed.

Lemma ocr_to_table_unwritten env file w file_ext e :
  validate_file env (filename file) = (true, file_ext) →
  disk_write env (scratch_path env w file_ext) (content file) = NotCreated e
  ∨ (∃ kept, disk_write env (scratch_path env w file_ext) (content file)
             = Partial kept e) →
  ocr_to_table env file w =
  (Raised (HTTPException 500 (MSG_TABLE_FAILED ++ e)),
   settled env w file_ext 0 (runtime w)).
Proof.
  intros Hvalid Hdisk.
  rewrite (ocr_to_table_valid _ _ _ _ Hvalid), try_finally_cleanup_world.
  unfold try_except, table_try, mbind, M_bind, write_file.
  destruct Hdisk as [-> | [kept ->]]; simpl; f_equal;
    unfold with_uploads, settled; simpl; f_equal; try lia.
  apply delete_insert_eq.
Qed.

Lemma disk_write_cases env path content :
  disk_write env path content = Written
  ∨ ∃ e, disk_write env path content = NotCreated e
         ∨ ∃ kept, disk_write env path content = Partial kept e.
Proof.
  destruct (disk_write env path content) as [|e|kept e]; [by left | |];
    right; exists e; [by left | right; by exists kept].
Qed.

(** *** How often the engine is run *)

Lemma process_image_ocr_full_runs env lenv image pw :
  (page_runs pw ≤ page_runs (process_image_ocr_full env lenv image pw).2
   ≤ S (page_runs pw))%nat.
Proof.
  unfold process_image_ocr_full.
  destruct (get_ocr_engine lenv (loader pw)) as [[e|engine] l']; simpl; [lia|].
  destruct (ocr_predict env image); simpl; lia.
Qed.

Lemma ocr_pages_runs env lenv penv images : ∀ i all_results pw,
  (page_runs pw ≤ page_runs (ocr_pages env lenv penv i images all_results pw).2
   ≤ page_runs pw + length images)%nat.
Proof.
  induction images as [|img rest IH]; intros i all_results pw; simpl; [lia|].
  match goal with
  | |- context [process_image_ocr_full env lenv ?b ?p] =>
      pose proof (process_image_ocr_full_runs env lenv b p) as H;
      destruct (process_image_ocr_full env lenv b p) as [[e|page] pw']
  end; simpl in *; [lia|].
  match goal with
  | |- context [ocr_pages env lenv penv ?j rest ?a ?p] =>
      specialize (IH j a p)
  end. simpl in IH. lia.
Qed.

Lemma process_pdf_ocr_full_runs env lenv penv pdf pw :
  (page_runs pw ≤ page_runs (process_pdf_ocr_full env lenv penv pdf pw).2)%nat.
Proof.
  unfold process_pdf_ocr_full.
  destruct (get_structure_engine lenv (loader pw)) as [[e|[engine|]] l'];
    simpl; [lia | by destruct (structure_predict penv pdf) |].
  destruct (rasterize penv pdf) as [e|images]; simpl; [lia|].
  match goal with
  | |- context [ocr_pages env lenv penv ?j images ?a ?p] =>
      pose proof (ocr_pages_runs env lenv penv images j a p) as H;
      destruct (ocr_pages env lenv penv j images a p) as [[e|items] pw'']
  end; simpl in *; lia.
Qed.

Lemma adapter_outcome_runs env file_ext content pw :
  (page_runs pw ≤ page_runs (adapter_outcome env file_ext content pw).2)%nat.
Proof.
  unfold adapter_outcome. case_decide.
  - pose proof (process_pdf_ocr_full_runs env (load_env env) (pdf_env env)
                  content pw) as Hr.
    by destruct (process_pdf_ocr_full _ _ _ _ _) as [[e|items] pw'].
  - pose proof (process_image_ocr_full_runs env (load_env env) content pw)
      as [Hr _].
    by destruct (process_image_ocr_full _ _ _ _) as [[e|items] pw'].
Qed.

(** The three ways the single-file handler ends. *)
Lemma ocr_recognize_cases env file w :
  (∃ reason, validate_file env (filename file) = (false, reason) ∧
     ocr_recognize env file w = (Raised (HTTPException 400 reason), tick w)) ∨
  (∃ file_ext detail pw',
     validate_file env (filename file) = (true, file_ext) ∧
     (page_runs (runtime w) ≤ page_runs pw')%nat ∧
     ocr_recognize env file w
     = (Raised (HTTPException 500 (MSG_OCR_FAILED ++ detail)),
        settled env w file_ext 0 pw')) ∨
  (∃ file_ext result pw',
     validate_file env (filename file) = (true, file_ext) ∧
     (page_runs (runtime w) ≤ page_runs pw')%nat ∧
     ocr_success result = true ∧
     ocr_recognize env file w = (Returned result, settled env w file_ext 2 pw')).
Proof.
  destruct (validate_file env (filename file)) as [[|] x] eqn:Hv.
  - right.
    destruct (disk_write_cases env (scratch_path env w x) (content file))
      as [Hd | (e & Hd)].
    + rewrite (ocr_recognize_written _ _ _ _ Hv Hd).
      pose proof (adapter_outcome_runs env x (content file) (runtime w)) as Hr.
      destruct (adapter_outcome env x (content file) (runtime w))
        as [[e|[items ty]] pw'].
      * left. by exists x, (str_exn e), pw'.
      * right. eexists x, _, pw'. split; [done|]. split; [done|].
        split; [|reflexivity]. reflexivity.
    + left. exists x, e, (runtime w).
      by rewrite (ocr_recognize_unwritten _ _ _ _ _ Hv Hd).
  - left. exists x. split; [done|]. by apply ocr_recognize_invalid.
Qed.

(** The ways the table handler ends. *)
Lemma ocr_to_table_cases env file w :
  (∃ reason, validate_file env (filename file) = (false, reason) ∧
     ocr_to_table env file w = (Raised (HTTPException 400 reason), tick w)) ∨
  (∃ file_ext detail pw',
     validate_file env (filename file) = (true, file_ext) ∧
     (disk_write env (scratch_path env w file_ext) (content file) ≠ Written
      ∨ ∃ e, adapter_outcome env file_ext (content file) (runtime w)
             = (Raised e, pw')) ∧
     ocr_to_table env file w
     = (Raised (HTTPException 500 (MSG_TABLE_FAILED ++ detail)),
        settled env w file_ext 0 pw')) ∨
  (∃ file_ext items file_type csv md rows cols pw',
     validate_file env (filename file) = (true, file_ext) ∧
     disk_write env (scratch_path env w file_ext) (content file) = Written ∧
     adapter_outcome env file_ext (content file) (runtime w)
     = (Returned (items, file_type), pw') ∧
     convert_to_table items AUTO = Returned (csv, md, rows, cols) ∧
     ocr_to_table env file w
     = (Returned (mkTableResponse true csv md rows cols),
        settled env w file_ext 0 pw')).
Proof.
  destruct (validate_file env (filename file)) as [[|] x] eqn:Hv.
  - right.
    destruct (disk_write_cases env (scratch_path env w x) (content file))
      as [Hd | (e & Hd)].
    + rewrite (ocr_to_table_written _ _ _ _ Hv Hd).
      destruct (adapter_outcome env x (content file) (runtime w))
        as [[e|[items ty]] pw'] eqn:Ho.
      * left. exists x, (str_exn e), pw'. split; [done|].
        split; [right; by exists e | done].
      * right.
        destruct (convert_to_table_returns items AUTO)
          as [[[[csv md] rows] cols] Hq]; [discriminate|].
        rewrite Hq. by exists x, items, ty, csv, md, rows, cols, pw'.
    + left. exists x, e, (runtime w). split; [done|].
      rewrite (ocr_to_table_unwritten _ _ _ _ _ Hv Hd).
      split; [left | done]. by destruct Hd as [-> | [kept ->]].
  - left. exists x. split; [done|]. by apply ocr_to_table_invalid.
Qed.

(** What the framework sends for a handler that was run. *)
Lemma respond_cases {A} env how (encode : A → json) (m : M A) w :
  (respond env how encode m w).2 = (m w).2 ∧
  (respond env how encode m w).1 =
  match (m w).1 with
  | Returned a => send env how (encode a)
  | Raised (HTTPException status_code detail) =>
      http_exception_handler status_code detail
  | Raised e => general_exception_handler e
  end.
Proof. unfold respond. by destruct (m w) as [[[sc d|msg]|a] w']. Qed.

(** X11. [/api/ocr] answers 422 exactly when the request has no [file]
    part, and 400 exactly when it has one whose filename the validator
    rejects; every answer has status 200, 400, 422 or 500.  When the handler
    raises, it raises an [HTTPException] with status 400 or 500 and the
    answer is the envelope with [success] false, the detail and that status
    as [status_code].  When the handler returns, the answer is what the
    framework makes of the result: status 200 with the body it serialised
    or, when the serialisation fails, the answer 500 of the catch-all
    handler, which has a [detail] and no [status_code]. *)
Theorem ocr_status_classes (env : Env) (file : option UploadFile) (w : World) :
  let resp := (post_api_ocr env file w).1 in
  (status resp = 422%Z ↔ file = None) ∧
  (status resp = 200%Z ∨ status resp = 400%Z ∨ status resp = 422%Z
   ∨ status resp = 500%Z) ∧
  ∀ f, file = Some f →
    (status resp = 400%Z ↔ (validate_file env (filename f)).1 = false) ∧
    match (ocr_recognize env f w).1 with
    | Raised (HTTPException status_code detail) =>
        (status_code = 400%Z ∨ status_code = 500%Z) ∧
        resp = mkResponse status_code
                 (JObj [ (py "success", JBool false);
                         (py "error", JStr detail);
                         (py "status_code", JInt status_code) ])
    | Raised (PyError _) => False
    | Returned result =>
        ocr_success result = true ∧
        match render env ByModel (json_of_ocr result) with
        | Sent sent => resp = mkResponse 200 sent
        | Unsendable reason =>
            resp = mkResponse 500
                     (JObj [ (py "success", JBool false);
                             (py "error", JStr MSG_INTERNAL);
                             (py "detail", JStr reason) ])
        end
    end.
Proof.
  destruct file as [f|]; simpl; [|by split_and!; [| right; right; left |]].
  destruct (respond_cases env ByModel json_of_ocr (ocr_recognize env f) w)
    as [_ ->].
  match goal with
  | |- ?A ∧ ?B ∧ (∀ f0, Some f = Some f0 → @?C f0) =>
      enough (H : A ∧ B ∧ C f)
        by (destruct H as (H1 & H2 & H3);
            split_and!; [done | done | by intros f' [= <-]])
  end.
  cbn beta.
  destruct (ocr_recognize_cases env f w)
    as [(reason & Hv & ->) | [(x & detail & pw' & Hv & _ & ->)
                             | (x & result & pw' & Hv & _ & Hs & ->)]];
    rewrite Hv; simpl.
  - split_and!; [done | by right; left | done | by left | done].
  - split_and!; [done | by right; right; right | done | by right | done].
  - unfold send.
    destruct (render env ByModel (json_of_ocr result)) as [sent|reason] eqn:Hr;
      simpl.
    + split_and!; [done | by left | done | done | done].
    + split_and!; [done | by right; right; right | done | done | done].
Qed.

Lemma ocr_status_classes_witness :
  status (post_api_ocr demo_env None empty_world).1 = 422%Z ∧
  status (post_api_ocr demo_env (Some demo_exe) empty_world).1 = 400%Z.
Proof.
  split.
  - by apply (ocr_status_classes demo_env None empty_world).
  - destruct (ocr_status_classes demo_env (Some demo_exe) empty_world)
      as (_ & _ & H).
    destruct (H demo_exe eq_refl) as [H400 _]. by apply H400.
Defined.

(** X12. When the upload is accepted and written and the adapter returns,
    the handler of [/api/ocr] returns the items of the adapter in their
    order, their texts joined by line feeds as [full_text], and the file
    type [pdf] for the extension [.pdf] and [image] for any other.  The
    answer is what the framework makes of that result: when it serialises
    it to a body, status 200 with that body.  Afterwards the scratch file
    is gone and one id has been drawn; the engine has been run once for an
    image whose engine loads, and for a PDF never fewer times than
    before. *)
Theorem ocr_success_payload (env : Env) (file : UploadFile) (w : World)
    (file_ext : str) (items : list Item) (file_type : str) (pw' : PdfWorld) :
  validate_file env (filename file) = (true, file_ext) →
  disk_write env (scratch_path env w file_ext) (content file) = Written →
  adapter_outcome env file_ext (content file) (runtime w)
  = (Returned (items, file_type), pw') →
  let seconds := total_seconds env (clock w) (S (clock w)) in
  let stamp := isoformat env (S (S (clock w))) in
  let result :=
    mkOCRResponse true (filename file) file_type items
      (join [LF] (map item_text items)) seconds stamp in
  let w' := settled env w file_ext 2 pw' in
    ocr_recognize env file w = (Returned result, w') ∧
    post_api_ocr env (Some file) w = (send env ByModel (json_of_ocr result), w') ∧
    (∀ sent, render env ByModel (json_of_ocr result) = Sent sent →
       post_api_ocr env (Some file) w = (mkResponse 200 sent, w')) ∧
    json_of_ocr result =
      JObj [ (py "success", JBool true);
             (py "filename", JStr (filename file));
             (py "file_type", JStr file_type);
             (py "results", JArr (map json_of_item items));
             (py "full_text", JStr (join [LF] (map item_text items)));
             (py "processing_time", JFloat seconds);
             (py "timestamp", JStr stamp) ] ∧
    file_type = (if decide (file_ext = py ".pdf") then py "pdf" else py "image") ∧
    uploads w' !! scratch_path env w file_ext = None ∧
    ids_drawn w' = S (ids_drawn w) ∧
    (engine_calls w ≤ engine_calls w')%nat ∧
    (file_ext ≠ py ".pdf" → engine_calls w' = S (engine_calls w)).
Proof.
  intros Hvalid Hdisk Hout. cbn zeta.
  unfold post_api_ocr, respond.
  rewrite (ocr_recognize_written _ _ _ _ Hvalid Hdisk), Hout.
  split_and!.
  - reflexivity.
  - reflexivity.
  - intros sent Hsent. by rewrite (send_sent _ _ _ _ Hsent).
  - reflexivity.
  - unfold adapter_outcome, ALLOWED_PDF_EXTENSIONS in Hout.
    destruct (decide (file_ext = py ".pdf")) as [E|E].
    + rewrite decide_True in Hout by (by apply elem_of_singleton).
      destruct (process_pdf_ocr_full _ _ _ _ _) as [[e|its] p]; [done|].
      by injection Hout as _ <- _.
    + rewrite decide_False in Hout by (by rewrite elem_of_singleton).
      destruct (process_image_ocr_full _ _ _ _) as [[e|its] p]; [done|].
      by injection Hout as _ <- _.
  - apply lookup_delete_eq.
  - reflexivity.
  - pose proof (adapter_outcome_runs env file_ext (content file) (runtime w))
      as H. by rewrite Hout in H.
  - intros E. unfold adapter_outcome, ALLOWED_PDF_EXTENSIONS in Hout.
    rewrite decide_False in Hout by (by rewrite elem_of_singleton).
    unfold process_image_ocr_full in Hout.
    destruct (get_ocr_engine _ _) as [[e|engine] l']; [done|].
    destruct (ocr_predict env (content file)); [done|].
    by injection Hout as _ _ <-.
Qed.

Lemma ocr_success_payload_witness :
  ∃ seconds stamp w',
    post_api_ocr demo_env (Some demo_scan) empty_world =
    (mkResponse 200
       (JObj [ (py "success", JBool true);
               (py "filename", JStr (py "scan.png"));
               (py "file_type", JStr (py "image"));
               (py "results", JArr [json_of_item (mkItem (py "hi") 1%float [])]);
               (py "full_text", JStr (py "hi"));
               (py "processing_time", JFloat seconds);
               (py "timestamp", JStr stamp) ]), w') ∧
    uploads w' = ∅ ∧ engine_calls w' = 1%nat.
Proof.
  destruct (ocr_success_payload demo_env demo_scan empty_world (py ".png")
              [mkItem (py "hi") 1%float []] (py "image")
              (adapter_outcome demo_env (py ".png") (content demo_scan)
                 (runtime empty_world)).2)
    as (_ & _ & H & _); [reflexivity | reflexivity | reflexivity |].
  eexists _, _, _. split; [apply H; reflexivity|].
  split; reflexivity.
Defined.

(** X13. When the upload is accepted and written and the adapter raises,
    [/api/ocr] answers 500 and its error is the fixed prefix followed by
    the text of the exception.  An [HTTPException] raised by the adapter
    is reported in the same way, with its own status code kept only as
    text inside the error. *)
Theorem ocr_engine_failure (env : Env) (file : UploadFile) (w : World)
    (file_ext : str) (e : Exn) (pw' : PdfWorld) :
  validate_file env (filename file) = (true, file_ext) →
  disk_write env (scratch_path env w file_ext) (content file) = Written →
  adapter_outcome env file_ext (content file) (runtime w) = (Raised e, pw') →
  post_api_ocr env (Some file) w =
  (mkResponse 500
     (JObj [ (py "success", JBool false);
             (py "error", JStr (MSG_OCR_FAILED ++ str_exn e));
             (py "status_code", JInt 500) ]),
   settled env w file_ext 0 pw') ∧
  ∀ status_code detail, e = HTTPException status_code detail →
    str_exn e = str_of_Z status_code ++ py ": " ++ detail.
Proof.
  intros Hvalid Hdisk Hout. split.
  - unfold post_api_ocr, respond.
    by rewrite (ocr_recognize_written _ _ _ _ Hvalid Hdisk), Hout.
  - by intros sc d ->.
Qed.

Lemma ocr_engine_failure_witness :
  ∃ w',
    post_api_ocr demo_env (Some (mkUpload (py "doc.pdf") [])) empty_world =
    (mkResponse 500
       (JObj [ (py "success", JBool false);
               (py "error",
                JStr (MSG_OCR_FAILED ++ py "500: " ++ MSG_PDF_DEPENDENCY));
               (py "status_code", JInt 500) ]), w').
Proof.
  destruct (ocr_engine_failure demo_env (mkUpload (py "doc.pdf") [])
              empty_world (py ".pdf")
              (HTTPException 500 MSG_PDF_DEPENDENCY)
              (adapter_outcome demo_env (py ".pdf") [] (runtime empty_world)).2)
    as [H _]; [reflexivity | reflexivity | reflexivity |].
  eexists. exact H.
Defined.

(** X14. When the upload is accepted but cannot be written, no engine is
    loaded or run; [/api/ocr] answers 500 with the prefix followed by the
    text of the write error, and what was written of the file is removed. *)
Theorem ocr_disk_failure (env : Env) (file : UploadFile) (w : World)
    (file_ext e : str) :
  validate_file env (filename file) = (true, file_ext) →
  disk_write env (scratch_path env w file_ext) (content file) = NotCreated e
  ∨ (∃ kept, disk_write env (scratch_path env w file_ext) (content file)
             = Partial kept e) →
  ∃ w',
    post_api_ocr env (Some file) w =
    (mkResponse 500
       (JObj [ (py "success", JBool false);
               (py "error", JStr (MSG_OCR_FAILED ++ e));
               (py "status_code", JInt 500) ]), w') ∧
    engine_calls w' = engine_calls w ∧
    runtime w' = runtime w ∧
    uploads w' !! scratch_path env w file_ext = None.
Proof.
  intros Hvalid Hdisk. exists (settled env w file_ext 0 (runtime w)).
  unfold post_api_ocr, respond.
  rewrite (ocr_recognize_unwritten _ _ _ _ _ Hvalid Hdisk). split_and!.
  - reflexivity.
  - reflexivity.
  - reflexivity.
  - apply lookup_delete_eq.
Qed.

Lemma ocr_disk_failure_witness :
  ∃ w',
    post_api_ocr demo_env (Some demo_large) empty_world =
    (mkResponse 500
       (JObj [ (py "success", JBool false);
               (py "error", JStr (MSG_OCR_FAILED ++ py "No space left on device"));
               (py "status_code", JInt 500) ]), w') ∧
    engine_calls w' = 0%nat.
Proof.
  destruct (ocr_disk_failure demo_env demo_large empty_world (py ".pdf")
              (py "No space left on device"))
    as (w' & H & Hcalls & _); [reflexivity | right; eexists; reflexivity |].
  exists w'. split; [exact H | exact Hcalls].
Defined.

(** X15. On [/api/ocr/table] the conversion itself never fails: when the
    upload is accepted and written and the adapter returns its items, the
    handler returns the table that the hint [auto] gives for them, and the
    answer is what the framework makes of it: status 200 with the body it
    was serialised to, which is that table when it is sent as it is. *)
Theorem table_endpoint_success (env : Env) (file : UploadFile) (w : World)
    (file_ext : str) (items : list Item) (file_type : str) (pw' : PdfWorld) :
  validate_file env (filename file) = (true, file_ext) →
  disk_write env (scratch_path env w file_ext) (content file) = Written →
  adapter_outcome env file_ext (content file) (runtime w)
  = (Returned (items, file_type), pw') →
  ∃ csv md rows cols,
    let table :=
      JObj [ (py "success", JBool true);
             (py "csv_content", JStr csv);
             (py "markdown_table", JStr md);
             (py "row_count", JInt (Z.of_nat rows));
             (py "col_count", JInt (Z.of_nat cols)) ] in
    convert_to_table items AUTO = Returned (csv, md, rows, cols) ∧
    ocr_to_table env file w
    = (Returned (mkTableResponse true csv md rows cols),
       settled env w file_ext 0 pw') ∧
    post_api_ocr_table env (Some file) w
    = (send env Plain table, settled env w file_ext 0 pw') ∧
    (∀ sent, render env Plain table = Sent sent →
       post_api_ocr_table env (Some file) w
       = (mkResponse 200 sent, settled env w file_ext 0 pw')).
Proof.
  intros Hvalid Hdisk Hout.
  destruct (convert_to_table_returns items AUTO)
    as [[[[csv md] rows] cols] Hq]; [discriminate|].
  exists csv, md, rows, cols. cbn zeta. split; [done|].
  unfold post_api_ocr_table, respond.
  rewrite (ocr_to_table_written _ _ _ _ Hvalid Hdisk), Hout, Hq.
  split_and!; [done | done |].
  intros sent Hsent. unfold json_of_table. cbn [tbl_success csv_content
    markdown_table row_count col_count].
  by rewrite (send_sent _ _ _ _ Hsent).
Qed.

Lemma table_endpoint_success_witness :
  ∃ w',
    post_api_ocr_table demo_env
      (Some (mkUpload (py "t.png") (text_bytes [97; 9; 98; 10; 99; 9; 100])))
      empty_world =
    (mkResponse 200
       (JObj [ (py "success", JBool true);
               (py "csv_content",
                JStr (py "a,b" ++ [CR; LF] ++ py "c,d" ++ [CR; LF]));
               (py "markdown_table",
                JStr (py "| a | b |" ++ [LF] ++ py "| --- | --- |" ++ [LF]
                        ++ py "| c | d |"));
               (py "row_count", JInt 2);
               (py "col_count", JInt 2) ]), w').
Proof.
  destruct (table_endpoint_success demo_env
              (mkUpload (py "t.png") (text_bytes [97; 9; 98; 10; 99; 9; 100]))
              empty_world (py ".png")
              [mkItem [97; 9; 98] 1%float []; mkItem [99; 9; 100] 1%float []]
              (py "image")
              (adapter_outcome demo_env (py ".png")
                 (text_bytes [97; 9; 98; 10; 99; 9; 100])
                 (runtime empty_world)).2)
    as (csv & md & rows & cols & Hq & _ & _ & H);
    [reflexivity | reflexivity | reflexivity |].
  vm_compute in Hq. injection Hq as <- <- <- <-.
  eexists. apply H. reflexivity.
Defined.

(** *** The batch endpoint: bounds *)

Lemma ocr_recognize_counters env file w :
  let w' := (ocr_recognize env file w).2 in
  (engine_calls w ≤ engine_calls w')%nat ∧
  (ids_drawn w ≤ ids_drawn w' ≤ S (ids_drawn w))%nat.
Proof.
  unfold engine_calls.
  destruct (ocr_recognize_cases env file w)
    as [(reason & _ & ->) | [(x & detail & pw' & _ & Hruns & ->)
                            | (x & result & pw' & _ & Hruns & _ & ->)]];
    simpl; lia.
Qed.

Lemma world_after_counters env files : ∀ w,
  (engine_calls w ≤ engine_calls (world_after env files w))%nat ∧
  (ids_drawn w ≤ ids_drawn (world_after env files w)
   ≤ ids_drawn w + length files)%nat.
Proof.
  induction files as [|file rest IH]; intros w; simpl; [lia|].
  pose proof (ocr_recognize_counters env file w) as H. simpl in H.
  specialize (IH (ocr_recognize env file w).2). lia.
Qed.

(** X16. The batch endpoint answers 422, without running its handler, when
    the request has no file.  Otherwise the handler never raises: it
    returns a body with [success] true, also when every file fails, in
    which [total] is the number of files and [processed] never exceeds it;
    the answer is what the framework makes of that body, status 200 with
    the body it was serialised to.  At most one id is drawn per file, and
    the number of engine runs never decreases. *)
Theorem batch_bounds (env : Env) (files : list UploadFile) (w : World) :
  let resp := (post_api_ocr_batch env files w).1 in
  (status resp = 422%Z ↔ files = []) ∧
  (status resp = 200%Z ∨ status resp = 422%Z ∨ status resp = 500%Z) ∧
  (files = [] →
     post_api_ocr_batch env files w
     = (mkResponse 422 (missing_field env (py "files")), w)) ∧
  (files ≠ [] →
     ∃ fields processed w',
       ocr_batch env files w = (Returned (JObj fields), w') ∧
       post_api_ocr_batch env files w = (send env Plain (JObj fields), w') ∧
       (∀ sent, render env Plain (JObj fields) = Sent sent →
          post_api_ocr_batch env files w = (mkResponse 200 sent, w')) ∧
       lookup_field (py "success") fields = Some (JBool true) ∧
       lookup_field (py "total") fields
       = Some (JInt (Z.of_nat (length files))) ∧
       lookup_field (py "processed") fields
       = Some (JInt (Z.of_nat processed)) ∧
       (processed ≤ length files)%nat ∧
       (engine_calls w ≤ engine_calls w')%nat ∧
       (ids_drawn w ≤ ids_drawn w' ≤ ids_drawn w + length files)%nat).
Proof.
  destruct files as [|file rest]; cbn zeta.
  { split_and!; [done | by right; left | done | done]. }
  set (files := file :: rest).
  change (post_api_ocr_batch env files w)
    with (respond env Plain id (ocr_batch env files) w).
  unfold respond. rewrite ocr_batch_unfold. cbn [fst snd id].
  match goal with
  | |- context [send env Plain ?b] =>
      pose proof (send_status env Plain b) as Hstatus
  end.
  split_and!.
  - split; [|done]. intros H. rewrite H in Hstatus. by destruct Hstatus.
  - destruct Hstatus as [-> | ->]; [by left | by right; right].
  - done.
  - intros _. eexists _, _, _. split; [reflexivity|].
    split; [reflexivity|].
    split; [intros sent Hsent; by rewrite (send_sent _ _ _ _ Hsent)|].
    split_and!; try reflexivity.
    + rewrite <- (batch_entries_length env files w). apply length_filter.
    + apply (world_after_counters env files w).
    + apply world_after_counters.
    + apply world_after_counters.
Qed.

Lemma batch_bounds_witness :
  status (post_api_ocr_batch demo_env [] empty_world).1 = 422%Z ∧
  ∃ fields w',
    post_api_ocr_batch demo_env demo_batch empty_world
    = (mkResponse 200 (JObj fields), w') ∧
    lookup_field (py "processed") fields = Some (JInt 2) ∧
    ids_drawn w' = 3%nat.
Proof.
  split.
  - by apply (batch_bounds demo_env [] empty_world).
  - destruct (batch_bounds demo_env demo_batch empty_world)
      as (_ & _ & _ & H).
    destruct H as (fields & processed & w' & Hb & _ & Hsent & _);
      [discriminate|].
    vm_compute in Hb. injection Hb as <- <-.
    eexists _, _. split; [apply Hsent; vm_compute; reflexivity|].
    split; reflexivity.
Defined.

(** ** The text endpoint *)

Lemma split_scan_one_char c x s cur :
  split_scan [c] 0 cur (x :: s) =
  if c =? x then cur :: split_scan [c] 0 [] s
  else split_scan [c] 0 (cur ++ [x]) s.
Proof. simpl. by destruct (c =? x). Qed.

Lemma join_split_one_char c s : ∀ cur,
  join [c] (split_scan [c] 0 cur s) = cur ++ s.
Proof.
  induction s as [|x s IH]; intros cur.
  - simpl. by rewrite app_nil_r.
  - rewrite split_scan_one_char. destruct (c =? x) eqn:E.
    + apply N.eqb_eq in E as <-.
      pose proof (split_scan_nonempty [c] s 0%nat []) as Hne.
      specialize (IH []). destruct (split_scan [c] 0 [] s) as [|p ps]; [done|].
      rewrite join_cons2, IH. done.
    + rewrite IH. by rewrite <- app_assoc.
Qed.

Lemma lstrip_nil s : lstrip s = [] ↔ Forall (λ c, isspace c = true) s.
Proof.
  induction s as [|c s IH]; simpl; [done|].
  destruct (isspace c) eqn:E.
  - rewrite IH. split; [by constructor | by intros H; apply Forall_cons in H as [_ H]].
  - split; [done|]. intros H. apply Forall_cons in H as [H _]. congruence.
Qed.

Lemma strip_nil s : strip s = [] ↔ Forall (λ c, isspace c = true) s.
Proof.
  unfold strip, rstrip. split.
  - intros H. apply (f_equal (@rev N)) in H. rewrite rev_involutive in H.
    simpl in H. apply lstrip_nil in H.
    assert (Hl : lstrip s = []).
    { pose proof (lstrip_head s) as Hh. destruct (lstrip s) as [|c t]; [done|].
      apply Forall_forall with (x := c) in H; [congruence|].
      apply elem_of_rev. by left. }
    by apply lstrip_nil.
  - intros H. apply lstrip_nil in H. by rewrite H.
Qed.

Lemma join_blank lines :
  Forall (λ line, strip line = []) lines →
  Forall (λ c, isspace c = true) (join [LF] lines).
Proof.
  induction 1 as [|line lines Hline _ IH]; [done|].
  apply strip_nil in Hline. destruct lines as [|l ls]; [done|].
  rewrite join_cons2. apply Forall_app. split; [done|].
  apply Forall_app. split; [by constructor | done].
Qed.

(** A text that is not blank has a line that is not blank. *)
Lemma nonblank_line (text : str) :
  strip text ≠ [] →
  Exists (λ line, strip line ≠ []) (split_scan [LF] 0 [] (strip text)).
Proof.
  intros Hne.
  destruct (decide (Exists (λ line, strip line ≠ [])
                           (split_scan [LF] 0 [] (strip text)))) as [H|H];
    [done|].
  exfalso. apply Hne. rewrite <- strip_idem. apply strip_nil.
  rewrite <- (app_nil_l (strip text)), <- (join_split_one_char LF).
  apply join_blank. apply Forall_forall. intros line Hin.
  destruct (decide (strip line = [])) as [E|E]; [done|].
  exfalso. apply H. apply Exists_exists. by exists line.
Qed.

Lemma text_items_lines (text : str) :
  text_lines (map (λ line, mkItem line 1%float [])
                  (filter (λ line, strip line ≠ [])
                          (split_scan [LF] 0 [] (strip text))))
  = filter (λ line, strip line ≠ []) (split_scan [LF] 0 [] (strip text)).
Proof.
  unfold text_lines. rewrite map_map. simpl. rewrite map_id.
  induction (split_scan [LF] 0 [] (strip text)) as [|l ls IH]; [done|].
  destruct (decide (strip l = [])) as [E|E].
  - by rewrite (filter_cons_False _ l ls) by (intros ?; done).
  - rewrite (filter_cons_True _ l ls) by done.
    rewrite filter_cons_True by (by intros ->). by rewrite IH.
Qed.

(** X17. The text endpoint leaves the world as it is.  It answers 422,
    without running its handler, exactly when the form value [text] is
    empty.  Otherwise the handler, which receives the hint [auto] in place
    of an empty [delimiter], never raises: it returns the table of the
    lines of the text that are not blank, and the answer is what the
    framework makes of that table, so that the status is 200 or, when the
    table cannot be serialised, 500.  The handler itself, were it handed an
    empty delimiter, would raise the 500 whose error is the prefix followed
    by [empty separator] exactly for a text that is not blank. *)
Theorem text_endpoint_status (env : Env) (text delimiter : str) (w : World) :
  let resp := (post_api_convert_table env text delimiter w).1 in
  let hint := match delimiter with [] => AUTO | _ => delimiter end in
  let ocr_results :=
    map (λ line, mkItem line 1%float [])
        (filter (λ line, strip line ≠ [])
                (split_scan [LF] 0 [] (strip text))) in
  (post_api_convert_table env text delimiter w).2 = w ∧
  (status resp = 422%Z ↔ text = []) ∧
  (status resp = 200%Z ∨ status resp = 422%Z ∨ status resp = 500%Z) ∧
  (text = [] → resp = mkResponse 422 (missing_field env (py "text"))) ∧
  (text ≠ [] →
     ∃ csv md rows cols,
       convert_to_table ocr_results hint = Returned (csv, md, rows, cols) ∧
       convert_text_to_table text hint w
       = (Returned (mkTableResponse true csv md rows cols), w) ∧
       resp = send env Plain
                (JObj [ (py "success", JBool true);
                        (py "csv_content", JStr csv);
                        (py "markdown_table", JStr md);
                        (py "row_count", JInt (Z.of_nat rows));
                        (py "col_count", JInt (Z.of_nat cols)) ])) ∧
  ((convert_text_to_table text [] w).1
   = Raised (HTTPException 500 (MSG_CONVERT_FAILED ++ py "empty separator"))
   ↔ strip text ≠ []).
Proof.
  cbn zeta.
  set (items := map (λ line, mkItem line 1%float [])
                    (filter (λ line, strip line ≠ [])
                            (split_scan [LF] 0 [] (strip text)))).
  set (hint := match delimiter with [] => AUTO | _ => delimiter end).
  assert (Hhint : hint ≠ []) by (unfold hint; by destruct delimiter).
  destruct (convert_to_table_returns items hint Hhint)
    as [[[[csv md] rows] cols] Hq].
  assert (Hhandler : convert_text_to_table text hint w
                     = (Returned (mkTableResponse true csv md rows cols), w)).
  { unfold convert_text_to_table, try_except. fold items. by rewrite Hq. }
  assert (Hlast : (convert_text_to_table text [] w).1
            = Raised (HTTPException 500
                        (MSG_CONVERT_FAILED ++ py "empty separator"))
            ↔ strip text ≠ []).
  { unfold convert_text_to_table, try_except. fold items. split.
    - intros H Hblank. unfold items in H. rewrite Hblank in H. done.
    - intros Hne.
      assert (Hlines : text_lines items ≠ []).
      { unfold items. rewrite text_items_lines.
        apply nonblank_line, Exists_exists in Hne as (line & Hin & Hline).
        intros E. assert (Hf : line ∈ filter (λ l, strip l ≠ [])
                                  (split_scan [LF] 0 [] (strip text)))
          by (by apply list_elem_of_filter).
        rewrite E in Hf. by apply elem_of_nil in Hf. }
      by rewrite (convert_to_table_raises items Hlines). }
  destruct text as [|c text].
  { split_and!; [done | done | by right; left | done | done | exact Hlast]. }
  set (t := c :: text) in *.
  change (post_api_convert_table env t delimiter w)
    with (respond env Plain json_of_table (convert_text_to_table t hint) w).
  unfold respond. rewrite Hhandler. cbn [fst snd].
  match goal with
  | |- context [send env Plain ?b] =>
      pose proof (send_status env Plain b) as Hstatus
  end.
  split_and!.
  - done.
  - split; [|done]. intros H. rewrite H in Hstatus. by destruct Hstatus.
  - destruct Hstatus as [-> | ->]; [by left | by right; right].
  - done.
  - intros _. by exists csv, md, rows, cols.
  - exact Hlast.
Qed.

Lemma text_endpoint_status_witness :
  status (post_api_convert_table demo_env [] (py "tab") empty_world).1 = 422%Z ∧
  post_api_convert_table demo_env [97; 9; 98] [] empty_world
  = (mkResponse 200
       (JObj [ (py "success", JBool true);
               (py "csv_content", JStr (py "a,b" ++ [CR; LF]));
               (py "markdown_table",
                JStr (py "| a | b |" ++ [LF] ++ py "| --- | --- |"));
               (py "row_count", JInt 1);
               (py "col_count", JInt 2) ]), empty_world).
Proof.
  split.
  - by apply (text_endpoint_status demo_env [] (py "tab") empty_world).
  - destruct (text_endpoint_status demo_env [97; 9; 98] [] empty_world)
      as (Hw & _ & _ & _ & H & _).
    destruct H as (csv & md & rows & cols & Hq & _ & Hresp); [discriminate|].
    vm_compute in Hq. injection Hq as <- <- <- <-.
    rewrite (surjective_pairing
               (post_api_convert_table demo_env [97; 9; 98] [] empty_world)).
    rewrite Hw, Hresp. reflexivity.
Defined.

(** ** Lazy model loader *)

Lemma get_ocr_engine_loaded lenv l engine :
  ocr_slot l = Some engine → get_ocr_engine lenv l = (Returned engine, l).
Proof. intros H. unfold get_ocr_engine. by rewrite H. Qed.

Lemma get_structure_engine_keeps lenv l :
  ocr_slot (get_structure_engine lenv l).2 = ocr_slot l ∧
  ocr_attempts (get_structure_engine lenv l).2 = ocr_attempts l.
Proof.
  unfold get_structure_engine. destruct (structure_slot l); [done|].
  by destruct (structure_load lenv _).
Qed.

Lemma run_getters_ocr_loaded lenv calls : ∀ l engine,
  ocr_slot l = Some engine →
  ocr_slot (run_getters lenv calls l) = Some engine ∧
  ocr_attempts (run_getters lenv calls l) = ocr_attempts l.
Proof.
  induction calls as [|[|] calls IH]; intros l engine H; simpl; [done| |].
  - rewrite (get_ocr_engine_loaded _ _ _ H). by apply IH.
  - destruct (get_structure_engine_keeps lenv l) as [Hs Ha].
    destruct (IH (get_structure_engine lenv l).2 engine) as [H1 H2];
      [by rewrite Hs|].
    by rewrite H1, H2, Ha.
Qed.

(** X18. Once [get_ocr_engine] has returned an engine, it returns that same
    engine after any further calls of the two getters, and no further
    attempt to load the OCR engine is ever made. *)
Theorem ocr_engine_singleton (lenv : LoadEnv) (l l' : Loader) (engine : nat)
    (calls : list bool) :
  get_ocr_engine lenv l = (Returned engine, l') →
  let later := run_getters lenv calls l' in
  get_ocr_engine lenv later = (Returned engine, later) ∧
  ocr_attempts later = ocr_attempts l'.
Proof.
  intros H later.
  assert (Hslot : ocr_slot l' = Some engine).
  { unfold get_ocr_engine in H. destruct (ocr_slot l) as [e0|] eqn:E.
    - by injection H as <- <-.
    - destruct (ocr_load lenv (ocr_attempts l)); [done|].
      by injection H as <- <-. }
  destruct (run_getters_ocr_loaded lenv calls l' engine Hslot) as [H1 H2].
  split; [by apply get_ocr_engine_loaded | done].
Qed.

Lemma ocr_engine_singleton_witness :
  let l1 := (get_ocr_engine demo_load_env fresh_loader).2 in
  let l2 := (get_ocr_engine demo_load_env l1).2 in
  get_ocr_engine demo_load_env (run_getters demo_load_env [false; true; true] l2)
  = (Returned 1%nat, run_getters demo_load_env [false; true; true] l2) ∧
  ocr_attempts (run_getters demo_load_env [false; true; true] l2) = 2%nat.
Proof.
  intros l1 l2.
  apply (ocr_engine_singleton demo_load_env l1 l2 1 [false; true; true]).
  reflexivity.
Defined.

(** X19. A failed load of the OCR engine is not remembered: the slot stays
    empty, and the next call makes a new attempt, which gives the engine if
    that attempt succeeds. *)
Theorem ocr_engine_retry (lenv : LoadEnv) (l l' : Loader) (e : Exn) :
  get_ocr_engine lenv l = (Raised e, l') →
  ocr_slot l' = None ∧ ocr_attempts l' = S (ocr_attempts l) ∧
  (ocr_load lenv (ocr_attempts l') = None →
     (get_ocr_engine lenv l').1 = Returned (ocr_attempts l')).
Proof.
  intros H. unfold get_ocr_engine in H.
  destruct (ocr_slot l) as [e0|] eqn:E; [done|].
  destruct (ocr_load lenv (ocr_attempts l)) as [x|] eqn:El; [|done].
  injection H as <- <-. simpl. split_and!; [done | done |].
  intros Hnext. unfold get_ocr_engine. simpl. by rewrite Hnext.
Qed.

Lemma ocr_engine_retry_witness :
  (get_ocr_engine demo_load_env fresh_loader).1
    = Raised (PyError (py "out of memory")) ∧
  (get_ocr_engine demo_load_env (get_ocr_engine demo_load_env fresh_loader).2).1
    = Returned 1%nat.
Proof.
  split; [reflexivity|].
  destruct (ocr_engine_retry demo_load_env fresh_loader
              (get_ocr_engine demo_load_env fresh_loader).2
              (PyError (py "out of memory")) eq_refl) as (_ & _ & H).
  apply H. reflexivity.
Defined.

Lemma get_ocr_engine_keeps lenv l :
  structure_slot (get_ocr_engine lenv l).2 = structure_slot l ∧
  structure_attempts (get_ocr_engine lenv l).2 = structure_attempts l.
Proof.
  unfold get_ocr_engine. destruct (ocr_slot l); [done|].
  by destruct (ocr_load lenv _).
Qed.

Lemma run_getters_structure_set lenv calls : ∀ l s,
  structure_slot l = Some s →
  structure_slot (run_getters lenv calls l) = Some s ∧
  structure_attempts (run_getters lenv calls l) = structure_attempts l.
Proof.
  induction calls as [|[|] calls IH]; intros l s H; simpl; [done| |].
  - destruct (get_ocr_engine_keeps lenv l) as [Hs Ha].
    destruct (IH (get_ocr_engine lenv l).2 s) as [H1 H2]; [by rewrite Hs|].
    by rewrite H1, H2, Ha.
  - assert (Hsame : get_structure_engine lenv l = (Returned s, l))
      by (unfold get_structure_engine; by rewrite H).
    rewrite Hsame. by apply IH.
Qed.

(** X20. A missing structure module is remembered: when loading the
    structure engine met an [ImportError], every later call answers
    [False] at once, without trying again, whatever a new attempt would
    give. *)
Theorem structure_fallback_is_kept (lenv : LoadEnv) (l : Loader)
    (calls : list bool) :
  structure_slot l = None →
  structure_load lenv (structure_attempts l) = NoModule →
  let first := get_structure_engine lenv l in
  let later := run_getters lenv calls first.2 in
  first.1 = Returned None ∧
  get_structure_engine lenv later = (Returned None, later) ∧
  structure_attempts later = S (structure_attempts l).
Proof.
  intros Hslot Hload first later.
  assert (Hfirst : first = (Returned None,
            mkLoader (ocr_slot l) (Some None) (ocr_attempts l)
                     (S (structure_attempts l)))).
  { unfold first, get_structure_engine. by rewrite Hslot, Hload. }
  destruct (run_getters_structure_set lenv calls first.2 None) as [H1 H2].
  { by rewrite Hfirst. }
  split_and!.
  - by rewrite Hfirst.
  - unfold get_structure_engine, later. by rewrite H1.
  - unfold later. rewrite H2. by rewrite Hfirst.
Qed.

Lemma structure_fallback_is_kept_witness :
  let later := run_getters demo_load_env [true; false; false]
                 (get_structure_engine demo_load_env fresh_loader).2 in
  get_structure_engine demo_load_env later = (Returned None, later) ∧
  structure_attempts later = 1%nat ∧
  structure_load demo_load_env 1 = Constructed.
Proof.
  intros later.
  destruct (structure_fallback_is_kept demo_load_env fresh_loader
              [true; false; false] eq_refl eq_refl) as (_ & H1 & H2).
  split; [exact H1|]. split; [exact H2 | reflexivity].
Defined.

(** X21. The health check never fails and always reports the status
    [healthy]; [ocr_ready] tells whether the OCR engine is loaded
    afterwards, and a check made while no engine is loaded makes one
    attempt to load it. *)
Theorem health_check_spec (env : Env) (lenv : LoadEnv) (n : nat) (l : Loader) :
  let '(response, l') := health_check env lenv n l in
  health_status response = py "healthy" ∧
  health_version response = py "1.0.0" ∧
  (ocr_ready response = true ↔ is_Some (ocr_slot l')) ∧
  (ocr_slot l = None → ocr_attempts l' = S (ocr_attempts l)) ∧
  (is_Some (ocr_slot l) → l' = l ∧ ocr_ready response = true).
Proof.
  unfold health_check, get_ocr_engine.
  destruct (ocr_slot l) as [engine|] eqn:E.
  - rewrite E. repeat split; try done; by eexists.
  - destruct (ocr_load lenv (ocr_attempts l)); simpl;
      repeat split; try done; try (by eexists); by intros [? ?].
Qed.

(** ** PDF OCR adapter, in full *)

Lemma structure_items_elem result item :
  item ∈ structure_items result →
  ∃ text, item = mkPdfItem (mkItem text 1%float []) None.
Proof.
  unfold structure_items. intros Hin.
  apply list_elem_of_join in Hin as (l & Hin & Hl).
  apply list_elem_of_fmap in Hl as (res & -> & _).
  destruct res as [texts|]; [|by apply elem_of_nil in Hin].
  apply list_elem_of_fmap in Hin as (text & -> & _). by exists text.
Qed.

Lemma structure_items_texts result :
  map (λ item, item_text (pdf_item item)) (structure_items result)
  = mjoin (map (default []) result).
Proof.
  unfold structure_items. induction result as [|res result IH]; [done|].
  simpl. rewrite map_app, IH. f_equal.
  destruct res as [texts|]; [|done]. simpl. rewrite map_map. apply map_id.
Qed.

(** X22. When the structure engine is available and returns, the PDF
    adapter gives one item for every text of every result that has
    [text_contents], in order and without dropping empty texts; each item
    has confidence 1.0, an empty bbox and no page; no temporary file is made
    and the OCR engine is not run. *)
Theorem pdf_structure_path (env : Env) (lenv : LoadEnv) (penv : PdfEnv)
    (pdf : list Byte.byte) (pw : PdfWorld) (engine : nat) (l' : Loader)
    (result : list (option (list str))) :
  get_structure_engine lenv (loader pw) = (Returned (Some engine), l') →
  structure_predict penv pdf = Returned result →
  ∃ items,
    process_pdf_ocr_full env lenv penv pdf pw
    = (Returned items,
       mkPdfWorld l' (tmp_files pw) (tmp_drawn pw) (page_runs pw)) ∧
    map (λ item, item_text (pdf_item item)) items
    = mjoin (map (default []) result) ∧
    Forall (λ item, item_confidence (pdf_item item) = 1%float ∧
                    item_bbox (pdf_item item) = [] ∧
                    pdf_page item = None) items.
Proof.
  intros Hget Hpredict. exists (structure_items result).
  unfold process_pdf_ocr_full. rewrite Hget, Hpredict. split_and!.
  - reflexivity.
  - apply structure_items_texts.
  - apply Forall_forall. intros item Hin.
    by apply structure_items_elem in Hin as (text & ->).
Qed.

Lemma pdf_structure_path_witness :
  ∃ items pw',
    process_pdf_ocr_full demo_env demo_load_env demo_pdf_env []
      (mkPdfWorld (mkLoader None None 0 1) ∅ 0 0) = (Returned items, pw') ∧
    map (λ item, item_text (pdf_item item)) items = [py "Title"; []; py "Body"] ∧
    tmp_files pw' = ∅.
Proof.
  destruct (pdf_structure_path demo_env demo_load_env demo_pdf_env []
              (mkPdfWorld (mkLoader None None 0 1) ∅ 0 0) 1
              (mkLoader None (Some (Some 1%nat)) 0 2)
              [Some [py "Title"; []]; None; Some [py "Body"]])
    as (items & Hrun & Htexts & _); [reflexivity | reflexivity |].
  eexists items, _. split; [exact Hrun|]. split; [exact Htexts | reflexivity].
Defined.

Lemma get_ocr_engine_returned lenv l engine l' :
  get_ocr_engine lenv l = (Returned engine, l') → ocr_slot l' = Some engine.
Proof.
  unfold get_ocr_engine. intros H. destruct (ocr_slot l) as [e0|] eqn:E.
  - by injection H as <- <-.
  - destruct (ocr_load lenv (ocr_attempts l)); [done|].
    by injection H as <- <-.
Qed.

(** One page that the engine, once fetched, recognises. *)
Lemma process_image_ocr_full_returned env lenv image pw engine l' result :
  get_ocr_engine lenv (loader pw) = (Returned engine, l') →
  ocr_predict env image = Returned result →
  process_image_ocr_full env lenv image pw
  = (Returned (normalize result),
     mkPdfWorld l' (tmp_files pw) (tmp_drawn pw) (S (page_runs pw))).
Proof. intros Hget Hrun. unfold process_image_ocr_full. by rewrite Hget, Hrun. Qed.

(** The pages that are recognised without error.  The engine is fetched
    for every page; it is loaded for the first one if it was not before. *)
Lemma ocr_pages_prefix env lenv penv engine l'' before results :
  Forall2 (λ img result, ocr_predict env img = Returned result) before results →
  ∀ i rest acc pw,
  get_ocr_engine lenv (loader pw) = (Returned engine, l'') →
  ∃ pw',
    ocr_pages env lenv penv i (before ++ rest) acc pw
    = ocr_pages env lenv penv (i + length before) rest
        (acc ++ pages_items i results) pw' ∧
    loader pw' = match before with [] => loader pw | _ => l'' end ∧
    get_ocr_engine lenv (loader pw') = (Returned engine, l'') ∧
    tmp_files pw' ⊆ tmp_files pw ∧
    tmp_drawn pw' = (tmp_drawn pw + length before)%nat ∧
    page_runs pw' = (page_runs pw + length before)%nat.
Proof.
  induction 1 as [|img result before results Himg _ IH];
    intros i rest acc pw Hget.
  - exists pw. simpl. rewrite Nat.add_0_r, app_nil_r.
    split_and!; [done | done | done | done | lia | lia].
  - simpl. rewrite lookup_insert_eq. simpl.
    rewrite (process_image_ocr_full_returned env lenv img _ engine l'' result) by done.
    simpl.
    assert (Hloaded : get_ocr_engine lenv l'' = (Returned engine, l'')).
    { by apply get_ocr_engine_loaded,
        (get_ocr_engine_returned lenv (loader pw)). }
    destruct (IH (S i) rest
                (acc ++ map (λ r, mkPdfItem r (Some (i + 1)%nat)) (normalize result))
                (mkPdfWorld l''
                   (delete (tmp_name penv (tmp_drawn pw))
                      (<[tmp_name penv (tmp_drawn pw) := img]> (tmp_files pw)))
                   (S (tmp_drawn pw)) (S (page_runs pw))) Hloaded)
      as (pw' & Hrun & Hl & Hg & Hsub & Hd & Hr).
    exists pw'. simpl in *. split_and!.
    + rewrite Hrun. f_equal; [lia|]. rewrite <- app_assoc. do 2 f_equal.
      unfold page_items. by rewrite Nat.add_1_r.
    + rewrite Hl. by destruct before.
    + done.
    + etrans; [exact Hsub|]. rewrite delete_insert_eq. apply delete_subseteq.
    + lia.
    + lia.
Qed.

(** X23. When the structure engine is not available, the PDF is
    rasterised, the OCR engine loads, or is loaded, when the first page
    asks for it, and every page is recognised, the PDF adapter returns the
    items of the pages in page order, each tagged with the number of its
    page counted from 1; the engine was run once per page, it is loaded
    afterwards unless there was no page, and no temporary file is left that
    was not there before. *)
Theorem pdf_fallback_success (env : Env) (lenv : LoadEnv) (penv : PdfEnv)
    (pdf : list Byte.byte) (pw : PdfWorld) (l' l'' : Loader) (engine : nat)
    (images : list (list Byte.byte)) (results : list (list EngineResult)) :
  get_structure_engine lenv (loader pw) = (Returned None, l') →
  rasterize penv pdf = Returned images →
  get_ocr_engine lenv l' = (Returned engine, l'') →
  Forall2 (λ img result, ocr_predict env img = Returned result) images results →
  ∃ pw',
    process_pdf_ocr_full env lenv penv pdf pw
    = (Returned (pages_items 0 results), pw') ∧
    loader pw' = match images with [] => l' | _ => l'' end ∧
    (images ≠ [] → ocr_slot (loader pw') = Some engine) ∧
    tmp_files pw' ⊆ tmp_files pw ∧
    page_runs pw' = (page_runs pw + length images)%nat ∧
    Forall (λ item, ∃ k, pdf_page item = Some (S k) ∧ (k < length images)%nat)
           (pages_items 0 results).
Proof.
  intros Hget Hraster Header Hpages.
  destruct (ocr_pages_prefix env lenv penv engine l'' images results Hpages
              0%nat [] []
              (mkPdfWorld l' (tmp_files pw) (tmp_drawn pw) (page_runs pw))
              Header)
    as (pw' & Hrun & Hl & _ & Hsub & Hd & Hr).
  exists pw'. unfold process_pdf_ocr_full. rewrite Hget, Hraster.
  rewrite app_nil_r in Hrun. rewrite Hrun. simpl. split_and!; try done.
  { intros Hne. rewrite Hl. destruct images; [done|].
    by apply (get_ocr_engine_returned lenv l'). }
  clear -Hpages. apply Forall2_length in Hpages. rewrite Hpages. clear.
  assert (H : ∀ i, Forall (λ item, ∃ k, pdf_page item = Some (S k) ∧
                             (i ≤ k < i + length results)%nat)
                          (pages_items i results)).
  { induction results as [|r rs IH]; intros i; [done|]. simpl.
    apply Forall_app. split.
    - apply Forall_forall. intros item Hin. unfold page_items in Hin.
      apply list_elem_of_fmap in Hin as (x & -> & _). exists i. simpl.
      split; [done | lia].
    - eapply Forall_impl; [apply (IH (S i))|]. intros item (k & Hk & Hb).
      exists k. split; [done | lia]. }
  eapply Forall_impl; [apply (H 0%nat)|]. intros item (k & Hk & Hb).
  exists k. split; [done | lia].
Qed.

Lemma pdf_fallback_success_witness :
  ∃ pw',
    process_pdf_ocr_full demo_env demo_engines
      (mkPdfEnv (structure_predict demo_pdf_env)
                (λ b, Returned [text_bytes (py "p1"); text_bytes (py "p2")])
                (is_import_error demo_pdf_env) (tmp_name demo_pdf_env))
      [] fresh_pdf_world =
    (Returned [mkPdfItem (mkItem (py "p1") 1%float []) (Some 1%nat);
               mkPdfItem (mkItem (py "p2") 1%float []) (Some 2%nat)], pw') ∧
    ocr_slot (loader pw') = Some 0%nat ∧
    tmp_files pw' ⊆ ∅ ∧ page_runs pw' = 2%nat.
Proof.
  destruct (pdf_fallback_success demo_env demo_engines
              (mkPdfEnv (structure_predict demo_pdf_env)
                 (λ b, Returned [text_bytes (py "p1"); text_bytes (py "p2")])
                 (is_import_error demo_pdf_env) (tmp_name demo_pdf_env))
              [] fresh_pdf_world (mkLoader None (Some None) 0 1)
              (mkLoader (Some 0%nat) (Some None) 1 1) 0%nat
              [text_bytes (py "p1"); text_bytes (py "p2")]
              [[RecAttrs [py "p1"] None None]; [RecAttrs [py "p2"] None None]])
    as (pw' & Hrun & _ & Hslot & Hsub & Hruns & _);
    [reflexivity | reflexivity | reflexivity | |].
  { repeat constructor. }
  exists pw'. split; [exact Hrun|].
  split; [by apply Hslot|]. split; [exact Hsub | exact Hruns].
Defined.

(** X24. When a page cannot be recognised, the pages before it having
    been, the PDF adapter raises and the temporary image of that page is
    left behind.  What it raises is the exception of the engine, unless
    that is an [ImportError], which is reported as the missing [pdf2image]
    dependency with status 500.  The same holds when the OCR engine cannot
    be loaded for the first page: the image of that page is left behind,
    no page was recognised, and the exception of the load is raised or
    reported in that way. *)
Theorem pdf_fallback_failure (env : Env) (lenv : LoadEnv) (penv : PdfEnv)
    (pdf : list Byte.byte) (pw : PdfWorld) (l' : Loader)
    (before after : list (list Byte.byte)) (img : list Byte.byte)
    (results : list (list EngineResult)) (e : Exn) :
  get_structure_engine lenv (loader pw) = (Returned None, l') →
  rasterize penv pdf = Returned (before ++ img :: after) →
  (∀ engine l'',
     get_ocr_engine lenv l' = (Returned engine, l'') →
     Forall2 (λ img result, ocr_predict env img = Returned result)
             before results →
     ocr_predict env img = Raised e →
     ∃ pw',
       process_pdf_ocr_full env lenv penv pdf pw
       = (Raised (if is_import_error penv e
                  then HTTPException 500 MSG_PDF_DEPENDENCY else e), pw') ∧
       tmp_files pw' !! tmp_name penv (tmp_drawn pw + length before) = Some img ∧
       page_runs pw' = S (page_runs pw + length before) ∧
       loader pw' = l'') ∧
  (∀ l'',
     get_ocr_engine lenv l' = (Raised e, l'') →
     ∃ pw',
       process_pdf_ocr_full env lenv penv pdf pw
       = (Raised (if is_import_error penv e
                  then HTTPException 500 MSG_PDF_DEPENDENCY else e), pw') ∧
       tmp_files pw' !! tmp_name penv (tmp_drawn pw)
       = Some (hd img before) ∧
       page_runs pw' = page_runs pw ∧
       loader pw' = l'').
Proof.
  intros Hget Hraster. split.
  - intros engine l'' Hengine Hpages Himg.
    destruct (ocr_pages_prefix env lenv penv engine l'' before results Hpages
                0%nat (img :: after) []
                (mkPdfWorld l' (tmp_files pw) (tmp_drawn pw) (page_runs pw))
                Hengine)
      as (pw1 & Hrun & Hl & Hg & Hsub & Hd & Hr).
    simpl in Hd, Hr.
    eexists. unfold process_pdf_ocr_full. rewrite Hget, Hraster, Hrun.
    simpl. rewrite lookup_insert_eq. simpl.
    unfold process_image_ocr_full. simpl. rewrite Hg, Himg. split_and!.
    + reflexivity.
    + simpl. rewrite Hd. apply lookup_insert_eq.
    + simpl. by rewrite Hr.
    + reflexivity.
  - intros l'' Hengine.
    unfold process_pdf_ocr_full. rewrite Hget, Hraster.
    destruct before as [|first before]; eexists; simpl;
      rewrite lookup_insert_eq; simpl; unfold process_image_ocr_full; simpl;
      rewrite Hengine; (split_and!; [reflexivity | | reflexivity | reflexivity]);
      simpl; apply lookup_insert_eq.
Qed.

Lemma pdf_fallback_failure_witness :
  (∃ pw',
     process_pdf_ocr_full demo_env demo_engines demo_pdf_env []
       fresh_pdf_world
     = (Raised (PyError (py "cannot identify image file")), pw') ∧
     tmp_files pw' !! py "tmp1.png" = Some [] ∧
     page_runs pw' = 2%nat) ∧
  (∃ pw',
     process_pdf_ocr_full demo_env
       (mkLoadEnv (ocr_load demo_load_env) (λ n, NoModule)) demo_pdf_env []
       fresh_pdf_world
     = (Raised (PyError (py "out of memory")), pw') ∧
     tmp_files pw' !! py "tmp0.png" = Some (text_bytes (py "p1")) ∧
     page_runs pw' = 0%nat).
Proof.
  split.
  - destruct (pdf_fallback_failure demo_env demo_engines demo_pdf_env []
                fresh_pdf_world (mkLoader None (Some None) 0 1)
                [text_bytes (py "p1")] [text_bytes (py "p3")] []
                [[RecAttrs [py "p1"] None None]]
                (PyError (py "cannot identify image file")))
      as [H _]; [reflexivity | reflexivity |].
    destruct (H 0%nat (mkLoader (Some 0%nat) (Some None) 1 1))
      as (pw' & Hrun & Hleft & Hruns & _);
      [reflexivity | repeat constructor | reflexivity |].
    exists pw'. split; [exact Hrun|]. split; [exact Hleft | exact Hruns].
  - destruct (pdf_fallback_failure demo_env
                (mkLoadEnv (ocr_load demo_load_env) (λ n, NoModule))
                demo_pdf_env [] fresh_pdf_world (mkLoader None (Some None) 0 1)
                [text_bytes (py "p1")] [text_bytes (py "p3")] [] []
                (PyError (py "out of memory")))
      as [_ H]; [reflexivity | reflexivity |].
    destruct (H (mkLoader None (Some None) 1 1))
      as (pw' & Hrun & Hleft & Hruns & _); [reflexivity|].
    exists pw'. split; [exact Hrun|]. split; [exact Hleft | exact Hruns].
Defined.

(** ** File validator: directories and the rejection message *)

Lemma split_scan_app_sep c a b : ∀ cur,
  split_scan [c] 0 cur (a ++ c :: b)
  = split_scan [c] 0 cur a ++ split_scan [c] 0 [] b.
Proof.
  induction a as [|x a IH]; intros cur.
  - simpl. by rewrite N.eqb_refl.
  - rewrite <- app_comm_cons, !split_scan_one_char.
    destruct (c =? x); [|apply IH]. by rewrite IH.
Qed.

Lemma split_scan_no_sep c s : ∀ cur,
  c ∉ s → split_scan [c] 0 cur s = [cur ++ s].
Proof.
  induction s as [|x s IH]; intros cur Hc.
  - simpl. by rewrite app_nil_r.
  - rewrite split_scan_one_char.
    apply not_elem_of_cons in Hc as [Hx Hs].
    apply N.eqb_neq in Hx. rewrite Hx, IH by done. by rewrite <- app_assoc.
Qed.

Lemma path_name_basename dir name :
  SLASH ∉ name → name ≠ [] → name ≠ [DOT] →
  path_name (dir ++ SLASH :: name) = name.
Proof.
  intros Hslash Hne Hdot. unfold path_name.
  rewrite split_scan_app_sep, (split_scan_no_sep SLASH name []) by done.
  rewrite app_nil_l, filter_app, filter_cons_True by done.
  rewrite filter_nil, last_snoc. reflexivity.
Qed.

Lemma path_name_plain name :
  SLASH ∉ name → name ≠ [] → name ≠ [DOT] → path_name name = name.
Proof.
  intros Hslash Hne Hdot. unfold path_name.
  rewrite (split_scan_no_sep SLASH name []) by done. simpl.
  by rewrite filter_cons_True.
Qed.

(** X25. Only the last component of the filename counts: a name given
    with leading directories is accepted or rejected, with the same
    extension or reason, as the bare name is. *)
Theorem validate_file_ignores_directories (env : Env) (dir name : str) :
  SLASH ∉ name → name ≠ [] → name ≠ [DOT] →
  validate_file env (dir ++ SLASH :: name) = validate_file env name.
Proof.
  intros Hslash Hne Hdot.
  assert (Hs : suffix (dir ++ SLASH :: name) = suffix name).
  { unfold suffix. by rewrite path_name_basename, path_name_plain. }
  unfold validate_file. rewrite Hs.
  destruct name as [|c rest]; [done|].
  by destruct dir.
Qed.

Lemma validate_file_ignores_directories_witness :
  validate_file demo_env (py "/tmp/in" ++ SLASH :: py "scan.PNG")
  = (true, py ".png").
Proof.
  rewrite (validate_file_ignores_directories demo_env (py "/tmp/in")
             (py "scan.PNG"));
    [reflexivity | | discriminate | discriminate].
  apply (bool_decide_unpack _). vm_compute. exact I.
Defined.

Lemma contains_suffix p a b : contains p b = true → contains p (a ++ b) = true.
Proof.
  intros H. induction a as [|x a IH]; simpl; [done|].
  rewrite IH. apply orb_true_r.
Qed.

Lemma contains_join p sep parts : p ∈ parts → contains p (join sep parts) = true.
Proof.
  induction parts as [|q rest IH]; intros Hin; [by apply elem_of_nil in Hin|].
  apply elem_of_cons in Hin as [-> | Hin].
  - destruct rest as [|r rest'].
    + simpl. apply contains_startswith.
      rewrite <- (app_nil_r q) at 2. apply startswith_app.
    + rewrite join_cons2. apply contains_startswith, startswith_app.
  - destruct rest as [|r rest']; [by apply elem_of_nil in Hin|].
    rewrite join_cons2. by apply contains_suffix, contains_suffix, IH.
Qed.

(** X26. Provided the iteration over the allowed set yields each of its
    members, the reason given for an unsupported extension names every
    allowed extension. *)
Theorem rejection_lists_formats (env : Env) (filename reason : str) :
  (∀ e, e ∈ ALLOWED_EXTENSIONS → e ∈ set_order env) →
  filename ≠ [] →
  validate_file env filename = (false, reason) →
  ∀ e, e ∈ ALLOWED_EXTENSIONS → contains e reason = true.
Proof.
  intros Horder Hne Hbad e He. unfold validate_file in Hbad.
  destruct filename as [|c rest]; [done|].
  case_decide; [done|]. apply (f_equal snd) in Hbad. cbn [snd] in Hbad.
  rewrite <- Hbad.
  by apply contains_suffix, contains_suffix, contains_suffix,
    contains_join, Horder.
Qed.

Lemma rejection_lists_formats_witness :
  ∃ reason, validate_file demo_env (py "photo.exe") = (false, reason) ∧
            contains (py ".webp") reason = true.
Proof.
  eexists. split; [reflexivity|].
  apply (rejection_lists_formats demo_env (py "photo.exe")).
  - intros e He. apply allowed_extensions_list in He. exact He.
  - discriminate.
  - reflexivity.
  - apply (bool_decide_unpack _). vm_compute. exact I.
Defined.

(** ** The table endpoint, path by path *)

(** X27. [/api/ocr/table] answers 422 exactly when the request has no
    [file] part, and 400 exactly when it has one whose filename the
    validator rejects; every answer has status 200, 400, 422 or 500.  The
    handler raises its 500 exactly when the filename is accepted and the
    write or the adapter fails; what it raises is answered with the
    envelope that carries [status_code].  When the handler returns, the
    answer is what the framework makes of the table: status 200 with the
    body it serialised or, when the serialisation fails, the answer 500 of
    the catch-all handler. *)
Theorem table_status_classes (env : Env) (file : option UploadFile) (w : World) :
  let resp := (post_api_ocr_table env file w).1 in
  (status resp = 422%Z ↔ file = None) ∧
  (status resp = 200%Z ∨ status resp = 400%Z ∨ status resp = 422%Z
   ∨ status resp = 500%Z) ∧
  ∀ f, file = Some f →
    (status resp = 400%Z ↔ (validate_file env (filename f)).1 = false) ∧
    ((∃ detail, (ocr_to_table env f w).1 = Raised (HTTPException 500 detail)) ↔
     ∃ file_ext, validate_file env (filename f) = (true, file_ext) ∧
       (disk_write env (scratch_path env w file_ext) (content f) ≠ Written
        ∨ ∃ e pw', adapter_outcome env file_ext (content f) (runtime w)
                   = (Raised e, pw'))) ∧
    match (ocr_to_table env f w).1 with
    | Raised (HTTPException status_code detail) =>
        (status_code = 400%Z ∨ status_code = 500%Z) ∧
        resp = mkResponse status_code
                 (JObj [ (py "success", JBool false);
                         (py "error", JStr detail);
                         (py "status_code", JInt status_code) ])
    | Raised (PyError _) => False
    | Returned table =>
        tbl_success table = true ∧
        match render env Plain (json_of_table table) with
        | Sent sent => resp = mkResponse 200 sent
        | Unsendable reason =>
            resp = mkResponse 500
                     (JObj [ (py "success", JBool false);
                             (py "error", JStr MSG_INTERNAL);
                             (py "detail", JStr reason) ])
        end
    end.
Proof.
  destruct file as [f|]; simpl; [|by split_and!; [| right; right; left |]].
  destruct (respond_cases env Plain json_of_table (ocr_to_table env f) w)
    as [_ ->].
  match goal with
  | |- ?A ∧ ?B ∧ (∀ f0, Some f = Some f0 → @?C f0) =>
      enough (H : A ∧ B ∧ C f)
        by (destruct H as (H1 & H2 & H3);
            split_and!; [done | done | by intros f' [= <-]])
  end.
  cbn beta.
  destruct (ocr_to_table_cases env f w)
    as [(reason & Hv & ->)
       | [(x & detail & pw' & Hv & Hwhy & ->)
         | (x & items & ty & csv & md & rows & cols & pw' & Hv & Hd & Ho & Hq
            & ->)]];
    rewrite Hv; simpl.
  - split_and!; [done | by right; left | done | | by left | done].
    split; [by intros [detail [=]] | by intros (x' & [=] & _)].
  - split_and!; [done | by right; right; right | done | | by right | done].
    split; [|by eexists]. intros _. exists x. split; [done|].
    destruct Hwhy as [Hw | [e He]]; [by left | right; by exists e, pw'].
  - assert (Hnot : ¬ ∃ file_ext, (true, x) = (true, file_ext) ∧
               (disk_write env (scratch_path env w file_ext) (content f) ≠ Written
                ∨ ∃ e pw0, adapter_outcome env file_ext (content f) (runtime w)
                           = (Raised e, pw0))).
    { intros (x' & [= <-] & [Hw | (e & pw0 & He)]); congruence. }
    unfold send.
    destruct (render env Plain _) as [sent|reason] eqn:Hr; simpl.
    + split_and!; [done | by left | done | | done | done].
      split; [by intros [detail [=]] | done].
    + split_and!; [done | by right; right; right | done | | done | done].
      split; [by intros [detail [=]] | done].
Qed.

Lemma table_status_classes_witness :
  status (post_api_ocr_table demo_env None empty_world).1 = 422%Z ∧
  status (post_api_ocr_table demo_env (Some demo_exe) empty_world).1 = 400%Z.
Proof.
  split.
  - by apply (table_status_classes demo_env None empty_world).
  - destruct (table_status_classes demo_env (Some demo_exe) empty_world)
      as (_ & _ & H).
    destruct (H demo_exe eq_refl) as [H400 _]. by apply H400.
Defined.

(** ** Markdown: what the conversion returns, and converting again *)

Lemma split_join ch (l : list str) :
  l ≠ [] → Forall (λ p, ch ∉ p) l → split_scan [ch] 0 [] (join [ch] l) = l.
Proof.
  induction l as [|p l IH]; intros Hne Hall; [done|].
  apply Forall_cons in Hall as [Hp Hall].
  destruct l as [|q rest].
  - simpl. by rewrite split_scan_no_sep.
  - rewrite join_cons2.
    change ([ch] ++ join [ch] (q :: rest)) with (ch :: join [ch] (q :: rest)).
    rewrite split_scan_app_sep, split_scan_no_sep by done.
    by rewrite IH.
Qed.

Lemma join_nonempty sep (c : str) rest : c ≠ [] → join sep (c :: rest) ≠ [].
Proof. destruct rest; simpl; [done|]. by destruct c. Qed.

(** Cleaning a row of trimmed cells with its padding gives the row. *)
Lemma clean_cells_padded row k :
  Forall (λ c, c ≠ [] ∧ strip c = c) row →
  clean_cells (row ++ replicate k []) = row.
Proof.
  intros H. unfold clean_cells. rewrite map_app, filter_app.
  assert (H1 : filter (λ c, c ≠ []) (map strip row) = row).
  { induction H as [|c row [Hc Hs] _ IH]; [done|]. simpl. rewrite Hs.
    rewrite filter_cons_True by done. by rewrite IH. }
  assert (H2 : filter (λ c : str, c ≠ []) (map strip (replicate k [])) = []).
  { induction k as [|k IH]; [done|]. simpl.
    change (strip []) with (@nil N).
    rewrite filter_cons_False; [exact IH | by intros ?]. }
  by rewrite H1, H2, app_nil_r.
Qed.

Lemma clean_cells_facts ch line :
  Forall (λ c, (c ≠ [] ∧ strip c = c) ∧ ch ∉ c)
         (clean_cells (split_scan [ch] 0 [] line)).
Proof.
  unfold clean_cells. apply Forall_forall. intros c Hc.
  apply list_elem_of_filter in Hc as [Hne Hc].
  apply list_elem_of_fmap in Hc as (piece & -> & Hpiece).
  split; [split; [done | apply strip_idem]|].
  intros Hin. apply strip_subset in Hin.
  pose proof (split_scan_excludes ch line [] (not_elem_of_nil ch)) as Hall.
  by apply (proj1 (Forall_forall _ _) Hall piece Hpiece).
Qed.

(** A padded row, its cells joined by the delimiter, is split and cleaned
    into the row it was before padding. *)
Lemma line_cells_rejoin ch line k :
  line_cells [ch] line ≠ [] →
  line_cells [ch] (join [ch] (line_cells [ch] line ++ replicate k []))
  = line_cells [ch] line.
Proof.
  unfold line_cells. rewrite !split_line_one_char. intros Hne.
  pose proof (clean_cells_facts ch line) as Hf.
  set (row := clean_cells (split_scan [ch] 0 [] line)) in *.
  rewrite split_join.
  - apply clean_cells_padded. eapply Forall_impl; [exact Hf|]. by intros c [H _].
  - by destruct row.
  - apply Forall_app. split.
    + eapply Forall_impl; [exact Hf|]. by intros c [_ H].
    + apply Forall_forall. intros c Hc.
      apply elem_of_replicate in Hc as [-> _]. apply not_elem_of_nil.
Qed.

(** Converting again the grid that a conversion with a one-character
    delimiter returned, each row given as the line of its cells joined by
    that delimiter, returns what the conversion returned. *)
Lemma convert_again ch ocr_results csv md rows cols :
  convert_to_table ocr_results [ch] = Returned (csv, md, rows, cols) →
  rows ≠ 0%nat →
  convert_to_table
    (map (λ row, mkItem (join [ch] row) 1%float []) (csv_parse csv)) [ch]
  = Returned (csv, md, rows, cols).
Proof.
  intros H Hrows.
  assert (Hdet : ∀ lines, detect_delimiter [ch] lines = [ch]).
  { intros lines. unfold detect_delimiter. by case_decide. }
  rewrite convert_to_table_rows in H. cbn zeta in H. rewrite Hdet in H.
  destruct (parse_rows [ch] (text_lines ocr_results) [] 0)
    as [[td mc]|] eqn:E; [|done].
  apply parse_rows_inv in E as [Htd Hmc]. simpl in Htd. rewrite <- Htd in Hmc.
  assert (Hne : td ≠ []).
  { intros ->. injection H as _ _ <- _. done. }
  assert (Hemit : emit_table mc td = (csv, md, rows, cols)).
  { destruct td; [done|].
    by apply (f_equal (λ r, match r with
                            | Returned q => q
                            | Raised _ => (csv, md, rows, cols)
                            end)) in H. }
  clear H.
  assert (Hgrid : csv_parse csv = pad_rows mc td).
  { unfold emit_table in Hemit. injection Hemit as <- _ _ _.
    apply csv_parse_writerows. }
  assert (Hrowsof : Forall (λ row, ∃ line, row = line_cells [ch] line ∧ row ≠ []) td).
  { rewrite Htd. apply Forall_forall. intros row Hrow.
    apply list_elem_of_filter in Hrow as [Hr Hin].
    apply list_elem_of_fmap in Hin as (line & -> & _). by exists line. }
  rewrite Hgrid, convert_to_table_rows. cbn zeta. rewrite Hdet.
  assert (Hlines : text_lines (map (λ row, mkItem (join [ch] row) 1%float [])
                                   (pad_rows mc td))
                   = map (join [ch]) (pad_rows mc td)).
  { unfold text_lines, pad_rows. rewrite !map_map. simpl.
    clear -Hrowsof. induction Hrowsof as [|row td (line & -> & Hr) _ IH]; [done|].
    simpl. rewrite filter_cons_True; [by rewrite IH|].
    pose proof (line_cells_nonblank [ch] line) as Hcells.
    destruct (line_cells [ch] line) as [|c cs]; [done|].
    apply Forall_cons in Hcells as [Hc _].
    exact (join_nonempty [ch] c (cs ++ replicate _ []) Hc). }
  rewrite Hlines.
  destruct (parse_rows_total [ch] (map (join [ch]) (pad_rows mc td)) [] 0)
    as [[td2 mc2] E2].
  { intros line _. by apply split_line_total. }
  rewrite E2. apply parse_rows_inv in E2 as [Htd2 Hmc2]. simpl in Htd2.
  assert (Hsame : map (line_cells [ch]) (map (join [ch]) (pad_rows mc td)) = td).
  { unfold pad_rows. rewrite !map_map. simpl.
    clear -Hrowsof. induction Hrowsof as [|row td (line & -> & Hr) _ IH]; [done|].
    simpl. by rewrite IH, line_cells_rejoin. }
  assert (Hfilter : filter (λ r : list str, r ≠ []) td = td).
  { clear -Hrowsof. induction Hrowsof as [|row td (line & _ & Hr) _ IH]; [done|].
    rewrite filter_cons_True by done. by rewrite IH. }
  cbn zeta in Hmc2. rewrite Hsame, Hfilter in Htd2, Hmc2.
  subst td2. rewrite <- Hmc in Hmc2. subst mc2.
  rewrite <- Hemit. by destruct td.
Qed.

(** C8.  Whenever the conversion returns, the grid it returned (read back
    from its CSV text) has as many rows as the row count and every row has
    as many cells as the column count; the Markdown text it returned is
    empty for the empty grid and otherwise the first row as header, a
    separator with one dash group per column, and the other rows, each as a
    pipe-delimited line.  Converting the grid a second time changes nothing:
    lines 536-557 track the same width on it, pad nothing and give the same
    Markdown text; and, for a one-character delimiter, the whole conversion
    run on the rows of the grid, their cells joined by the delimiter,
    returns the same CSV text, Markdown text and counts. *)
Theorem markdown_idempotent (ocr_results : list Item) (delimiter : str)
    (csv md : str) (rows cols : nat) :
  convert_to_table ocr_results delimiter = Returned (csv, md, rows, cols) →
  let grid := csv_parse csv in
  length grid = rows ∧
  Forall (λ row, length row = cols) grid ∧
  match grid with
  | [] => md = []
  | header :: body =>
      md = join [LF]
             (md_row header
                :: md_row (replicate cols (py "---"))
                :: map md_row body)
  end ∧
  track_width 0 grid = cols ∧
  pad_rows (track_width 0 grid) grid = grid ∧
  markdown_of (track_width 0 grid) (pad_rows (track_width 0 grid) grid) = md ∧
  ∀ ch, delimiter = [ch] ∨ (delimiter = py "tab" ∧ ch = TAB)
        ∨ (delimiter = py "comma" ∧ ch = COMMA) →
    convert_to_table
      (map (λ row, mkItem (join [ch] row) 1%float []) grid) delimiter
    = Returned (csv, md, rows, cols).
Proof.
  intros H grid.
  destruct (convert_to_table_grid _ _ _ _ _ _ H)
    as (td & _ & _ & Hcols & Hlen & Hcsv & Hmd).
  assert (Hgrid : grid = pad_rows cols td).
  { unfold grid. rewrite Hcsv. apply csv_parse_writerows. }
  assert (Hall : Forall (λ row, length row = cols) grid).
  { rewrite Hgrid. apply pad_rows_length. rewrite Hcols. apply track_width_bound. }
  assert (Hrows : length grid = rows).
  { by rewrite Hgrid, pad_rows_count. }
  assert (Hw : track_width 0 grid = cols).
  { destruct (decide (grid = [])) as [E|E].
    - rewrite E. rewrite Hgrid in E. unfold pad_rows in E.
      apply fmap_nil_inv in E. by rewrite Hcols, E.
    - apply track_width_uniform; [lia | done | done]. }
  assert (Hid : pad_rows cols grid = grid) by (by apply pad_rows_id).
  split_and!.
  - exact Hrows.
  - exact Hall.
  - rewrite Hmd, <- Hgrid. by destruct grid.
  - exact Hw.
  - by rewrite Hw.
  - rewrite Hw, Hid, Hmd, <- Hgrid. reflexivity.
  - intros ch Hd.
    destruct (decide (rows = 0%nat)) as [E|E].
    + rewrite E in Hrows. apply nil_length_inv in Hrows. rewrite Hrows. simpl.
      rewrite Hgrid in Hrows. unfold pad_rows in Hrows.
      apply fmap_nil_inv in Hrows. subst td. simpl in Hcols. subst cols.
      by rewrite Hcsv, Hmd, E.
    + unfold grid.
      destruct Hd as [-> | [[-> ->] | [-> ->]]].
      * exact (convert_again _ _ _ _ _ _ H E).
      * rewrite (proj1 (delimiter_aliases_eq _)).
        rewrite (proj1 (delimiter_aliases_eq _)) in H.
        exact (convert_again _ _ _ _ _ _ H E).
      * rewrite (proj2 (delimiter_aliases_eq _)).
        rewrite (proj2 (delimiter_aliases_eq _)) in H.
        exact (convert_again _ _ _ _ _ _ H E).
Qed.

Lemma markdown_idempotent_witness :
  convert_to_table demo_items (py "tab")
  = Returned (py "a,b" ++ [CR; LF] ++ py "c," ++ [CR; LF],
              py "| a | b |" ++ [LF] ++ py "| --- | --- |" ++ [LF]
                ++ py "| c |  |",
              2%nat, 2%nat) ∧
  csv_parse (py "a,b" ++ [CR; LF] ++ py "c," ++ [CR; LF])
  = [[py "a"; py "b"]; [py "c"; []]] ∧
  convert_to_table
    [mkItem [97; 9; 98] 1%float []; mkItem [99; 9] 1%float []] (py "tab")
  = convert_to_table demo_items (py "tab").
Proof.
  destruct (markdown_idempotent demo_items (py "tab") _ _ _ _ eq_refl)
    as (_ & _ & _ & _ & _ & _ & Hagain).
  split; [reflexivity|]. split; [reflexivity|].
  exact (Hagain TAB (or_intror (or_introl (conj eq_refl eq_refl)))).
Defined.
